(** * Cup warmer: PID temperature control and heating scheduler

    A shallow embedding of the control core of the firmware:
    - [components/temp_control/pid.c]          (module [Pid])
    - [components/temp_control/temp_control.c] (module [TempControl])
    - [components/scheduler/scheduler.c]       (module [Scheduler])
    - [components/soft_rtc/soft_rtc.c]         (module [SoftRtc])
    - [components/http_server/http_server.c]   (module [HttpServer])

    The C [float] is IEEE-754 binary32; it is modelled bit-exactly with the
    Standard Library's [SpecFloat] at precision 24 and exponent bound 128, so
    that NaN, infinities, signed zeros and rounding behave as on the target.
    The C [int] values of these components stay far inside the 32-bit range
    in every reachable state (temperatures, minutes, seconds of at most four
    hours), so they are plain [Z] with C's truncating division [Z.quot].

    Two conversions are undefined in C on some inputs: [%d] of [sscanf] on
    a number outside [int], and the cast of a [float] to [uint32_t] on NaN
    and on values outside the target's range.  What they give there is a
    parameter of the embedding ([Target.Platform]).

    The tasks of the firmware serialise on one mutex per component; the
    embedding models each critical section, and each scheduler tick, as
    one atomic step. *)

From Stdlib Require Import ZArith List Bool Lia String Ascii.
From Stdlib Require Import Floats.SpecFloat.
Import ListNotations.

Local Open Scope Z_scope.

(* ================================================================== *)
(** * What C leaves to the platform *)
(* ================================================================== *)

Module Target.

Definition INT_MIN : Z := -2147483648.
Definition INT_MAX : Z := 2147483647.
Definition UINT32_MAX : Z := 4294967295.

(** The firmware has two conversions whose result C leaves undefined on
    some inputs: [%d] of [sscanf] when the number written is outside
    [int], and the cast [(uint32_t) x] of a [float] whose integral part is
    no [uint32_t] (NaN, the infinities, -1 and below, 2^32 and above).
    What is stored then is up to the C library and the processor; all the
    embedding knows of it is the type of the variable it ends up in. *)
Class Platform : Type := {
  int_of_overflow : Z -> Z;
  int_of_overflow_range :
    forall v, INT_MIN <= int_of_overflow v <= INT_MAX;
  uint32_of_undefined : spec_float -> Z;
  uint32_of_undefined_range :
    forall x, 0 <= uint32_of_undefined x <= UINT32_MAX
}.

(** Two platforms for worked examples.  On the first, [sscanf] saturates
    a number outside [int] (as a [strtol] over a 32-bit [long] does) and
    the undefined casts give 0. *)
Definition saturating : Platform :=
  {| int_of_overflow := fun v => if v <? 0 then INT_MIN else INT_MAX;
     int_of_overflow_range :=
       fun v =>
         ltac:(cbv beta; destruct (v <? 0); unfold INT_MIN, INT_MAX; lia);
     uint32_of_undefined := fun _ => 0;
     uint32_of_undefined_range := fun _ => ltac:(unfold UINT32_MAX; lia) |}.

(** On the second, [sscanf] keeps the low 32 bits of the number (as a
    [strtol] over a 64-bit [long] followed by the store into an [int]
    does for numbers below 2^63) and the undefined casts give all ones. *)
Definition wrapping : Platform :=
  {| int_of_overflow := fun v => (v - INT_MIN) mod 2 ^ 32 + INT_MIN;
     int_of_overflow_range :=
       fun v =>
         ltac:(cbv beta;
               pose proof (Z.mod_pos_bound (v - INT_MIN) (2 ^ 32) eq_refl);
               unfold INT_MIN, INT_MAX in *;
               change (2 ^ 32) with 4294967296 in *; lia);
     uint32_of_undefined := fun _ => UINT32_MAX;
     uint32_of_undefined_range := fun _ => ltac:(unfold UINT32_MAX; lia) |}.

End Target.

(* ================================================================== *)
(** * IEEE-754 binary32, the C [float] *)
(* ================================================================== *)

Module F32.

Definition prec : Z := 24.
Definition emax : Z := 128.

Definition float32 : Type := spec_float.

(** A well-formed binary32 datum (canonical mantissa, bounded exponent). *)
Definition is_binary32 (x : float32) : bool := valid_binary prec emax x.

Definition add (x y : float32) : float32 := SFadd prec emax x y.
Definition sub (x y : float32) : float32 := SFsub prec emax x y.
Definition mul (x y : float32) : float32 := SFmul prec emax x y.
Definition div (x y : float32) : float32 := SFdiv prec emax x y.
Definition opp (x : float32) : float32 := SFopp x.

(** C comparisons; every one of them is false when an operand is NaN. *)
Definition lt (x y : float32) : bool := SFltb x y.
Definition le (x y : float32) : bool := SFleb x y.
Definition gt (x y : float32) : bool := SFltb y x.
Definition ge (x y : float32) : bool := SFleb y x.
Definition eqb (x y : float32) : bool := SFeqb x y.

Definition nan : float32 := S754_nan.
Definition zero : float32 := S754_zero false.

Definition is_nan (x : float32) : bool :=
  match x with S754_nan => true | _ => false end.

(** [(float) n] for an [int] n: round to nearest, ties to even. *)
Definition of_int (n : Z) : float32 := binary_normalize prec emax n 0 false.

(** A decimal literal [n / d] with [n] and [d] exactly representable: one
    correctly rounded division yields the literal's binary32 value
    (273.15f is [lit 27315 100]). *)
Definition lit (n d : Z) : float32 := div (of_int n) (of_int d).

(** The cast [(uint32_t) x] is defined when the integral part of [x] is a
    [uint32_t]: for zero, for a positive number below 2^32, and for a
    negative number above -1 (whose integral part is 0). *)
Definition to_uint32_defined (x : float32) : bool :=
  match x with
  | S754_zero _ => true
  | S754_finite false m e => Z.shiftl (Zpos m) e <=? Target.UINT32_MAX
  | S754_finite true m e => Z.shiftl (Zpos m) e =? 0
  | _ => false
  end.

(** [(uint32_t) x]: truncation toward zero where the cast is defined, and
    what the platform gives where it is not. *)
Definition to_uint32 {plat : Target.Platform} (x : float32) : Z :=
  if to_uint32_defined x then
    match x with
    | S754_finite false m e => Z.shiftl (Zpos m) e
    | _ => 0
    end
  else Target.uint32_of_undefined x.

Definition is_finite (x : float32) : bool :=
  match x with
  | S754_zero _ | S754_finite _ _ _ => true
  | _ => false
  end.

(** [lo <= x <= hi], as two C comparisons. *)
Definition within (lo hi x : float32) : bool := le lo x && le x hi.

(** The position of a number on the extended real line, as a triple that
    compares lexicographically (both zeros share one position). *)
Definition key (x : float32) : Z * Z * Z :=
  match x with
  | S754_zero _ => (0, 0, 0)
  | S754_infinity true => (-2, 0, 0)
  | S754_infinity false => (2, 0, 0)
  | S754_nan => (0, 0, 0)
  | S754_finite true m e => (-1, - e, - Zpos m)
  | S754_finite false m e => (1, e, Zpos m)
  end.

Definition key_lt (a b : Z * Z * Z) : Prop :=
  let '(r1, e1, m1) := a in
  let '(r2, e2, m2) := b in
  r1 < r2 \/ (r1 = r2 /\ (e1 < e2 \/ (e1 = e2 /\ m1 < m2))).

End F32.

Abbreviation float32 := F32.float32.

(** Proofs treat the arithmetic as a black box; only closed terms are
    evaluated. *)
Arguments F32.add : simpl never.
Arguments F32.sub : simpl never.
Arguments F32.mul : simpl never.
Arguments F32.div : simpl never.
Arguments F32.opp : simpl never.
Arguments F32.lt : simpl never.
Arguments F32.le : simpl never.
Arguments F32.gt : simpl never.
Arguments F32.ge : simpl never.
Arguments F32.eqb : simpl never.
Arguments F32.of_int : simpl never.
Arguments F32.lit : simpl never.
Arguments F32.to_uint32 : simpl never.
Arguments F32.within : simpl never.

(* ================================================================== *)
(** * pid.c *)
(* ================================================================== *)

Module Pid.

Record pid_controller_t : Type := mk_pid {
  kp : float32;
  ki : float32;
  kd : float32;
  setpoint : float32;
  integral : float32;
  prev_error : float32;
  output_min : float32;
  output_max : float32;
  integral_max : float32
}.

Definition pid_init (kp ki kd : float32) : pid_controller_t :=
  {| kp := kp; ki := ki; kd := kd;
     setpoint := F32.zero;
     integral := F32.zero;
     prev_error := F32.zero;
     output_min := F32.zero;
     output_max := F32.of_int 100;
     integral_max := F32.of_int 50 |}.

Definition pid_set_setpoint (pid : pid_controller_t) (sp : float32)
  : pid_controller_t :=
  {| kp := kp pid; ki := ki pid; kd := kd pid;
     setpoint := sp;
     integral := integral pid;
     prev_error := prev_error pid;
     output_min := output_min pid;
     output_max := output_max pid;
     integral_max := integral_max pid |}.

Definition pid_set_output_limits (pid : pid_controller_t) (min max : float32)
  : pid_controller_t :=
  {| kp := kp pid; ki := ki pid; kd := kd pid;
     setpoint := setpoint pid;
     integral := integral pid;
     prev_error := prev_error pid;
     output_min := min;
     output_max := max;
     integral_max := integral_max pid |}.

(** [pid_compute] mutates [*pid] and returns the output: the embedding
    returns the new controller together with the output. *)
Definition pid_compute (pid : pid_controller_t) (current : float32)
  : pid_controller_t * float32 :=
  let error := F32.sub (setpoint pid) current in
  let p_term := F32.mul (kp pid) error in
  let integral0 := F32.add (integral pid) error in
  let integral1 :=
    if F32.gt integral0 (integral_max pid) then integral_max pid
    else if F32.lt integral0 (F32.opp (integral_max pid))
         then F32.opp (integral_max pid)
         else integral0 in
  let i_term := F32.mul (ki pid) integral1 in
  let d_term := F32.mul (kd pid) (F32.sub error (prev_error pid)) in
  let output0 := F32.add (F32.add p_term i_term) d_term in
  let output :=
    if F32.gt output0 (output_max pid) then output_max pid
    else if F32.lt output0 (output_min pid) then output_min pid
         else output0 in
  ({| kp := kp pid; ki := ki pid; kd := kd pid;
      setpoint := setpoint pid;
      integral := integral1;
      prev_error := error;
      output_min := output_min pid;
      output_max := output_max pid;
      integral_max := integral_max pid |},
   output).

Definition pid_reset (pid : pid_controller_t) : pid_controller_t :=
  {| kp := kp pid; ki := ki pid; kd := kd pid;
     setpoint := setpoint pid;
     integral := F32.zero;
     prev_error := F32.zero;
     output_min := output_min pid;
     output_max := output_max pid;
     integral_max := integral_max pid |}.

(** A sequence of [pid_compute] calls on the same controller, one per
    measured value; the outputs are dropped. *)
Definition pid_run (pid : pid_controller_t) (inputs : list float32)
  : pid_controller_t :=
  fold_left (fun p x => fst (pid_compute p x)) inputs pid.

(** The control law in the words of the design document: clamping, and the
    three terms. *)
Definition clamp (x lo hi : float32) : float32 :=
  if F32.gt x hi then hi else if F32.lt x lo then lo else x.

Definition law_error (pid : pid_controller_t) (current : float32) : float32 :=
  F32.sub (setpoint pid) current.

Definition law_integral (pid : pid_controller_t) (current : float32)
  : float32 :=
  clamp (F32.add (integral pid) (law_error pid current))
        (F32.opp (integral_max pid)) (integral_max pid).

Definition law_output (pid : pid_controller_t) (current : float32)
  : float32 :=
  let e := law_error pid current in
  clamp (F32.add (F32.add (F32.mul (kp pid) e)
                          (F32.mul (ki pid) (law_integral pid current)))
                 (F32.mul (kd pid) (F32.sub e (prev_error pid))))
        (output_min pid) (output_max pid).

(** The textbook clamp, lower bound first; it agrees with [clamp] whenever
    the interval is not empty. *)
Definition clamp_lo_first (x lo hi : float32) : float32 :=
  if F32.lt x lo then lo else if F32.gt x hi then hi else x.

(** A controller as [temp_control_init] sets it up (gains 2.0, 0.1, 0.5,
    output limits 0 and 100), with the default target of 55 degrees as
    setpoint. *)
Definition sample_pid : pid_controller_t :=
  pid_set_setpoint
    (pid_set_output_limits
       (pid_init (F32.lit 200 100) (F32.lit 10 100) (F32.lit 50 100))
       (F32.of_int 0) (F32.of_int 100))
    (F32.of_int 55).

End Pid.

(* ================================================================== *)
(** * temp_control.c *)
(* ================================================================== *)

Module TempControl.

Import Pid.

(** The configuration: sdkconfig.h is generated by the build, and
    temp_control.c gives every value it uses a default, taken here. *)
Definition CONFIG_TEMP_MIN : Z := 30.
Definition CONFIG_TEMP_MAX : Z := 90.
Definition CONFIG_TEMP_HARD_LIMIT : Z := 95.

Definition CONFIG_PID_KP : Z := 200.
Definition CONFIG_PID_KI : Z := 10.
Definition CONFIG_PID_KD : Z := 50.

Definition NTC_BETA : float32 := F32.of_int 3950.
Definition NTC_R25 : float32 := F32.of_int 10000.
Definition NTC_SERIES_R : float32 := F32.of_int 10000.
Definition NTC_VREF_MV : float32 := F32.of_int 3300.

(** The value [read_ntc_temperature] returns when the reading is bad:
    [-999.0f]. *)
Definition SENSOR_FAULT_TEMP : float32 := F32.of_int (-999).

Inductive temp_state_t : Type :=
| TEMP_STATE_IDLE
| TEMP_STATE_HEATING
| TEMP_STATE_KEEPING
| TEMP_STATE_ERROR.

Definition temp_state_eqb (a b : temp_state_t) : bool :=
  match a, b with
  | TEMP_STATE_IDLE, TEMP_STATE_IDLE
  | TEMP_STATE_HEATING, TEMP_STATE_HEATING
  | TEMP_STATE_KEEPING, TEMP_STATE_KEEPING
  | TEMP_STATE_ERROR, TEMP_STATE_ERROR => true
  | _, _ => false
  end.

(** What the ADC driver hands back for one conversion: whether
    [adc_oneshot_read] returned [ESP_OK], the raw 12-bit count, and the
    millivolts [adc_cali_raw_to_voltage] computes from it (used only when
    calibration is enabled). *)
Record adc_sample : Type := mk_adc {
  adc_read_ok : bool;
  adc_raw : Z;
  cali_voltage_mv : Z
}.

(** The static variables of temp_control.c, and the duty last written to
    the heater's LEDC channel. *)
Record temp_control : Type := mk_tc {
  s_cali_enabled : bool;
  s_pid : pid_controller_t;
  s_power_on : bool;
  s_target_temp : Z;
  s_current_temp : float32;
  s_is_heating : bool;
  s_state : temp_state_t;
  s_sensor_ok : bool;
  ledc_duty : Z
}.

Section WithPlatform.

Context {plat : Target.Platform}.

(** [set_heater_duty]: the duty written to the 10-bit LEDC channel. *)
Definition set_heater_duty (duty_percent : float32) : Z :=
  let d1 := if F32.lt duty_percent (F32.of_int 0) then F32.of_int 0
            else duty_percent in
  let d2 := if F32.gt d1 (F32.of_int 100) then F32.of_int 100 else d1 in
  F32.to_uint32 (F32.mul d2 (F32.lit 1023 100)).

Section Libm.

(** [logf] of the C library, which is not part of the firmware's sources. *)
Variable logf : float32 -> float32.

(** [read_ntc_temperature]: the new value of [s_sensor_ok] and the
    returned temperature. *)
Definition read_ntc_temperature (cali_enabled : bool) (hw : adc_sample)
  : bool * float32 :=
  if negb (adc_read_ok hw) then (false, SENSOR_FAULT_TEMP)
  else
    let voltage_mv :=
      if cali_enabled then cali_voltage_mv hw
      else Z.quot (adc_raw hw * 3300) 4095 in
    if (voltage_mv <? 100) || (3200 <? voltage_mv)
    then (false, SENSOR_FAULT_TEMP)
    else
      let v_ntc := F32.of_int voltage_mv in
      let r_ntc :=
        F32.div (F32.mul NTC_SERIES_R v_ntc) (F32.sub NTC_VREF_MV v_ntc) in
      let t25_kelvin := F32.add (F32.of_int 25) (F32.lit 27315 100) in
      let temp_kelvin :=
        F32.div (F32.of_int 1)
          (F32.add (F32.div (F32.of_int 1) t25_kelvin)
                   (F32.mul (F32.div (F32.of_int 1) NTC_BETA)
                            (logf (F32.div r_ntc NTC_R25)))) in
      let temp_celsius := F32.sub temp_kelvin (F32.lit 27315 100) in
      (true, temp_celsius).

(** The value of [s_current_temp] that one pass of the control loop
    compares with the hard limit: the fresh reading when it is good, the
    retained one otherwise. *)
Definition measured_temp (hw : adc_sample) (s : temp_control) : float32 :=
  let '(ok, temp) := read_ntc_temperature (s_cali_enabled s) hw in
  if ok then temp else s_current_temp s.

(** One pass of the [while (1)] loop of [temp_control_task]. *)
Definition temp_control_task (hw : adc_sample) (s : temp_control)
  : temp_control :=
  let '(ok, temp) := read_ntc_temperature (s_cali_enabled s) hw in
  let current := if ok then temp else s_current_temp s in
  if F32.ge current (F32.of_int CONFIG_TEMP_HARD_LIMIT) then
    {| s_cali_enabled := s_cali_enabled s;
       s_pid := s_pid s;
       s_power_on := false;
       s_target_temp := s_target_temp s;
       s_current_temp := current;
       s_is_heating := false;
       s_state := TEMP_STATE_IDLE;
       s_sensor_ok := ok;
       ledc_duty := set_heater_duty (F32.of_int 0) |}
  else if negb ok then
    {| s_cali_enabled := s_cali_enabled s;
       s_pid := s_pid s;
       s_power_on := s_power_on s;
       s_target_temp := s_target_temp s;
       s_current_temp := current;
       s_is_heating := false;
       s_state := TEMP_STATE_ERROR;
       s_sensor_ok := ok;
       ledc_duty := set_heater_duty (F32.of_int 0) |}
  else if s_power_on s then
    let pid1 := pid_set_setpoint (s_pid s) (F32.of_int (s_target_temp s)) in
    let '(pid2, output) := pid_compute pid1 current in
    let heating := F32.gt output (F32.of_int 5) in
    {| s_cali_enabled := s_cali_enabled s;
       s_pid := pid2;
       s_power_on := s_power_on s;
       s_target_temp := s_target_temp s;
       s_current_temp := current;
       s_is_heating := heating;
       s_state := if heating then TEMP_STATE_HEATING else TEMP_STATE_KEEPING;
       s_sensor_ok := ok;
       ledc_duty := set_heater_duty output |}
  else
    {| s_cali_enabled := s_cali_enabled s;
       s_pid := pid_reset (s_pid s);
       s_power_on := s_power_on s;
       s_target_temp := s_target_temp s;
       s_current_temp := current;
       s_is_heating := false;
       s_state := TEMP_STATE_IDLE;
       s_sensor_ok := ok;
       ledc_duty := set_heater_duty (F32.of_int 0) |}.

End Libm.

(** [temp_control_init] together with the initialisers of the statics;
    [cali] tells whether the ADC calibration scheme could be created. *)
Definition temp_control_init (cali : bool) : temp_control :=
  let kp := F32.div (F32.of_int CONFIG_PID_KP) (F32.of_int 100) in
  let ki := F32.div (F32.of_int CONFIG_PID_KI) (F32.of_int 100) in
  let kd := F32.div (F32.of_int CONFIG_PID_KD) (F32.of_int 100) in
  {| s_cali_enabled := cali;
     s_pid := pid_set_output_limits (pid_init kp ki kd)
                (F32.of_int 0) (F32.of_int 100);
     s_power_on := false;
     s_target_temp := 55;
     s_current_temp := F32.of_int 25;
     s_is_heating := false;
     s_state := TEMP_STATE_IDLE;
     s_sensor_ok := true;
     ledc_duty := 0 |}.

Definition temp_control_set_power (on : bool) (s : temp_control)
  : temp_control :=
  {| s_cali_enabled := s_cali_enabled s;
     s_pid := if on then s_pid s else pid_reset (s_pid s);
     s_power_on := on;
     s_target_temp := s_target_temp s;
     s_current_temp := s_current_temp s;
     s_is_heating := s_is_heating s;
     s_state := s_state s;
     s_sensor_ok := s_sensor_ok s;
     ledc_duty := if on then ledc_duty s
                  else set_heater_duty (F32.of_int 0) |}.

Definition temp_control_get_power (s : temp_control) : bool := s_power_on s.

Definition temp_control_set_target_temp (temp : Z) (s : temp_control)
  : temp_control :=
  let temp1 := if temp <? CONFIG_TEMP_MIN then CONFIG_TEMP_MIN else temp in
  let temp2 := if CONFIG_TEMP_MAX <? temp1 then CONFIG_TEMP_MAX else temp1 in
  {| s_cali_enabled := s_cali_enabled s;
     s_pid := s_pid s;
     s_power_on := s_power_on s;
     s_target_temp := temp2;
     s_current_temp := s_current_temp s;
     s_is_heating := s_is_heating s;
     s_state := s_state s;
     s_sensor_ok := s_sensor_ok s;
     ledc_duty := ledc_duty s |}.

Definition temp_control_get_target_temp (s : temp_control) : Z :=
  s_target_temp s.
Definition temp_control_get_current_temp (s : temp_control) : float32 :=
  s_current_temp s.
Definition temp_control_is_heating (s : temp_control) : bool :=
  s_is_heating s.
Definition temp_control_get_state (s : temp_control) : temp_state_t :=
  s_state s.
Definition temp_control_is_sensor_ok (s : temp_control) : bool :=
  s_sensor_ok s.

(** What can happen to the module: a pass of the control loop on a fresh
    ADC sample, or a call of one of its two setters (from the HTTP handler
    or from the scheduler).  The getters leave the state alone. *)
Inductive call : Type :=
| Tick (hw : adc_sample)
| SetPower (on : bool)
| SetTargetTemp (temp : Z).

Definition step (logf : float32 -> float32) (c : call) (s : temp_control)
  : temp_control :=
  match c with
  | Tick hw => temp_control_task logf hw s
  | SetPower on => temp_control_set_power on s
  | SetTargetTemp temp => temp_control_set_target_temp temp s
  end.

Definition run (logf : float32 -> float32) (cs : list call) (s : temp_control)
  : temp_control :=
  fold_left (fun s c => step logf c s) cs s.

(** The temperature of a good reading, [None] for a reading flagged bad. *)
Definition valid_reading (logf : float32 -> float32) (cali : bool)
  (hw : adc_sample) : option float32 :=
  let '(ok, temp) := read_ntc_temperature logf cali hw in
  if ok then Some temp else None.

(** The specification's "last valid reading" of a run: the temperature
    of the latest pass of the control loop whose reading was good, looked
    up from the end of the run; [None] when no pass had a good reading. *)
Fixpoint last_valid_reading (logf : float32 -> float32) (cali : bool)
  (cs : list call) : option float32 :=
  match cs with
  | [] => None
  | c :: cs' =>
      match last_valid_reading logf cali cs' with
      | Some temp => Some temp
      | None =>
          match c with
          | Tick hw => valid_reading logf cali hw
          | _ => None
          end
      end
  end.

(** The comparison [s_current_temp >= CONFIG_TEMP_HARD_LIMIT] of the pass
    that reads [hw] in state [s]. *)
Definition hard_limit_reached (logf : float32 -> float32) (hw : adc_sample)
  (s : temp_control) : bool :=
  F32.ge (measured_temp logf hw s) (F32.of_int CONFIG_TEMP_HARD_LIMIT).

(** Every pass of the control loop in the run [cs] from [s] finds the
    temperature at or above the hard limit. *)
Fixpoint stays_at_limit (logf : float32 -> float32) (cs : list call)
  (s : temp_control) : bool :=
  match cs with
  | [] => true
  | c :: cs' =>
      match c with
      | Tick hw => hard_limit_reached logf hw s
      | _ => true
      end && stays_at_limit logf cs' (step logf c s)
  end.

(** The reading of [hw] is flagged bad: [s_sensor_ok] becomes false. *)
Definition sensor_fault (logf : float32 -> float32) (cali : bool)
  (hw : adc_sample) : bool :=
  negb (fst (read_ntc_temperature logf cali hw)).

(** The millivolts [read_ntc_temperature] checks against the band. *)
Definition voltage_mv (cali : bool) (hw : adc_sample) : Z :=
  if cali then cali_voltage_mv hw else Z.quot (adc_raw hw * 3300) 4095.

(** No good reading of the run converts to the fault value -999. *)
Definition readings_plausible (logf : float32 -> float32) (cali : bool)
  (cs : list call) : bool :=
  forallb
    (fun c =>
       match c with
       | Tick hw =>
           let '(ok, temp) := read_ntc_temperature logf cali hw in
           negb ok || negb (F32.eqb temp SENSOR_FAULT_TEMP)
       | _ => true
       end) cs.

(** The two halves of the invariant as the code keeps them. *)
Definition fault_shows_error (s : temp_control) : bool :=
  s_sensor_ok s
  || F32.ge (s_current_temp s) (F32.of_int CONFIG_TEMP_HARD_LIMIT)
  || temp_state_eqb (s_state s) TEMP_STATE_ERROR.

Definition off_shows_idle (s : temp_control) : bool :=
  s_power_on s
  || negb (s_sensor_ok s)
  || temp_state_eqb (s_state s) TEMP_STATE_IDLE.

(** A stand-in for [logf] in worked examples: the constant function at
    the value [logf] takes on the one sample the example reads. *)
Definition logf_const (v : float32) : float32 -> float32 := fun _ => v.

(** 1650 mV, half the reference: the thermistor is at its nominal 10 kOhm,
    the ratio passed to [logf] is exactly 1 and [logf 1 = 0]: 25 degrees. *)
Definition sample_25_degrees : adc_sample :=
  {| adc_read_ok := true; adc_raw := 2048; cali_voltage_mv := 1650 |}.

(** 239 mV: the ratio is 0.078079, whose logarithm is -2.55: 96 degrees. *)
Definition sample_96_degrees : adc_sample :=
  {| adc_read_ok := true; adc_raw := 297; cali_voltage_mv := 239 |}.

(** A failed conversion, and a voltage below the band (shorted sensor). *)
Definition sample_read_error : adc_sample :=
  {| adc_read_ok := false; adc_raw := 0; cali_voltage_mv := 0 |}.

Definition sample_shorted : adc_sample :=
  {| adc_read_ok := true; adc_raw := 40; cali_voltage_mv := 32 |}.

(** [logf] at the two good samples above. *)
Definition logf_at_1650mV : float32 -> float32 := logf_const F32.zero.
Definition logf_at_239mV : float32 -> float32 :=
  logf_const (F32.lit (-255) 100).

(** The invariant of the design document, as a decidable check:
    "mode == ERROR whenever sensor_ok == false; mode == IDLE whenever
    power_on == false". *)
Definition documented_invariant (s : temp_control) : bool :=
  (s_sensor_ok s || temp_state_eqb (s_state s) TEMP_STATE_ERROR)
  && (s_power_on s || temp_state_eqb (s_state s) TEMP_STATE_IDLE).

End WithPlatform.

End TempControl.

(* ================================================================== *)
(** * The C library's string functions used by scheduler.c *)
(* ================================================================== *)

Module CString.

Definition code (c : ascii) : Z := Z.of_N (N_of_ascii c).

(** [isspace] in the C locale: space, and \t \n \v \f \r. *)
Definition isspace (c : ascii) : bool :=
  (code c =? 32) || ((9 <=? code c) && (code c <=? 13)).

Definition isdigit (c : ascii) : bool :=
  (48 <=? code c) && (code c <=? 57).

(** [strlen]: the characters before the first NUL. *)
Fixpoint strlen (s : string) : Z :=
  match s with
  | EmptyString => 0
  | String c s' => if code c =? 0 then 0 else 1 + strlen s'
  end.

Fixpoint skip_spaces (s : string) : string :=
  match s with
  | String c s' => if isspace c then skip_spaces s' else s
  | EmptyString => s
  end.

Fixpoint scan_digits (acc : Z) (s : string) : Z * string :=
  match s with
  | String c s' =>
      if isdigit c then scan_digits (acc * 10 + (code c - 48)) s'
      else (acc, s)
  | EmptyString => (acc, s)
  end.

(** What a [%d] reads: leading white space, an optional sign, one or
    more decimal digits.  The result is the number written and the unread
    rest of the input, or [None] on a matching failure. *)
Definition scan_number (s : string) : option (Z * string) :=
  let s1 := skip_spaces s in
  let '(negative, s2) :=
    match s1 with
    | String "-"%char r => (true, r)
    | String "+"%char r => (false, r)
    | _ => (false, s1)
    end in
  match s2 with
  | String c _ =>
      if isdigit c then
        let '(v, rest) := scan_digits 0 s2 in
        Some (if negative then - v else v, rest)
      else None
  | EmptyString => None
  end.

Section WithPlatform.

Context {plat : Target.Platform}.

(** What [%d] stores in the [int] for the number [v] written: [v] itself
    when it is an [int]; otherwise C leaves the conversion undefined and
    the platform decides. *)
Definition int_conversion (v : Z) : Z :=
  if (Target.INT_MIN <=? v) && (v <=? Target.INT_MAX) then v
  else Target.int_of_overflow v.

(** The conversion [%d]: the [int] stored and the unread rest of the
    input, or [None] on a matching failure. *)
Definition scan_int (s : string) : option (Z * string) :=
  match scan_number s with
  | Some (v, rest) => Some (int_conversion v, rest)
  | None => None
  end.

(** [sscanf(s, "%d:%d", &a, &b) == 2], with the two numbers stored. *)
Definition sscanf_d_colon_d (s : string) : option (Z * Z) :=
  match scan_int s with
  | Some (a, String ":"%char r) =>
      match scan_int r with
      | Some (b, _) => Some (a, b)
      | None => None
      end
  | _ => None
  end.

End WithPlatform.

Definition digit_char (d : Z) : ascii := ascii_of_N (Z.to_N (48 + d)).

(** [%02d] for a number in [0, 99], the only ones scheduler.c prints. *)
Definition fmt_02d (n : Z) : string :=
  String (digit_char (Z.quot n 10))
         (String (digit_char (Z.rem n 10)) EmptyString).

End CString.

(* ================================================================== *)
(** * scheduler.c *)
(* ================================================================== *)

Module Scheduler.

Import TempControl.

Section WithPlatform.

Context {plat : Target.Platform}.

(** The defaults scheduler.c gives the two values it takes from the
    generated sdkconfig.h. *)
Definition CONFIG_MAX_HEATING_TIME_MINUTES : Z := 240.
Definition CONFIG_PREHEAT_TIME_MINUTES : Z := 5.

Inductive scheduler_state_t : Type :=
| SCHED_STATE_IDLE
| SCHED_STATE_TIMER_RUNNING
| SCHED_STATE_SCHEDULED
| SCHED_STATE_TIMEOUT.

Definition scheduler_state_eqb (a b : scheduler_state_t) : bool :=
  match a, b with
  | SCHED_STATE_IDLE, SCHED_STATE_IDLE
  | SCHED_STATE_TIMER_RUNNING, SCHED_STATE_TIMER_RUNNING
  | SCHED_STATE_SCHEDULED, SCHED_STATE_SCHEDULED
  | SCHED_STATE_TIMEOUT, SCHED_STATE_TIMEOUT => true
  | _, _ => false
  end.

(** The static variables of scheduler.c.  [s_timeout_callback] records
    whether a callback is registered (the pointer is not NULL). *)
Record scheduler : Type := mk_sched {
  s_timer_duration : Z;
  s_timer_remaining : Z;
  s_timer_seconds : Z;
  s_timer_running : bool;
  s_schedule_time : string;
  s_schedule_active : bool;
  s_state : scheduler_state_t;
  s_timeout_callback : bool
}.

(** The fields of [rtc_time_t] the scheduler reads. *)
Record rtc_time_t : Type := mk_rtc {
  hour : Z;
  minute : Z
}.

(** The scheduler reads and writes the control loop's power flag, and
    calls the registered timeout callback: its functions act on both
    components, and [timeout_calls] counts the callback's invocations. *)
Record system : Type := mk_system {
  control : temp_control;
  sched : scheduler;
  timeout_calls : nat
}.

Definition parse_schedule_time (time_str : string) : option (Z * Z) :=
  if CString.strlen time_str <? 5 then None
  else
    match CString.sscanf_d_colon_d time_str with
    | Some (h, m) =>
        if (0 <=? h) && (h <=? 23) && (0 <=? m) && (m <=? 59)
        then Some (h, m)
        else None
    | None => None
    end.

(** The countdown block of [scheduler_timer_callback]. *)
Definition countdown (w : system) : system :=
  let sc := sched w in
  if s_timer_running sc && temp_control_get_power (control w) then
    let seconds := s_timer_seconds sc - 1 in
    if seconds <=? 0 then
      {| control := temp_control_set_power false (control w);
         sched :=
           {| s_timer_duration := s_timer_duration sc;
              s_timer_remaining := 0;
              s_timer_seconds := seconds;
              s_timer_running := false;
              s_schedule_time := s_schedule_time sc;
              s_schedule_active := s_schedule_active sc;
              s_state := SCHED_STATE_TIMEOUT;
              s_timeout_callback := s_timeout_callback sc |};
         timeout_calls :=
           if s_timeout_callback sc then S (timeout_calls w)
           else timeout_calls w |}
    else
      {| control := control w;
         sched :=
           {| s_timer_duration := s_timer_duration sc;
              s_timer_remaining := Z.quot (seconds + 59) 60;
              s_timer_seconds := seconds;
              s_timer_running := s_timer_running sc;
              s_schedule_time := s_schedule_time sc;
              s_schedule_active := s_schedule_active sc;
              s_state := s_state sc;
              s_timeout_callback := s_timeout_callback sc |};
         timeout_calls := timeout_calls w |}
  else w.

(** [start_minutes] as the appointment block computes it from the parsed
    schedule. *)
Definition start_minutes (sched_hour sched_minute : Z) : Z :=
  let sched_minutes := sched_hour * 60 + sched_minute in
  let start := sched_minutes - CONFIG_PREHEAT_TIME_MINUTES in
  if start <? 0 then start + 24 * 60 else start.

(** The appointment block of [scheduler_timer_callback]; [now] is what
    [soft_rtc_get_time] stored. *)
Definition appointment (now : rtc_time_t) (w : system) : system :=
  let sc := sched w in
  if s_schedule_active sc && negb (temp_control_get_power (control w)) then
    match parse_schedule_time (s_schedule_time sc) with
    | Some (sched_hour, sched_minute) =>
        let now_minutes := hour now * 60 + minute now in
        if now_minutes =? start_minutes sched_hour sched_minute then
          {| control := temp_control_set_power true (control w);
             sched :=
               {| s_timer_duration := s_timer_duration sc;
                  s_timer_remaining := s_timer_duration sc;
                  s_timer_seconds := s_timer_duration sc * 60;
                  s_timer_running := true;
                  s_schedule_time := s_schedule_time sc;
                  s_schedule_active := false;
                  s_state := SCHED_STATE_TIMER_RUNNING;
                  s_timeout_callback := s_timeout_callback sc |};
             timeout_calls := timeout_calls w |}
        else w
    | None => w
    end
  else w.

(** [scheduler_timer_callback], once it holds the mutex: the countdown
    block, then the appointment block.  A callback that finds the mutex
    taken returns at once; it is no step of the model. *)
Definition scheduler_timer_callback (now : rtc_time_t) (w : system)
  : system :=
  appointment now (countdown w).

Definition with_sched (w : system) (sc : scheduler) : system :=
  {| control := control w; sched := sc; timeout_calls := timeout_calls w |}.

(** [scheduler_init] with the initialisers of the statics, beside a control
    loop in state [tc]. *)
Definition scheduler_init (tc : temp_control) : system :=
  {| control := tc;
     sched :=
       {| s_timer_duration := 60;
          s_timer_remaining := 0;
          s_timer_seconds := 0;
          s_timer_running := false;
          s_schedule_time := EmptyString;
          s_schedule_active := false;
          s_state := SCHED_STATE_IDLE;
          s_timeout_callback := false |};
     timeout_calls := 0 |}.

Definition scheduler_set_timer_duration (minutes : Z) (w : system) : system :=
  let sc := sched w in
  let m1 := if minutes <? 1 then 1 else minutes in
  let m2 := if CONFIG_MAX_HEATING_TIME_MINUTES <? m1
            then CONFIG_MAX_HEATING_TIME_MINUTES else m1 in
  if temp_control_get_power (control w) then
    with_sched w
      {| s_timer_duration := m2;
         s_timer_remaining := m2;
         s_timer_seconds := m2 * 60;
         s_timer_running := true;
         s_schedule_time := s_schedule_time sc;
         s_schedule_active := s_schedule_active sc;
         s_state := SCHED_STATE_TIMER_RUNNING;
         s_timeout_callback := s_timeout_callback sc |}
  else
    with_sched w
      {| s_timer_duration := m2;
         s_timer_remaining := s_timer_remaining sc;
         s_timer_seconds := s_timer_seconds sc;
         s_timer_running := s_timer_running sc;
         s_schedule_time := s_schedule_time sc;
         s_schedule_active := s_schedule_active sc;
         s_state := s_state sc;
         s_timeout_callback := s_timeout_callback sc |}.

Definition scheduler_get_timer_remaining (w : system) : Z :=
  s_timer_remaining (sched w).

(** [time_str] is a C pointer: [None] is NULL. *)
Definition scheduler_set_schedule_time (time_str : option string)
  (w : system) : system :=
  match time_str with
  | None => w
  | Some str =>
      match parse_schedule_time str with
      | None => w
      | Some (h, m) =>
          let sc := sched w in
          with_sched w
            {| s_timer_duration := s_timer_duration sc;
               s_timer_remaining := s_timer_remaining sc;
               s_timer_seconds := s_timer_seconds sc;
               s_timer_running := s_timer_running sc;
               s_schedule_time :=
                 (CString.fmt_02d h ++ ":" ++ CString.fmt_02d m)%string;
               s_schedule_active := true;
               s_state := SCHED_STATE_SCHEDULED;
               s_timeout_callback := s_timeout_callback sc |}
      end
  end.

Definition scheduler_get_schedule_time (w : system) : string :=
  s_schedule_time (sched w).

Definition scheduler_cancel_schedule (w : system) : system :=
  let sc := sched w in
  with_sched w
    {| s_timer_duration := s_timer_duration sc;
       s_timer_remaining := s_timer_remaining sc;
       s_timer_seconds := s_timer_seconds sc;
       s_timer_running := s_timer_running sc;
       s_schedule_time := EmptyString;
       s_schedule_active := false;
       s_state := match s_state sc with
                  | SCHED_STATE_SCHEDULED => SCHED_STATE_IDLE
                  | st => st
                  end;
       s_timeout_callback := s_timeout_callback sc |}.

Definition scheduler_start_timer (w : system) : system :=
  let sc := sched w in
  with_sched w
    {| s_timer_duration := s_timer_duration sc;
       s_timer_remaining := s_timer_duration sc;
       s_timer_seconds := s_timer_duration sc * 60;
       s_timer_running := true;
       s_schedule_time := s_schedule_time sc;
       s_schedule_active := s_schedule_active sc;
       s_state := SCHED_STATE_TIMER_RUNNING;
       s_timeout_callback := s_timeout_callback sc |}.

Definition scheduler_stop_timer (w : system) : system :=
  let sc := sched w in
  with_sched w
    {| s_timer_duration := s_timer_duration sc;
       s_timer_remaining := 0;
       s_timer_seconds := 0;
       s_timer_running := false;
       s_schedule_time := s_schedule_time sc;
       s_schedule_active := s_schedule_active sc;
       s_state := match s_state sc with
                  | SCHED_STATE_TIMER_RUNNING | SCHED_STATE_TIMEOUT =>
                      SCHED_STATE_IDLE
                  | st => st
                  end;
       s_timeout_callback := s_timeout_callback sc |}.

Definition scheduler_get_state (w : system) : scheduler_state_t :=
  s_state (sched w).

(** [registered] tells whether the pointer passed is not NULL. *)
Definition scheduler_set_timeout_callback (registered : bool) (w : system)
  : system :=
  let sc := sched w in
  with_sched w
    {| s_timer_duration := s_timer_duration sc;
       s_timer_remaining := s_timer_remaining sc;
       s_timer_seconds := s_timer_seconds sc;
       s_timer_running := s_timer_running sc;
       s_schedule_time := s_schedule_time sc;
       s_schedule_active := s_schedule_active sc;
       s_state := s_state sc;
       s_timeout_callback := registered |}.

(** The appointment check in the words of the design document: the
    schedule is active, its time parses, and the clock's minute of the day
    equals the scheduled minute less the preheat lead, wrapped into
    [0, 1440). *)
Definition armed_for (now : rtc_time_t) (sc : scheduler) : bool :=
  s_schedule_active sc &&
  match parse_schedule_time (s_schedule_time sc) with
  | Some (h, m) =>
      hour now * 60 + minute now
      =? (h * 60 + m - CONFIG_PREHEAT_TIME_MINUTES) mod 1440
  | None => false
  end.

Definition appointment_due (now : rtc_time_t) (w : system) : bool :=
  armed_for now (sched w) && negb (temp_control_get_power (control w)).

(** What a trigger does: power on, schedule disarmed, countdown started
    with the configured duration, state TIMER_RUNNING. *)
Definition trigger (w : system) : system :=
  {| control := temp_control_set_power true (control w);
     sched :=
       {| s_timer_duration := s_timer_duration (sched w);
          s_timer_remaining := s_timer_duration (sched w);
          s_timer_seconds := s_timer_duration (sched w) * 60;
          s_timer_running := true;
          s_schedule_time := s_schedule_time (sched w);
          s_schedule_active := false;
          s_state := SCHED_STATE_TIMER_RUNNING;
          s_timeout_callback := s_timeout_callback (sched w) |};
     timeout_calls := timeout_calls w |}.

(** Consecutive scheduler ticks, one per clock reading, with nothing else
    happening in between. *)
Definition ticks (nows : list rtc_time_t) (w : system) : system :=
  fold_left (fun w now => scheduler_timer_callback now w) nows w.

(** The specification's reading of a time string: the two numbers
    written in it with a colon in between, as numbers of any size (where
    [sscanf] has to fit each into an [int]). *)
Definition written_time (time_str : string) : option (Z * Z) :=
  match CString.scan_number time_str with
  | Some (h, String ":"%char r) =>
      match CString.scan_number r with
      | Some (m, _) => Some (h, m)
      | None => None
      end
  | _ => None
  end.

(** The string parses as a valid time: 0 <= HH <= 23 and 0 <= MM <= 59. *)
Definition parses_as_valid_time (time_str : string) : bool :=
  match written_time time_str with
  | Some (h, m) => (0 <=? h) && (h <=? 23) && (0 <=? m) && (m <=? 59)
  | None => false
  end.

(** The numbers that [sscanf] with ["%d:%d"] converts on the string: the
    first one if there is one, and the second if a colon and a number
    follow. *)
Definition converted_numbers (time_str : string) : list Z :=
  match CString.scan_number time_str with
  | Some (h, String ":"%char r) =>
      match CString.scan_number r with
      | Some (m, _) => [h; m]
      | None => [h]
      end
  | Some (h, _) => [h]
  | None => []
  end.

(** Every number converted is an [int]: no conversion is undefined. *)
Definition numbers_fit_int (time_str : string) : bool :=
  forallb (fun v => (Target.INT_MIN <=? v) && (v <=? Target.INT_MAX))
    (converted_numbers time_str).

(** What can happen to the two components: a scheduler tick that got the
    mutex, anything of the control loop, or a call of a scheduler
    function from the HTTP handler or from [app_main]. *)
Inductive event : Type :=
| SchedulerTick (now : rtc_time_t)
| Control (c : call)
| SetTimerDuration (minutes : Z)
| SetScheduleTime (time_str : option string)
| CancelSchedule
| StartTimer
| StopTimer
| SetTimeoutCallback (registered : bool).

Definition apply_event (logf : float32 -> float32) (e : event) (w : system)
  : system :=
  match e with
  | SchedulerTick now => scheduler_timer_callback now w
  | Control c =>
      {| control := step logf c (control w);
         sched := sched w;
         timeout_calls := timeout_calls w |}
  | SetTimerDuration minutes => scheduler_set_timer_duration minutes w
  | SetScheduleTime time_str => scheduler_set_schedule_time time_str w
  | CancelSchedule => scheduler_cancel_schedule w
  | StartTimer => scheduler_start_timer w
  | StopTimer => scheduler_stop_timer w
  | SetTimeoutCallback registered =>
      scheduler_set_timeout_callback registered w
  end.

Definition run_events (logf : float32 -> float32) (es : list event)
  (w : system) : system :=
  fold_left (fun w e => apply_event logf e w) es w.

(** The system as [app_main] leaves it: both components initialised and
    the timeout handler registered. *)
Definition startup (cali : bool) : system :=
  scheduler_set_timeout_callback true
    (scheduler_init (temp_control_init cali)).

(** The event does not arm the schedule. *)
Definition keeps_disarmed (e : event) : bool :=
  match e with
  | SetScheduleTime _ => false
  | _ => true
  end.

Definition at_time (h m : Z) : rtc_time_t := {| hour := h; minute := m |}.

(** The running countdown after [k] ticks under power, short of expiry. *)
Definition counted_down (w0 : system) (k : Z) (w : system) : Prop :=
  control w = control w0 /\
  timeout_calls w = timeout_calls w0 /\
  s_timer_duration (sched w) = s_timer_duration (sched w0) /\
  s_timer_seconds (sched w) = s_timer_seconds (sched w0) - k /\
  s_timer_running (sched w) = true /\
  s_schedule_time (sched w) = s_schedule_time (sched w0) /\
  s_schedule_active (sched w) = s_schedule_active (sched w0) /\
  s_state (sched w) = s_state (sched w0) /\
  s_timeout_callback (sched w) = s_timeout_callback (sched w0) /\
  (0 < k ->
   s_timer_remaining (sched w)
   = Z.quot (s_timer_seconds (sched w0) - k + 59) 60).

(** Minutes and seconds of every reachable scheduler state stay within
    four hours, far inside the range of the C [int] they live in; a
    running timer has at least one second left. *)
Definition sched_in_range (sc : scheduler) : Prop :=
  1 <= s_timer_duration sc <= CONFIG_MAX_HEATING_TIME_MINUTES /\
  0 <= s_timer_seconds sc <= CONFIG_MAX_HEATING_TIME_MINUTES * 60 /\
  0 <= s_timer_remaining sc <= CONFIG_MAX_HEATING_TIME_MINUTES /\
  (s_timer_running sc = true -> 1 <= s_timer_seconds sc).

End WithPlatform.

End Scheduler.

(* ================================================================== *)
(** * Checks on the state of the control loop *)
(* ================================================================== *)

Module ControlChecks.

Import Pid TempControl.

Section WithPlatform.

Context {plat : Target.Platform}.

Definition at_hard_limit (s : temp_control) : bool :=
  F32.ge (s_current_temp s) (F32.of_int CONFIG_TEMP_HARD_LIMIT).

(** The LEDC channel carries a duty only while power is on, the sensor is
    good and the temperature is below the hard limit. *)
Definition heater_interlocked (s : temp_control) : bool :=
  (ledc_duty s =? 0)
  || (s_power_on s && s_sensor_ok s && negb (at_hard_limit s)).

(** What each mode says about the flags beside it. *)
Definition mode_consistent (s : temp_control) : bool :=
  match s_state s with
  | TEMP_STATE_IDLE => negb (s_is_heating s)
  | TEMP_STATE_HEATING =>
      s_is_heating s && s_sensor_ok s && negb (at_hard_limit s)
  | TEMP_STATE_KEEPING =>
      negb (s_is_heating s) && s_sensor_ok s && negb (at_hard_limit s)
  | TEMP_STATE_ERROR =>
      negb (s_is_heating s) && negb (s_sensor_ok s)
      && negb (at_hard_limit s)
  end.

(** No good reading of the run is NaN. *)
Definition readings_numeric (logf : float32 -> float32) (cali : bool)
  (cs : list call) : bool :=
  forallb
    (fun c =>
       match c with
       | Tick hw =>
           let '(ok, temp) := read_ntc_temperature logf cali hw in
           negb ok || negb (F32.is_nan temp)
       | _ => true
       end) cs.

(** The controller keeps the configuration [temp_control_init] gave it,
    its setpoint is finite, and its accumulator is a finite number within
    the anti-windup bound of 50. *)
Definition pid_configured (p : pid_controller_t) : Prop :=
  kp p = F32.div (F32.of_int CONFIG_PID_KP) (F32.of_int 100) /\
  ki p = F32.div (F32.of_int CONFIG_PID_KI) (F32.of_int 100) /\
  kd p = F32.div (F32.of_int CONFIG_PID_KD) (F32.of_int 100) /\
  output_min p = F32.of_int 0 /\
  output_max p = F32.of_int 100 /\
  integral_max p = F32.of_int 50 /\
  F32.is_finite (setpoint p) = true /\
  F32.is_finite (integral p) = true /\
  F32.within (F32.of_int (-50)) (F32.of_int 50) (integral p) = true.

(** The number [set_heater_duty] casts to [uint32_t]: the argument after
    the two clamping tests, times [10.23f]. *)
Definition heater_duty_float (duty_percent : float32) : float32 :=
  let d1 := if F32.lt duty_percent (F32.of_int 0) then F32.of_int 0
            else duty_percent in
  let d2 := if F32.gt d1 (F32.of_int 100) then F32.of_int 100 else d1 in
  F32.mul d2 (F32.lit 1023 100).

(** A mantissa and exponent whose value is below 1024, with a negative
    exponent. *)
Definition below_1024 (m e : Z) : Prop := e < 0 /\ 0 <= m < 2 ^ (10 - e).

(** The argument [r_ntc / NTC_R25] that [read_ntc_temperature] hands to
    [logf] at [voltage_mv] millivolts. *)
Definition ntc_ratio (voltage_mv : Z) : float32 :=
  let v_ntc := F32.of_int voltage_mv in
  let r_ntc :=
    F32.div (F32.mul NTC_SERIES_R v_ntc) (F32.sub NTC_VREF_MV v_ntc) in
  F32.div r_ntc NTC_R25.

(** The degrees Celsius it computes from the logarithm [l]. *)
Definition ntc_celsius (l : float32) : float32 :=
  let t25_kelvin := F32.add (F32.of_int 25) (F32.lit 27315 100) in
  let temp_kelvin :=
    F32.div (F32.of_int 1)
      (F32.add (F32.div (F32.of_int 1) t25_kelvin)
               (F32.mul (F32.div (F32.of_int 1) NTC_BETA) l)) in
  F32.sub temp_kelvin (F32.lit 27315 100).

End WithPlatform.

End ControlChecks.

(* ================================================================== *)
(** * Checks on the state of the scheduler *)
(* ================================================================== *)

Module SchedulerChecks.

Import TempControl Scheduler.

Section WithPlatform.

Context {plat : Target.Platform}.

(** The minutes shown are the seconds left, rounded up. *)
Definition remaining_is_ceiling (sc : scheduler) : Prop :=
  60 * (s_timer_remaining sc - 1) < s_timer_seconds sc
  /\ s_timer_seconds sc <= 60 * s_timer_remaining sc.

(** What each state of the scheduler says about the timer and the
    schedule, and what an active schedule says about the stored time. *)
Definition sched_consistent (sc : scheduler) : Prop :=
  (s_state sc = SCHED_STATE_TIMER_RUNNING -> s_timer_running sc = true) /\
  (s_state sc = SCHED_STATE_TIMEOUT ->
   s_timer_running sc = false /\ s_timer_seconds sc = 0) /\
  (s_state sc = SCHED_STATE_SCHEDULED -> s_schedule_active sc = true) /\
  (s_schedule_active sc = true ->
   exists h m,
     0 <= h <= 23 /\ 0 <= m <= 59 /\
     s_schedule_time sc
     = (CString.fmt_02d h ++ ":" ++ CString.fmt_02d m)%string /\
     parse_schedule_time (s_schedule_time sc) = Some (h, m)).

(** The ranges of the timer's integers together with the rounding of the
    minutes shown, and together with the consistency of the states. *)
Definition timer_invariant (w : system) : Prop :=
  sched_in_range (sched w) /\ remaining_is_ceiling (sched w).

Definition state_invariant (w : system) : Prop :=
  sched_in_range (sched w) /\ sched_consistent (sched w).

(** The event is neither a request for power nor an arming of the
    schedule. *)
Definition no_power_request (e : event) : bool :=
  match e with
  | Control (SetPower true) => false
  | SetScheduleTime _ => false
  | _ => true
  end.

End WithPlatform.

End SchedulerChecks.

(* ================================================================== *)
(** * The C library's formatted input and output used by the clock *)
(* ================================================================== *)

Module CStdio.

Import CString.

(** [%04d] for a number in [0, 9999]. *)
Definition fmt_04d (n : Z) : string :=
  String (digit_char (Z.quot n 1000))
    (String (digit_char (Z.rem (Z.quot n 100) 10))
       (String (digit_char (Z.rem (Z.quot n 10) 10))
          (String (digit_char (Z.rem n 10)) EmptyString))).

(** What [snprintf] leaves in a buffer of [size] bytes, [size >= 1]: the
    first [size - 1] characters of the output (and a NUL). *)
Definition snprintf (size : Z) (out : string) : string :=
  substring 0 (Z.to_nat (size - 1)) out.

Section WithPlatform.

Context {plat : Target.Platform}.

(** [sscanf(s, "%d-%d-%d %d:%d:%d", ...) == 6], with the six numbers
    stored.  The blank of the format stands for any white space, none
    included, which the [%d] after it skips anyway. *)
Definition sscanf_date_time (s : string)
  : option (Z * Z * Z * Z * Z * Z) :=
  match scan_int s with
  | Some (year, String "-"%char r1) =>
  match scan_int r1 with
  | Some (month, String "-"%char r2) =>
  match scan_int r2 with
  | Some (day, r3) =>
  match scan_int (skip_spaces r3) with
  | Some (hour, String ":"%char r4) =>
  match scan_int r4 with
  | Some (minute, String ":"%char r5) =>
  match scan_int r5 with
  | Some (second, _) => Some (year, month, day, hour, minute, second)
  | None => None
  end
  | _ => None
  end
  | _ => None
  end
  | None => None
  end
  | _ => None
  end
  | _ => None
  end.

End WithPlatform.

(** The next character to read, if any, is no digit. *)
Definition no_digit_ahead (s : string) : Prop :=
  match s with
  | String c _ => isdigit c = false
  | EmptyString => True
  end.

End CStdio.


(* ================================================================== *)
(** * soft_rtc.c *)
(* ================================================================== *)

Module SoftRtc.

(** The clock's record, all seven fields. *)
Record rtc_time_t : Type := mk_time {
  year : Z;
  month : Z;
  day : Z;
  hour : Z;
  minute : Z;
  second : Z;
  weekday : Z
}.

(** The initialiser of [s_current_time]: Wednesday 2025-01-01 00:00:00. *)
Definition s_current_time_init : rtc_time_t :=
  {| year := 2025; month := 1; day := 1;
     hour := 0; minute := 0; second := 0; weekday := 3 |}.

Definition is_leap_year (year : Z) : bool :=
  ((Z.rem year 4 =? 0) && negb (Z.rem year 100 =? 0))
  || (Z.rem year 400 =? 0).

(** The table [days] of [days_in_month], indexed by the month. *)
Definition days : list Z :=
  [0; 31; 28; 31; 30; 31; 30; 31; 31; 30; 31; 30; 31].

(** [days_in_month]; [None] stands for a read outside the table, which C
    leaves undefined. *)
Definition days_in_month (year month : Z) : option Z :=
  if (month =? 2) && is_leap_year year then Some 29
  else if (0 <=? month) && (month <=? 12)
       then nth_error days (Z.to_nat month)
       else None.

(** [x++] on an [int]; [None] stands for the overflow at [INT_MAX],
    which C leaves undefined. *)
Definition INT_MAX : Z := 2147483647.

Definition incr (x : Z) : option Z :=
  if x <? INT_MAX then Some (x + 1) else None.

(** [rtc_timer_callback], once it holds the mutex: one second passes.
    [None] when the pass overflows a field or reads outside the table of
    month lengths. *)
Definition rtc_timer_callback (t : rtc_time_t) : option rtc_time_t :=
  match incr (second t) with
  | None => None
  | Some second1 =>
  if 60 <=? second1 then
    match incr (minute t) with
    | None => None
    | Some minute1 =>
    if 60 <=? minute1 then
      match incr (hour t) with
      | None => None
      | Some hour1 =>
      if 24 <=? hour1 then
        match incr (day t), incr (weekday t) with
        | Some day1, Some weekday1 =>
            let weekday2 := if 7 <? weekday1 then 1 else weekday1 in
            match days_in_month (year t) (month t) with
            | None => None
            | Some len =>
                if len <? day1 then
                  match incr (month t) with
                  | None => None
                  | Some month1 =>
                  if 12 <? month1 then
                    match incr (year t) with
                    | None => None
                    | Some year1 =>
                        Some {| year := year1; month := 1; day := 1;
                                hour := 0; minute := 0; second := 0;
                                weekday := weekday2 |}
                    end
                  else
                    Some {| year := year t; month := month1; day := 1;
                            hour := 0; minute := 0; second := 0;
                            weekday := weekday2 |}
                  end
                else
                  Some {| year := year t; month := month t; day := day1;
                          hour := 0; minute := 0; second := 0;
                          weekday := weekday2 |}
            end
        | _, _ => None
        end
      else
        Some {| year := year t; month := month t; day := day t;
                hour := hour1; minute := 0; second := 0;
                weekday := weekday t |}
      end
    else
      Some {| year := year t; month := month t; day := day t;
              hour := hour t; minute := minute1; second := 0;
              weekday := weekday t |}
    end
  else
    Some {| year := year t; month := month t; day := day t;
            hour := hour t; minute := minute t; second := second1;
            weekday := weekday t |}
  end.

(** [soft_rtc_set_time] with the mutex obtained: the new value of
    [s_current_time].  [None] is the NULL pointer (ESP_ERR_INVALID_ARG,
    nothing stored). *)
Definition soft_rtc_set_time (time : option rtc_time_t) (cur : rtc_time_t)
  : rtc_time_t :=
  match time with
  | None => cur
  | Some t =>
      if (weekday t <? 1) || (7 <? weekday t) then
        {| year := year t; month := month t; day := day t;
           hour := hour t; minute := minute t; second := second t;
           weekday := 1 |}
      else t
  end.

Definition soft_rtc_get_time (cur : rtc_time_t) : rtc_time_t := cur.

(** [soft_rtc_get_time_string] into a buffer that is not NULL, for fields
    in the ranges [fmt_02d] and [fmt_04d] print: what the buffer holds
    afterwards, [None] when it is left untouched. *)
Definition soft_rtc_get_time_string (buf_size format : Z)
  (cur : rtc_time_t) : option string :=
  if buf_size <? 6 then None
  else
    let t := soft_rtc_get_time cur in
    let hh_mm :=
      (CString.fmt_02d (hour t) ++ ":" ++ CString.fmt_02d (minute t))%string
    in
    let hh_mm_ss := (hh_mm ++ ":" ++ CString.fmt_02d (second t))%string in
    if format =? 0 then Some (CStdio.snprintf buf_size hh_mm)
    else if format =? 1 then Some (CStdio.snprintf buf_size hh_mm_ss)
    else if format =? 2 then
      Some (CStdio.snprintf buf_size
              (CStdio.fmt_04d (year t) ++ "-"
               ++ CString.fmt_02d (month t) ++ "-"
               ++ CString.fmt_02d (day t) ++ " " ++ hh_mm_ss)%string)
    else Some (CStdio.snprintf buf_size hh_mm).

(** [n] consecutive callbacks. *)
Fixpoint rtc_run (n : nat) (t : rtc_time_t) : option rtc_time_t :=
  match n with
  | O => Some t
  | S n' =>
      match rtc_timer_callback t with
      | Some t' => rtc_run n' t'
      | None => None
      end
  end.

(** A time of the calendar: every field in its range, the day within the
    month. *)
Definition valid_time (t : rtc_time_t) : bool :=
  (0 <=? second t) && (second t <? 60)
  && (0 <=? minute t) && (minute t <? 60)
  && (0 <=? hour t) && (hour t <? 24)
  && (1 <=? month t) && (month t <=? 12)
  && (1 <=? day t)
  && match days_in_month (year t) (month t) with
     | Some len => day t <=? len
     | None => false
     end
  && (1 <=? weekday t) && (weekday t <=? 7).

Definition second_of_day (t : rtc_time_t) : Z :=
  hour t * 3600 + minute t * 60 + second t.

(** The date as one number that grows with the calendar (a day of the
    month is at most 31, a month at most 12). *)
Definition date_rank (t : rtc_time_t) : Z :=
  (year t * 13 + month t) * 32 + day t.

End SoftRtc.

(* ================================================================== *)
(** * The clock and the scheduler side by side *)
(* ================================================================== *)

Module Clocked.

Import TempControl Scheduler.

Section WithPlatform.

Context {plat : Target.Platform}.

(** What [scheduler_timer_callback] takes from [soft_rtc_get_time]. *)
Definition clock_reading (t : SoftRtc.rtc_time_t) : rtc_time_t :=
  {| hour := SoftRtc.hour (SoftRtc.soft_rtc_get_time t);
     minute := SoftRtc.minute (SoftRtc.soft_rtc_get_time t) |}.

(** One second in which both one-second timers fire and obtain their
    mutexes, the clock's first, and nothing else happens. *)
Definition second_pass (st : SoftRtc.rtc_time_t * system)
  : option (SoftRtc.rtc_time_t * system) :=
  match SoftRtc.rtc_timer_callback (fst st) with
  | Some t' =>
      Some (t', scheduler_timer_callback (clock_reading t') (snd st))
  | None => None
  end.

Fixpoint seconds (n : nat) (st : SoftRtc.rtc_time_t * system)
  : option (SoftRtc.rtc_time_t * system) :=
  match n with
  | O => Some st
  | S n' =>
      match second_pass st with
      | Some st' => seconds n' st'
      | None => None
      end
  end.

(** The appointment is due at the clock reading [k] seconds from [t]. *)
Definition due_after (t : SoftRtc.rtc_time_t) (w : system) (k : nat)
  : bool :=
  match SoftRtc.rtc_run k t with
  | Some tk => appointment_due (clock_reading tk) w
  | None => false
  end.

End WithPlatform.

End Clocked.

(* ================================================================== *)
(** * http_server.c *)
(* ================================================================== *)

Module HttpServer.

Import TempControl Scheduler.

Section WithPlatform.

Context {plat : Target.Platform}.

(** The items of a /control request that the handler looks at: [Some]
    when the item is present with the JSON type the handler asks for, a
    number as its [valueint]. *)
Record control_request : Type := mk_control_request {
  power_item : option Z;
  temp_item : option Z;
  timer_item : option Z;
  schedule_item : option string
}.

Definition with_control (w : system) (tc : temp_control) : system :=
  {| control := tc; sched := sched w; timeout_calls := timeout_calls w |}.

(** [control_post_handler] once the body is read: the system afterwards,
    and whether the answer is the ok result.  [None] is a body that
    [cJSON_Parse] rejects. *)
Definition control_post_handler (root : option control_request)
  (w : system) : system * bool :=
  match root with
  | None => (w, false)
  | Some r =>
      let w1 :=
        match power_item r with
        | Some v =>
            let power_on := negb (v =? 0) in
            with_control w (temp_control_set_power power_on (control w))
        | None => w
        end in
      let w2 :=
        match temp_item r with
        | Some set_temp =>
            with_control w1
              (temp_control_set_target_temp set_temp (control w1))
        | None => w1
        end in
      let w3 :=
        match timer_item r with
        | Some duration => scheduler_set_timer_duration duration w2
        | None => w2
        end in
      let w4 :=
        match schedule_item r with
        | Some str => scheduler_set_schedule_time (Some str) w3
        | None => w3
        end in
      (w4, true)
  end.

(** The same items as calls of the two components, in the handler's
    order. *)
Definition request_events (r : control_request) : list event :=
  match power_item r with
  | Some v => [Control (SetPower (negb (v =? 0)))]
  | None => []
  end
  ++ match temp_item r with
     | Some set_temp => [Control (SetTargetTemp set_temp)]
     | None => []
     end
  ++ match timer_item r with
     | Some duration => [SetTimerDuration duration]
     | None => []
     end
  ++ match schedule_item r with
     | Some str => [SetScheduleTime (Some str)]
     | None => []
     end.

(** The items of a /sync_time request. *)
Record sync_request : Type := mk_sync_request {
  time_item : option string;
  weekday_item : option Z
}.

(** [sync_time_post_handler] once the body is read: the clock afterwards,
    and whether the answer is the ok result. *)
Definition sync_time_post_handler (root : option sync_request)
  (cur : SoftRtc.rtc_time_t) : SoftRtc.rtc_time_t * bool :=
  match root with
  | None => (cur, false)
  | Some r =>
      match time_item r with
      | None => (cur, false)
      | Some time_str =>
          let weekday :=
            match weekday_item r with
            | Some v => if (v <? 1) || (7 <? v) then 1 else v
            | None => 1
            end in
          match CStdio.sscanf_date_time time_str with
          | Some (year, month, day, hour, minute, second) =>
              (SoftRtc.soft_rtc_set_time
                 (Some (SoftRtc.mk_time year month day hour minute second
                          weekday)) cur,
               true)
          | None => (cur, false)
          end
      end
  end.

(** The fields are in the ranges the clock's prints are modelled for. *)
Definition printable (t : SoftRtc.rtc_time_t) : bool :=
  (0 <=? SoftRtc.year t) && (SoftRtc.year t <=? 9999)
  && (0 <=? SoftRtc.month t) && (SoftRtc.month t <=? 99)
  && (0 <=? SoftRtc.day t) && (SoftRtc.day t <=? 99)
  && (0 <=? SoftRtc.hour t) && (SoftRtc.hour t <=? 99)
  && (0 <=? SoftRtc.minute t) && (SoftRtc.minute t <=? 99)
  && (0 <=? SoftRtc.second t) && (SoftRtc.second t <=? 99).

End WithPlatform.

End HttpServer.

(* ================================================================== *)
(** * Facts about binary32 comparisons *)
(* ================================================================== *)

Module F32Facts.

Import F32.

Lemma SFcompare_antisym (x y : spec_float) :
  SFcompare y x = option_map CompOpp (SFcompare x y).
Proof.
  destruct x as [sx|sx| |sx mx ex], y as [sy|sy| |sy my ey]; simpl;
    try reflexivity;
    try (destruct sx; reflexivity);
    try (destruct sy; reflexivity);
    try (destruct sx, sy; reflexivity).
  f_equal.
  change (Pos.compare_cont Eq my mx) with (Pos.compare my mx).
  change (Pos.compare_cont Eq mx my) with (Pos.compare mx my).
  rewrite (Z.compare_antisym ex ey), (Pos.compare_antisym mx my).
  destruct sx, sy; try reflexivity;
    destruct (ex ?= ey); simpl; try reflexivity;
    destruct (mx ?= my)%positive; reflexivity.
Qed.

Lemma SFcompare_refl (x : spec_float) :
  is_nan x = false -> SFcompare x x = Some Eq.
Proof.
  destruct x as [s|s| |s m e]; simpl; intros H; try discriminate;
    try (destruct s; reflexivity).
  rewrite Z.compare_refl.
  change (Pos.compare_cont Eq m m) with (Pos.compare m m).
  rewrite Pos.compare_refl. destruct s; reflexivity.
Qed.

Lemma SFcompare_some (x y : spec_float) :
  is_nan x = false -> is_nan y = false -> exists c, SFcompare x y = Some c.
Proof.
  destruct x as [sx|sx| |sx mx ex], y as [sy|sy| |sy my ey]; simpl;
    intros Hx Hy; try discriminate; eauto.
Qed.

(** A comparison that holds has no NaN operand. *)
Lemma le_not_nan (x y : float32) :
  le x y = true -> is_nan x = false /\ is_nan y = false.
Proof.
  unfold le, SFleb.
  destruct x as [sx|sx| |sx mx ex], y as [sy|sy| |sy my ey]; simpl;
    intros H; try discriminate; auto.
Qed.

Lemma lt_not_nan (x y : float32) :
  lt x y = true -> is_nan x = false /\ is_nan y = false.
Proof.
  unfold lt, SFltb.
  destruct x as [sx|sx| |sx mx ex], y as [sy|sy| |sy my ey]; simpl;
    intros H; try discriminate; auto.
Qed.

Lemma le_refl (x : float32) : is_nan x = false -> le x x = true.
Proof.
  intros H. unfold le, SFleb. now rewrite SFcompare_refl.
Qed.

(** On numbers the order is total: what is not greater is at most. *)
Lemma not_gt_le (x y : float32) :
  is_nan x = false -> is_nan y = false -> gt x y = false -> le x y = true.
Proof.
  intros Hx Hy. unfold gt, le, SFltb, SFleb.
  rewrite (SFcompare_antisym x y).
  destruct (SFcompare_some x y Hx Hy) as [c ->].
  destruct c; simpl; congruence.
Qed.

Lemma not_lt_ge (x y : float32) :
  is_nan x = false -> is_nan y = false -> lt x y = false -> le y x = true.
Proof.
  intros Hx Hy. unfold lt, le, SFltb, SFleb.
  rewrite (SFcompare_antisym x y).
  destruct (SFcompare_some x y Hx Hy) as [c ->].
  destruct c; simpl; congruence.
Qed.

Lemma is_nan_opp (x : float32) : is_nan (opp x) = is_nan x.
Proof. now destruct x. Qed.

(** A bound that is not negative dominates its own opposite. *)
Lemma opp_le_of_nonneg (m : float32) :
  ge m zero = true -> le (opp m) m = true.
Proof.
  unfold ge, le, SFleb, zero.
  destruct m as [s|s| |s mm e]; simpl; try discriminate;
    destruct s; simpl; try discriminate; reflexivity.
Qed.

(** ** Rounding never yields NaN *)

Lemma shr_1_nonneg (mrs : shr_record) :
  0 <= shr_m mrs -> 0 <= shr_m (shr_1 mrs).
Proof.
  destruct mrs as [m r s].
  destruct m as [|[p|p|]|[p|p|]]; simpl; lia.
Qed.

Lemma iter_shr_1_nonneg (p : positive) (mrs : shr_record) :
  0 <= shr_m mrs -> 0 <= shr_m (iter_pos shr_1 p mrs).
Proof.
  revert mrs. induction p as [p IH|p IH|]; intros mrs H; simpl.
  - apply IH, IH, shr_1_nonneg, H.
  - apply IH, IH, H.
  - apply shr_1_nonneg, H.
Qed.

Lemma shr_fexp_nonneg (m e : Z) (l : location) :
  0 <= m -> 0 <= shr_m (fst (shr_fexp prec emax m e l)).
Proof.
  intros H. unfold shr_fexp, shr.
  assert (H0 : 0 <= shr_m (shr_record_of_loc m l))
    by (destruct l as [|[]]; exact H).
  destruct (_ - e); simpl; try exact H0.
  now apply iter_shr_1_nonneg.
Qed.

Lemma round_nearest_even_nonneg (m : Z) (l : location) :
  0 <= m -> 0 <= round_nearest_even m l.
Proof.
  intros H. destruct l as [|[]]; simpl; try lia.
  destruct (Z.even m); lia.
Qed.

Lemma binary_round_aux_not_nan (sx : bool) (mx ex : Z) (lx : location) :
  0 <= mx -> is_nan (binary_round_aux prec emax sx mx ex lx) = false.
Proof.
  intros H. unfold binary_round_aux.
  assert (H1 := shr_fexp_nonneg mx ex lx H).
  destruct (shr_fexp prec emax mx ex lx) as [mrs' e']. simpl in H1.
  assert (H2 := shr_fexp_nonneg _ e' loc_Exact
                  (round_nearest_even_nonneg _ (loc_of_shr_record mrs') H1)).
  destruct (shr_fexp prec emax _ e' loc_Exact) as [mrs'' e'']. simpl in H2.
  destruct (shr_m mrs''); [reflexivity| |lia].
  now destruct (e'' <=? emax - prec).
Qed.

Lemma binary_normalize_not_nan (m e : Z) (sz : bool) :
  is_nan (binary_normalize prec emax m e sz) = false.
Proof.
  destruct m as [|p|p]; simpl; [reflexivity| |];
    unfold binary_round;
    destruct (shl_align _ _ _) as [mz ez];
    now apply binary_round_aux_not_nan.
Qed.

Lemma add_finite_not_nan (x y : float32) :
  is_finite x = true -> is_nan y = false -> is_nan (add x y) = false.
Proof.
  unfold add.
  destruct x as [sx|sx| |sx mx ex], y as [sy|sy| |sy my ey]; simpl;
    intros Hx Hy; try discriminate; try reflexivity.
  - now destruct sx, sy.
  - apply binary_normalize_not_nan.
Qed.

Lemma sub_finite_not_nan (x y : float32) :
  is_finite x = true -> is_nan y = false -> is_nan (sub x y) = false.
Proof.
  unfold sub.
  destruct x as [sx|sx| |sx mx ex], y as [sy|sy| |sy my ey]; simpl;
    intros Hx Hy; try discriminate; try reflexivity.
  - now destruct sx, sy.
  - apply binary_normalize_not_nan.
Qed.

Lemma within_finite (lo hi x : float32) :
  is_finite lo = true -> is_finite hi = true ->
  within lo hi x = true -> is_finite x = true.
Proof.
  unfold within, le, SFleb.
  destruct x as [sx|sx| |sx mx ex]; try reflexivity; intros Hlo Hhi H;
    apply andb_prop in H; destruct H as [H1 H2].
  - destruct sx.
    + destruct lo as [sl|sl| |sl ml el]; simpl in *; try discriminate.
    + destruct hi as [sh|sh| |sh mh eh]; simpl in *; try discriminate.
  - destruct lo; discriminate.
Qed.

Lemma is_finite_opp (x : float32) : is_finite (opp x) = is_finite x.
Proof. now destruct x. Qed.

Lemma is_finite_not_nan (x : float32) :
  is_finite x = true -> is_nan x = false.
Proof. now destruct x. Qed.

(** [lt] and [le] read off the keys. *)
Lemma lt_key (x y : float32) :
  is_nan x = false -> is_nan y = false ->
  (lt x y = true <-> key_lt (key x) (key y)).
Proof.
  unfold lt, SFltb.
  destruct x as [sx|sx| |sx mx ex], y as [sy|sy| |sy my ey]; simpl;
    intros Hx Hy; try discriminate;
    try (destruct sx); try (destruct sy); simpl;
    try (split; intros H; [ lia | reflexivity ]);
    try (split; intros H; [ discriminate | lia ]).
  all: change (Pos.compare_cont Eq mx my) with (Pos.compare mx my).
  all: destruct (Z.compare_spec ex ey); simpl;
       try (split; intros; [ lia | reflexivity ]);
       try (split; intros; [ discriminate | lia ]).
  all: destruct (Pos.compare_spec mx my); simpl;
       try (split; intros; [ lia | reflexivity ]);
       try (split; intros; [ discriminate | lia ]).
Qed.

Lemma le_key (x y : float32) :
  is_nan x = false -> is_nan y = false ->
  (le x y = true <-> ~ key_lt (key y) (key x)).
Proof.
  unfold le, SFleb.
  destruct x as [sx|sx| |sx mx ex], y as [sy|sy| |sy my ey]; simpl;
    intros Hx Hy; try discriminate;
    try (destruct sx); try (destruct sy); simpl;
    try (split; intros H; [ lia | reflexivity ]);
    try (split; intros H; [ discriminate | lia ]).
  all: change (Pos.compare_cont Eq mx my) with (Pos.compare mx my).
  all: destruct (Z.compare_spec ex ey); simpl;
       try (split; intros; [ lia | reflexivity ]);
       try (split; intros; [ discriminate | lia ]).
  all: destruct (Pos.compare_spec mx my); simpl;
       try (split; intros; [ lia | reflexivity ]);
       try (split; intros; [ discriminate | lia ]).
Qed.

(** Nothing lies above the upper end and below the lower end of a
    non-empty interval. *)
Lemma not_above_and_below (x lo hi : float32) :
  le lo hi = true -> gt x hi = true -> lt x lo = true -> False.
Proof.
  intros Hle G L.
  destruct (le_not_nan _ _ Hle) as [Hlo Hhi].
  destruct (lt_not_nan _ _ L) as [Hx _].
  apply (lt_key hi x Hhi Hx) in G.
  apply (lt_key x lo Hx Hlo) in L.
  apply (le_key lo hi Hlo Hhi) in Hle.
  destruct (key x) as [[rx ex] mx], (key lo) as [[rl el] ml],
    (key hi) as [[rh eh] mh].
  unfold key_lt in *. lia.
Qed.

End F32Facts.

(* ================================================================== *)
(** * Facts about the PID controller *)
(* ================================================================== *)

Module PidFacts.

Import F32 F32Facts Pid.

Lemma clamp_nan (lo hi : float32) : clamp nan lo hi = nan.
Proof.
  unfold clamp, gt, lt, SFltb, nan.
  destruct lo, hi; reflexivity.
Qed.

Lemma clamp_is_nan (x lo hi : float32) :
  is_nan lo = false -> is_nan hi = false ->
  is_nan (clamp x lo hi) = is_nan x.
Proof.
  intros Hlo Hhi. unfold clamp.
  destruct (gt x hi) eqn:G.
  - apply lt_not_nan in G. destruct G as [_ G]. congruence.
  - destruct (lt x lo) eqn:L; [|reflexivity].
    apply lt_not_nan in L. destruct L as [L _]. congruence.
Qed.

(** Clamping a number into a non-empty interval lands in the interval. *)
Lemma clamp_within (x lo hi : float32) :
  le lo hi = true -> is_nan x = false ->
  within lo hi (clamp x lo hi) = true.
Proof.
  intros Hle Hx. destruct (le_not_nan _ _ Hle) as [Hlo Hhi].
  unfold clamp, within.
  destruct (gt x hi) eqn:G.
  - now rewrite Hle, (le_refl hi Hhi).
  - destruct (lt x lo) eqn:L.
    + now rewrite Hle, (le_refl lo Hlo).
    + now rewrite (not_lt_ge x lo Hx Hlo L), (not_gt_le x hi Hx Hhi G).
Qed.

Lemma pid_compute_law (pid : pid_controller_t) (current : float32) :
  pid_compute pid current =
  ({| kp := kp pid; ki := ki pid; kd := kd pid;
      setpoint := setpoint pid;
      integral := law_integral pid current;
      prev_error := law_error pid current;
      output_min := output_min pid;
      output_max := output_max pid;
      integral_max := integral_max pid |},
   law_output pid current).
Proof. reflexivity. Qed.

Lemma pid_compute_integral_max (pid : pid_controller_t) (x : float32) :
  integral_max (fst (pid_compute pid x)) = integral_max pid.
Proof. reflexivity. Qed.

Lemma pid_run_integral_max (inputs : list float32) (pid : pid_controller_t) :
  integral_max (pid_run pid inputs) = integral_max pid.
Proof.
  revert pid. induction inputs as [|x xs IH]; intros pid; simpl.
  - reflexivity.
  - unfold pid_run in *. simpl. rewrite IH. apply pid_compute_integral_max.
Qed.

Lemma pid_run_snoc (inputs : list float32) (x : float32)
  (pid : pid_controller_t) :
  pid_run pid (inputs ++ [x]) = fst (pid_compute (pid_run pid inputs) x).
Proof. unfold pid_run. now rewrite fold_left_app. Qed.

(** One call: the accumulator is NaN exactly when the sum it was clamped
    from is, and otherwise it lies within the anti-windup bound. *)
Lemma pid_compute_integral (pid : pid_controller_t) (current : float32) :
  ge (integral_max pid) zero = true ->
  let acc := add (integral pid) (sub (setpoint pid) current) in
  let pid' := fst (pid_compute pid current) in
  is_nan (integral pid') = is_nan acc /\
  (is_nan acc = false ->
   within (opp (integral_max pid)) (integral_max pid) (integral pid') = true).
Proof.
  intros Hmax acc pid'.
  assert (Hle := opp_le_of_nonneg _ Hmax).
  destruct (le_not_nan _ _ Hle) as [Hlo Hhi].
  change (integral pid')
    with (clamp acc (opp (integral_max pid)) (integral_max pid)).
  split.
  - now apply clamp_is_nan.
  - intros Hacc. now apply clamp_within.
Qed.

(** The clamp of the code, upper bound first, is the textbook clamp on
    every non-empty interval. *)
Lemma clamp_lo_first_agrees (x lo hi : float32) :
  le lo hi = true -> clamp x lo hi = clamp_lo_first x lo hi.
Proof.
  intros Hle. unfold clamp, clamp_lo_first.
  destruct (gt x hi) eqn:G, (lt x lo) eqn:L; try reflexivity.
  destruct (not_above_and_below x lo hi Hle G L).
Qed.

Lemma pid_compute_setpoint (pid : pid_controller_t) (x : float32) :
  setpoint (fst (pid_compute pid x)) = setpoint pid.
Proof. reflexivity. Qed.

(** One call on finite data with a number as input: the accumulator ends
    within the bound, and finite again. *)
Lemma pid_compute_integral_finite (pid : pid_controller_t) (x : float32) :
  ge (integral_max pid) zero = true ->
  is_finite (integral_max pid) = true ->
  is_finite (integral pid) = true ->
  is_finite (setpoint pid) = true ->
  is_nan x = false ->
  within (opp (integral_max pid)) (integral_max pid)
    (integral (fst (pid_compute pid x))) = true /\
  is_finite (integral (fst (pid_compute pid x))) = true.
Proof.
  intros Hmax Hfm Hfi Hfs Hx.
  assert (He : is_nan (sub (setpoint pid) x) = false)
    by now apply sub_finite_not_nan.
  assert (Ha : is_nan (add (integral pid) (sub (setpoint pid) x)) = false)
    by now apply add_finite_not_nan.
  destruct (pid_compute_integral pid x Hmax) as [_ Hin].
  specialize (Hin Ha). split; [exact Hin|].
  apply (within_finite (opp (integral_max pid)) (integral_max pid));
    [now rewrite is_finite_opp|exact Hfm|exact Hin].
Qed.

Lemma pid_run_finite (inputs : list float32) (pid : pid_controller_t) :
  ge (integral_max pid) zero = true ->
  is_finite (integral_max pid) = true ->
  is_finite (integral pid) = true ->
  is_finite (setpoint pid) = true ->
  forallb (fun v => negb (is_nan v)) inputs = true ->
  is_finite (integral (pid_run pid inputs)) = true /\
  setpoint (pid_run pid inputs) = setpoint pid.
Proof.
  revert pid. induction inputs as [|x xs IH]; intros pid Hmax Hfm Hfi Hfs Hin.
  - split; [exact Hfi|reflexivity].
  - simpl in Hin. apply andb_prop in Hin. destruct Hin as [Hx Hxs].
    apply negb_true_iff in Hx.
    destruct (pid_compute_integral_finite pid x Hmax Hfm Hfi Hfs Hx)
      as [_ Hf].
    change (pid_run pid (x :: xs)) with (pid_run (fst (pid_compute pid x)) xs).
    destruct (IH (fst (pid_compute pid x))) as [IH1 IH2]; try assumption.
    split; [exact IH1|]. rewrite IH2. apply pid_compute_setpoint.
Qed.

(** C4, as amended: for every controller whose integral_max is at least
    zero and every sequence of pid_compute calls, the accumulator after the
    last call is NaN exactly when the sum of the previous accumulator and
    the error is NaN, and in every other case it lies within
    [-integral_max, +integral_max]; it always does when integral_max, the
    setpoint and the accumulator at the start are finite and no input of
    the sequence is NaN. *)
Theorem pid_integral_bounded (pid : pid_controller_t)
  (inputs : list float32) (x : float32) :
  ge (integral_max pid) zero = true ->
  let before := pid_run pid inputs in
  let after := pid_run pid (inputs ++ [x]) in
  let acc := add (integral before) (sub (setpoint before) x) in
  is_nan (integral after) = is_nan acc /\
  (is_nan acc = false ->
   within (opp (integral_max pid)) (integral_max pid) (integral after)
   = true) /\
  (is_finite (integral_max pid) = true ->
   is_finite (integral pid) = true ->
   is_finite (setpoint pid) = true ->
   forallb (fun v => negb (is_nan v)) (inputs ++ [x]) = true ->
   within (opp (integral_max pid)) (integral_max pid) (integral after)
   = true).
Proof.
  intros Hmax before after acc.
  subst after. rewrite pid_run_snoc. fold before.
  assert (Hb : ge (integral_max before) zero = true)
    by (subst before; now rewrite pid_run_integral_max).
  destruct (pid_compute_integral before x Hb) as [Hnan Hin].
  assert (Hin' : is_nan acc = false ->
                 within (opp (integral_max pid)) (integral_max pid)
                   (integral (fst (pid_compute before x))) = true).
  { intros Hacc. specialize (Hin Hacc).
    subst before. now rewrite pid_run_integral_max in Hin. }
  split; [exact Hnan|]. split; [exact Hin'|].
  intros Hfm Hfi Hfs Hall. apply Hin'.
  rewrite forallb_app in Hall. apply andb_prop in Hall.
  destruct Hall as [Hinputs Hx]. simpl in Hx. rewrite andb_true_r in Hx.
  apply negb_true_iff in Hx.
  destruct (pid_run_finite inputs pid Hmax Hfm Hfi Hfs Hinputs) as [Hf Hs].
  fold before in Hf, Hs. subst acc.
  apply add_finite_not_nan; [exact Hf|].
  apply sub_finite_not_nan; [now rewrite Hs|exact Hx].
Qed.

(** Three calls on [sample_pid], measured 25, 25 and 40 degrees: the
    errors of 30, 30 and 15 saturate the accumulator at 50. *)
Lemma pid_integral_bounded_witness :
  ge (integral_max sample_pid) zero = true /\
  integral (pid_run sample_pid [of_int 25; of_int 25; of_int 40])
  = of_int 50 /\
  within (opp (integral_max sample_pid)) (integral_max sample_pid)
    (integral (pid_run sample_pid [of_int 25; of_int 25; of_int 40]))
  = true.
Proof.
  split; [reflexivity|]. split; [reflexivity|].
  apply (proj2 (proj2 (pid_integral_bounded sample_pid
                         [of_int 25; of_int 25] (of_int 40) eq_refl)));
    reflexivity.
Defined.

(** C4 as stated fails on a NaN measurement: integral_max is 50, and after
    the call the accumulator is NaN, which no interval contains. *)
Lemma pid_integral_nan_counterexample :
  ge (integral_max sample_pid) zero = true /\
  is_binary32 nan = true /\
  integral (fst (pid_compute sample_pid nan)) = nan /\
  within (opp (integral_max sample_pid)) (integral_max sample_pid)
    (integral (fst (pid_compute sample_pid nan)))
  = false.
Proof. repeat split; reflexivity. Qed.

(** C5, as amended: pid_compute returns
    clamp(kp*error + ki*integral' + kd*(error - previous_error),
    output_min, output_max) with error = setpoint - current and integral'
    the previous integral plus error clamped to the anti-windup bound; it
    stores integral' and sets previous_error to error, leaving every other
    field alone; and given output_min <= output_max the returned value
    lies within [output_min, output_max] unless it is NaN, which it is
    exactly when the unclamped sum is. *)
Theorem pid_compute_output (pid : pid_controller_t) (current : float32) :
  let error := sub (setpoint pid) current in
  let integral' :=
    clamp (add (integral pid) error)
          (opp (integral_max pid)) (integral_max pid) in
  let unclamped :=
    add (add (mul (kp pid) error) (mul (ki pid) integral'))
        (mul (kd pid) (sub error (prev_error pid))) in
  let pid' := fst (pid_compute pid current) in
  let output := snd (pid_compute pid current) in
  output = clamp unclamped (output_min pid) (output_max pid) /\
  pid' = {| kp := kp pid; ki := ki pid; kd := kd pid;
            setpoint := setpoint pid;
            integral := integral';
            prev_error := error;
            output_min := output_min pid;
            output_max := output_max pid;
            integral_max := integral_max pid |} /\
  (le (output_min pid) (output_max pid) = true ->
   output = clamp_lo_first unclamped (output_min pid) (output_max pid) /\
   is_nan output = is_nan unclamped /\
   (is_nan unclamped = false ->
    within (output_min pid) (output_max pid) output = true)).
Proof.
  intros error integral' unclamped pid' output.
  split; [reflexivity|]. split; [reflexivity|].
  intros Hle. destruct (le_not_nan _ _ Hle) as [Hlo Hhi].
  change output with (clamp unclamped (output_min pid) (output_max pid)).
  split; [now apply clamp_lo_first_agrees|].
  split; [now apply clamp_is_nan|].
  intros Hu. now apply clamp_within.
Qed.

(** [sample_pid] at 25 degrees: the unclamped sum is 78, inside [0, 100]. *)
Lemma pid_compute_output_witness :
  le (output_min sample_pid) (output_max sample_pid) = true /\
  snd (pid_compute sample_pid (of_int 25)) = of_int 78 /\
  within (output_min sample_pid) (output_max sample_pid)
    (snd (pid_compute sample_pid (of_int 25))) = true.
Proof.
  split; [reflexivity|]. split; [reflexivity|].
  apply (proj2 (proj2 (proj2 (proj2
           (pid_compute_output sample_pid (of_int 25))) eq_refl))).
  reflexivity.
Defined.

(** C5 as stated fails on a NaN measurement: the limits are 0 <= 100 and
    the returned value is NaN, outside every interval. *)
Lemma pid_output_nan_counterexample :
  le (output_min sample_pid) (output_max sample_pid) = true /\
  is_binary32 nan = true /\
  snd (pid_compute sample_pid nan) = nan /\
  within (output_min sample_pid) (output_max sample_pid)
    (snd (pid_compute sample_pid nan)) = false.
Proof. repeat split; reflexivity. Qed.

End PidFacts.

(* ================================================================== *)
(** * Facts about the control loop *)
(* ================================================================== *)

Module TempControlFacts.

Import F32 F32Facts Pid TempControl.

Section WithPlatform.

Context {plat : Target.Platform}.

Lemma heater_duty_zero : set_heater_duty (of_int 0) = 0.
Proof. reflexivity. Qed.

End WithPlatform.

(** Split a goal about one pass of the loop into the four ways the pass
    can go (limit reached, sensor fault, power on, power off) and close
    the branches that hold by computation. *)
Ltac task_branches logf hw s :=
  unfold temp_control_task;
  destruct (read_ntc_temperature logf (s_cali_enabled s) hw) as [?ok ?temp];
  cbn [fst snd];
  match goal with
  | |- context [ge ?t ?l] => destruct (ge t l)
  end;
  [ try reflexivity
  | match goal with
    | ok : bool |- _ =>
        destruct ok;
        [ destruct (s_power_on s) eqn:?Hpower; try reflexivity
        | try reflexivity ]
    end ].

Section WithPlatform.

Context {plat : Target.Platform}.

Section Libm.

Variable logf : float32 -> float32.

(** The band check: a reading is flagged bad exactly when the conversion
    failed or the voltage is below 100 mV or above 3200 mV. *)
Lemma sensor_fault_iff (cali : bool) (hw : adc_sample) :
  sensor_fault logf cali hw = true <->
  adc_read_ok hw = false \/ voltage_mv cali hw < 100
  \/ 3200 < voltage_mv cali hw.
Proof.
  unfold sensor_fault, read_ntc_temperature, voltage_mv.
  destruct (adc_read_ok hw); simpl; [|tauto].
  set (v := if cali then _ else _).
  destruct (v <? 100) eqn:Lo; simpl.
  - apply Z.ltb_lt in Lo. tauto.
  - apply Z.ltb_ge in Lo.
    destruct (3200 <? v) eqn:Hi; simpl.
    + apply Z.ltb_lt in Hi. tauto.
    + apply Z.ltb_ge in Hi. split; [discriminate|].
      intros [H|[H|H]]; [discriminate|lia|lia].
Qed.

(** A bad reading returns the fault value. *)
Lemma sensor_fault_value (cali : bool) (hw : adc_sample) :
  sensor_fault logf cali hw = true ->
  read_ntc_temperature logf cali hw = (false, SENSOR_FAULT_TEMP).
Proof.
  unfold sensor_fault, read_ntc_temperature.
  destruct (adc_read_ok hw); simpl; [|reflexivity].
  destruct (_ || _); simpl; [reflexivity|discriminate].
Qed.

Lemma measured_temp_fault (hw : adc_sample) (s : temp_control) :
  sensor_fault logf (s_cali_enabled s) hw = true ->
  measured_temp logf hw s = s_current_temp s.
Proof.
  intros H. unfold measured_temp.
  now rewrite (sensor_fault_value _ _ H).
Qed.

(** The three ways a pass of the loop can end, by the tests it makes. *)
Lemma task_at_limit (hw : adc_sample) (s : temp_control) :
  hard_limit_reached logf hw s = true ->
  temp_control_task logf hw s =
  {| s_cali_enabled := s_cali_enabled s;
     s_pid := s_pid s;
     s_power_on := false;
     s_target_temp := s_target_temp s;
     s_current_temp := measured_temp logf hw s;
     s_is_heating := false;
     s_state := TEMP_STATE_IDLE;
     s_sensor_ok := negb (sensor_fault logf (s_cali_enabled s) hw);
     ledc_duty := 0 |}.
Proof.
  unfold hard_limit_reached, measured_temp, temp_control_task, sensor_fault.
  destruct (read_ntc_temperature logf (s_cali_enabled s) hw) as [ok temp].
  simpl. intros ->. now rewrite negb_involutive.
Qed.

Lemma task_fault_below_limit (hw : adc_sample) (s : temp_control) :
  sensor_fault logf (s_cali_enabled s) hw = true ->
  ge (s_current_temp s) (of_int CONFIG_TEMP_HARD_LIMIT) = false ->
  temp_control_task logf hw s =
  {| s_cali_enabled := s_cali_enabled s;
     s_pid := s_pid s;
     s_power_on := s_power_on s;
     s_target_temp := s_target_temp s;
     s_current_temp := s_current_temp s;
     s_is_heating := false;
     s_state := TEMP_STATE_ERROR;
     s_sensor_ok := false;
     ledc_duty := 0 |}.
Proof.
  intros Hf Hlim. unfold temp_control_task.
  rewrite (sensor_fault_value _ _ Hf). simpl. now rewrite Hlim.
Qed.

(** What a pass does to a field that every branch sets alike. *)
Lemma task_sensor_ok (hw : adc_sample) (s : temp_control) :
  s_sensor_ok (temp_control_task logf hw s)
  = negb (sensor_fault logf (s_cali_enabled s) hw).
Proof.
  unfold sensor_fault. rewrite negb_involutive. task_branches logf hw s.
Qed.

Lemma task_current_temp (hw : adc_sample) (s : temp_control) :
  s_current_temp (temp_control_task logf hw s) = measured_temp logf hw s.
Proof. unfold measured_temp. task_branches logf hw s. Qed.

Lemma task_cali_enabled (hw : adc_sample) (s : temp_control) :
  s_cali_enabled (temp_control_task logf hw s) = s_cali_enabled s.
Proof. task_branches logf hw s. Qed.

Lemma step_cali_enabled (c : call) (s : temp_control) :
  s_cali_enabled (step logf c s) = s_cali_enabled s.
Proof. destruct c; simpl; [apply task_cali_enabled|reflexivity..]. Qed.

Lemma run_cali_enabled (cs : list call) (s : temp_control) :
  s_cali_enabled (run logf cs s) = s_cali_enabled s.
Proof.
  revert s. induction cs as [|c cs IH]; intros s; [reflexivity|].
  unfold run in *. simpl. rewrite IH. apply step_cali_enabled.
Qed.

(** The heater is off: no duty on the LEDC channel, no heating flag. *)
Lemma step_keeps_heater_off (c : call) (s : temp_control) :
  match c with
  | Tick hw => hard_limit_reached logf hw s = true
  | _ => True
  end ->
  ledc_duty s = 0 /\ s_is_heating s = false ->
  ledc_duty (step logf c s) = 0 /\ s_is_heating (step logf c s) = false.
Proof.
  destruct c as [hw|on|t]; simpl.
  - intros H _. rewrite (task_at_limit hw s H). auto.
  - intros _ [Hd Hh]. split; [|exact Hh]. now destruct on.
  - auto.
Qed.

Lemma run_keeps_heater_off (cs : list call) (s : temp_control) :
  stays_at_limit logf cs s = true ->
  ledc_duty s = 0 /\ s_is_heating s = false ->
  ledc_duty (run logf cs s) = 0 /\ s_is_heating (run logf cs s) = false.
Proof.
  revert s. induction cs as [|c cs IH]; intros s Hhot Hoff; [exact Hoff|].
  simpl in Hhot. apply andb_prop in Hhot. destruct Hhot as [Hc Hcs].
  unfold run in *. simpl. apply IH; [exact Hcs|].
  apply step_keeps_heater_off; [|exact Hoff].
  destruct c; [exact Hc|exact I..].
Qed.

(** C1: whatever the state before it (any power_on, mode, is_heating), a
    pass of the control loop that finds current_temp >= HARD_LIMIT sets
    power_on to false, the mode to IDLE and the heater duty to zero; and
    through every further run of setter calls and passes, as long as each
    pass still finds the temperature at or above the limit, the duty stays
    zero and is_heating stays false, whatever power requests are made in
    between. *)
Theorem hard_limit_interlock (s : temp_control) (hw : adc_sample)
  (cs : list call) :
  hard_limit_reached logf hw s = true ->
  stays_at_limit logf cs (temp_control_task logf hw s) = true ->
  let s1 := temp_control_task logf hw s in
  let s2 := run logf cs s1 in
  (s_power_on s1 = false /\ s_state s1 = TEMP_STATE_IDLE /\
   ledc_duty s1 = 0 /\ s_is_heating s1 = false) /\
  (ledc_duty s2 = 0 /\ s_is_heating s2 = false) /\
  (forall hw', hard_limit_reached logf hw' s2 = true ->
     s_power_on (temp_control_task logf hw' s2) = false /\
     s_state (temp_control_task logf hw' s2) = TEMP_STATE_IDLE /\
     ledc_duty (temp_control_task logf hw' s2) = 0).
Proof.
  intros Hhot Hstay s1 s2.
  assert (H1 : s_power_on s1 = false /\ s_state s1 = TEMP_STATE_IDLE /\
               ledc_duty s1 = 0 /\ s_is_heating s1 = false)
    by (subst s1; rewrite (task_at_limit hw s Hhot); auto).
  split; [exact H1|]. split.
  - apply run_keeps_heater_off; [exact Hstay|tauto].
  - intros hw' H'. rewrite (task_at_limit hw' s2 H'). auto.
Qed.

(** C2, as amended: a pass of the control loop whose reading is flagged
    bad sets sensor_ok to false and the heater duty to zero and does not
    run the PID (the controller is untouched); when the retained
    current_temp is below HARD_LIMIT it sets the mode to ERROR and leaves
    power_on unchanged, and when the retained current_temp is at or above
    HARD_LIMIT the interlock wins: power_on false, mode IDLE.  The next
    pass with a good reading sets sensor_ok back to true by itself. *)
Theorem sensor_fault_tick (s : temp_control) (hw : adc_sample) :
  sensor_fault logf (s_cali_enabled s) hw = true ->
  let s' := temp_control_task logf hw s in
  s_sensor_ok s' = false /\ ledc_duty s' = 0 /\ s_is_heating s' = false /\
  s_pid s' = s_pid s /\
  (ge (s_current_temp s) (of_int CONFIG_TEMP_HARD_LIMIT) = false ->
   s_state s' = TEMP_STATE_ERROR /\ s_power_on s' = s_power_on s) /\
  (ge (s_current_temp s) (of_int CONFIG_TEMP_HARD_LIMIT) = true ->
   s_state s' = TEMP_STATE_IDLE /\ s_power_on s' = false) /\
  (forall hw',
     sensor_fault logf (s_cali_enabled s) hw' = false ->
     s_sensor_ok (temp_control_task logf hw' s') = true).
Proof.
  intros Hf s'.
  assert (Hm := measured_temp_fault hw s Hf).
  destruct (ge (s_current_temp s) (of_int CONFIG_TEMP_HARD_LIMIT)) eqn:Hlim.
  - assert (Hhot : hard_limit_reached logf hw s = true)
      by (unfold hard_limit_reached; now rewrite Hm).
    subst s'. rewrite (task_at_limit hw s Hhot), Hf. simpl.
    repeat split; try reflexivity; try discriminate.
    intros hw' Hok. rewrite task_sensor_ok. cbn [s_cali_enabled].
    now rewrite Hok.
  - subst s'. rewrite (task_fault_below_limit hw s Hf Hlim). simpl.
    repeat split; try reflexivity; try discriminate.
    intros hw' Hok. rewrite task_sensor_ok. cbn [s_cali_enabled].
    now rewrite Hok.
Qed.

Lemma step_fault_shows_error (c : call) (s : temp_control) :
  fault_shows_error s = true -> fault_shows_error (step logf c s) = true.
Proof.
  destruct c as [hw|on|t]; simpl; [intros _|trivial..].
  unfold fault_shows_error.
  rewrite task_sensor_ok, task_current_temp.
  destruct (sensor_fault logf (s_cali_enabled s) hw) eqn:Hf; [|reflexivity].
  simpl. rewrite (measured_temp_fault hw s Hf).
  destruct (ge (s_current_temp s) (of_int CONFIG_TEMP_HARD_LIMIT)) eqn:Hlim;
    [reflexivity|].
  now rewrite (task_fault_below_limit hw s Hf Hlim).
Qed.

Lemma task_off_shows_idle (hw : adc_sample) (s : temp_control) :
  off_shows_idle (temp_control_task logf hw s) = true.
Proof.
  unfold off_shows_idle, temp_control_task.
  destruct (read_ntc_temperature logf (s_cali_enabled s) hw) as [ok temp].
  destruct (ge _ _); [simpl; apply orb_true_r|].
  destruct ok; [|simpl; destruct (s_power_on s); reflexivity].
  destruct (s_power_on s) eqn:Hp; [|reflexivity].
  now destruct (pid_compute _ _).
Qed.

(** C3, as amended: in every state reachable from start-up by passes of
    the control loop and setter calls, sensor_ok == false implies mode
    ERROR unless the retained current_temp is at or above HARD_LIMIT; and
    in the state every pass of the control loop leaves, power_on == false
    together with sensor_ok == true implies mode IDLE. *)
Theorem control_state_invariant (cali : bool) (cs : list call) :
  let s := run logf cs (temp_control_init cali) in
  fault_shows_error s = true /\
  (forall hw, off_shows_idle (temp_control_task logf hw s) = true).
Proof.
  intros s. split; [|intros hw; apply task_off_shows_idle].
  subst s. unfold run.
  assert (H0 : fault_shows_error (temp_control_init cali) = true)
    by reflexivity.
  revert H0. generalize (temp_control_init cali).
  induction cs as [|c cs IH]; intros s0 H0; [exact H0|].
  simpl. apply IH. now apply step_fault_shows_error.
Qed.

Lemma readings_plausible_cons (cali : bool) (c : call) (cs : list call) :
  readings_plausible logf cali (c :: cs)
  = readings_plausible logf cali [c] && readings_plausible logf cali cs.
Proof. unfold readings_plausible. simpl. now rewrite andb_true_r. Qed.

Lemma step_current_temp_plausible (cali : bool) (c : call)
  (s : temp_control) :
  s_cali_enabled s = cali ->
  readings_plausible logf cali [c] = true ->
  eqb (s_current_temp s) SENSOR_FAULT_TEMP = false ->
  eqb (s_current_temp (step logf c s)) SENSOR_FAULT_TEMP = false.
Proof.
  intros Hc Hp Hs. destruct c as [hw|on|t]; simpl; [|exact Hs..].
  rewrite task_current_temp. unfold measured_temp. rewrite Hc.
  simpl in Hp. rewrite andb_true_r in Hp.
  destruct (read_ntc_temperature logf cali hw) as [ok temp].
  destruct ok; [|exact Hs].
  simpl in Hp. now apply negb_true_iff in Hp.
Qed.

Lemma run_current_temp_plausible (cali : bool) (cs : list call)
  (s : temp_control) :
  s_cali_enabled s = cali ->
  readings_plausible logf cali cs = true ->
  eqb (s_current_temp s) SENSOR_FAULT_TEMP = false ->
  eqb (s_current_temp (run logf cs s)) SENSOR_FAULT_TEMP = false.
Proof.
  revert s. induction cs as [|c cs IH]; intros s Hc Hp Hs; [exact Hs|].
  rewrite readings_plausible_cons in Hp.
  apply andb_prop in Hp. destruct Hp as [Hp1 Hp2].
  unfold run in *. simpl. apply IH.
  - now rewrite step_cali_enabled.
  - exact Hp2.
  - now apply (step_current_temp_plausible cali).
Qed.

Lemma valid_reading_fault (cali : bool) (hw : adc_sample) :
  sensor_fault logf cali hw = true -> valid_reading logf cali hw = None.
Proof.
  intros H. unfold valid_reading. now rewrite (sensor_fault_value _ _ H).
Qed.

Lemma measured_temp_valid (hw : adc_sample) (s : temp_control) :
  measured_temp logf hw s
  = match valid_reading logf (s_cali_enabled s) hw with
    | Some temp => temp
    | None => s_current_temp s
    end.
Proof.
  unfold measured_temp, valid_reading.
  destruct (read_ntc_temperature logf (s_cali_enabled s) hw) as [ok temp].
  now destruct ok.
Qed.

(** What a run leaves in [s_current_temp]: its last valid reading, or the
    value it started with when it has none. *)
Lemma run_current_temp (cali : bool) (cs : list call) (s : temp_control) :
  s_cali_enabled s = cali ->
  s_current_temp (run logf cs s)
  = match last_valid_reading logf cali cs with
    | Some temp => temp
    | None => s_current_temp s
    end.
Proof.
  revert s. induction cs as [|c cs IH]; intros s Hc; [reflexivity|].
  change (run logf (c :: cs) s) with (run logf cs (step logf c s)).
  rewrite IH by now rewrite step_cali_enabled.
  cbn [last_valid_reading].
  destruct (last_valid_reading logf cali cs) as [temp|]; [reflexivity|].
  destruct c as [hw|on|t]; cbn [step]; [|reflexivity..].
  now rewrite task_current_temp, measured_temp_valid, Hc.
Qed.

Lemma last_valid_reading_app (cali : bool) (cs cs' : list call) :
  last_valid_reading logf cali (cs ++ cs')
  = match last_valid_reading logf cali cs' with
    | Some temp => Some temp
    | None => last_valid_reading logf cali cs
    end.
Proof.
  induction cs as [|c cs IH]; cbn [app last_valid_reading].
  - now destruct (last_valid_reading logf cali cs').
  - rewrite IH. now destruct (last_valid_reading logf cali cs').
Qed.

(** C10: once a pass of the control loop has stored a good reading,
    current_temp is the last valid reading of the run, and never the
    fault value -999 (no good reading of the thermistor converts to it).
    A pass of temp_control_task whose reading is bad gets -999 from the
    sensor, which is below the hard limit, but leaves current_temp at the
    last valid reading; get_current_temp returns that value, and the pass
    takes its hard-limit branch (power off, mode IDLE, duty 0) exactly
    when that retained value is at or above the limit, and its
    sensor-fault branch (mode ERROR) otherwise. *)
Theorem fault_value_never_stored (s : temp_control) (hw0 : adc_sample)
  (cs : list call) (hw : adc_sample) :
  let cali := s_cali_enabled s in
  sensor_fault logf cali hw0 = false ->
  readings_plausible logf cali (Tick hw0 :: cs) = true ->
  let s1 := run logf cs (temp_control_task logf hw0 s) in
  last_valid_reading logf cali (Tick hw0 :: cs)
  = Some (temp_control_get_current_temp s1) /\
  eqb (temp_control_get_current_temp s1) SENSOR_FAULT_TEMP = false /\
  (sensor_fault logf cali hw = true ->
   let s2 := temp_control_task logf hw s1 in
   snd (read_ntc_temperature logf cali hw) = SENSOR_FAULT_TEMP /\
   ge SENSOR_FAULT_TEMP (of_int CONFIG_TEMP_HARD_LIMIT) = false /\
   temp_control_get_current_temp s2 = temp_control_get_current_temp s1 /\
   last_valid_reading logf cali (Tick hw0 :: cs ++ [Tick hw])
   = Some (temp_control_get_current_temp s2) /\
   (ge (temp_control_get_current_temp s1) (of_int CONFIG_TEMP_HARD_LIMIT)
    = true ->
    s_power_on s2 = false /\ s_state s2 = TEMP_STATE_IDLE /\
    ledc_duty s2 = 0) /\
   (ge (temp_control_get_current_temp s1) (of_int CONFIG_TEMP_HARD_LIMIT)
    = false ->
    s_state s2 = TEMP_STATE_ERROR /\ s_power_on s2 = s_power_on s1 /\
    ledc_duty s2 = 0)).
Proof.
  intros cali Hok Hp s1.
  assert (Hc1 : s_cali_enabled s1 = cali)
    by (subst s1; now rewrite run_cali_enabled, task_cali_enabled).
  unfold temp_control_get_current_temp.
  assert (Hlast : last_valid_reading logf cali (Tick hw0 :: cs)
                  = Some (s_current_temp s1)).
  { change (s_current_temp s1)
      with (s_current_temp (run logf (Tick hw0 :: cs) s)).
    rewrite (run_current_temp cali) by reflexivity.
    cbn [last_valid_reading].
    destruct (last_valid_reading logf cali cs) as [temp|]; [reflexivity|].
    unfold valid_reading. unfold sensor_fault in Hok.
    destruct (read_ntc_temperature logf cali hw0) as [ok temp].
    simpl in Hok. apply negb_false_iff in Hok. now subst ok. }
  split; [exact Hlast|]. split.
  - rewrite readings_plausible_cons in Hp.
    apply andb_prop in Hp. destruct Hp as [Hp0 Hpc].
    subst s1. apply (run_current_temp_plausible cali).
    + apply task_cali_enabled.
    + exact Hpc.
    + rewrite task_current_temp. unfold measured_temp. fold cali.
      unfold sensor_fault in Hok. simpl in Hp0.
      destruct (read_ntc_temperature logf cali hw0) as [ok temp].
      simpl in Hok. apply negb_false_iff in Hok. subst ok.
      simpl in Hp0. rewrite andb_true_r in Hp0.
      now apply negb_true_iff in Hp0.
  - intros Hf. cbv zeta.
    set (s2 := temp_control_task logf hw s1).
    assert (Hf1 : sensor_fault logf (s_cali_enabled s1) hw = true)
      by now rewrite Hc1.
    assert (Hm := measured_temp_fault hw s1 Hf1).
    assert (Hkeep : s_current_temp s2 = s_current_temp s1)
      by (subst s2; now rewrite task_current_temp).
    split; [now rewrite (sensor_fault_value _ _ Hf)|].
    split; [reflexivity|]. split; [exact Hkeep|]. split.
    { change (Tick hw0 :: cs ++ [Tick hw])
        with ((Tick hw0 :: cs) ++ [Tick hw]).
      rewrite last_valid_reading_app. cbn [last_valid_reading].
      now rewrite (valid_reading_fault _ _ Hf), Hkeep. }
    split; intros Hlim.
    + assert (Hhot : hard_limit_reached logf hw s1 = true)
        by (unfold hard_limit_reached; now rewrite Hm).
      subst s2. rewrite (task_at_limit hw s1 Hhot).
      now repeat split.
    + subst s2. rewrite (task_fault_below_limit hw s1 Hf1 Hlim).
      now repeat split.
Qed.

End Libm.

(** The 1650 mV sample reads 25 degrees, the 239 mV sample 96.07. *)
Example sample_25_degrees_reading :
  read_ntc_temperature logf_at_1650mV true sample_25_degrees
  = (true, of_int 25).
Proof. reflexivity. Qed.

Example sample_96_degrees_reading :
  fst (read_ntc_temperature logf_at_239mV true sample_96_degrees) = true /\
  within (of_int 96) (lit 961 10)
    (snd (read_ntc_temperature logf_at_239mV true sample_96_degrees)) = true.
Proof. split; reflexivity. Qed.

End WithPlatform.

Section Samples.

#[local] Existing Instance Target.saturating.

(** Power requested on, the sensor at 96 degrees: the pass switches power
    off, and power requests, a new target and a sensor fault later the
    heater is still off. *)
Lemma hard_limit_interlock_witness :
  let s := temp_control_set_power true (temp_control_init true) in
  let cs := [SetPower true; Tick sample_96_degrees; SetPower true;
             SetTargetTemp 90; Tick sample_shorted; SetPower true] in
  let s1 := temp_control_task logf_at_239mV sample_96_degrees s in
  let s2 := run logf_at_239mV cs s1 in
  hard_limit_reached logf_at_239mV sample_96_degrees s = true /\
  stays_at_limit logf_at_239mV cs s1 = true /\
  s_power_on s = true /\ s_power_on s1 = false /\
  s_power_on s2 = true /\ ledc_duty s2 = 0 /\ s_is_heating s2 = false.
Proof.
  cbv zeta.
  split; [reflexivity|]. split; [reflexivity|]. split; [reflexivity|].
  pose proof (hard_limit_interlock logf_at_239mV
                (temp_control_set_power true (temp_control_init true))
                sample_96_degrees
                [SetPower true; Tick sample_96_degrees; SetPower true;
                 SetTargetTemp 90; Tick sample_shorted; SetPower true]
                ltac:(vm_compute; reflexivity)
                ltac:(vm_compute; reflexivity)) as H.
  cbv zeta in H. destruct H as [[H1 _] [[H2 H3] _]].
  split; [exact H1|]. split; [reflexivity|]. split; [exact H2|exact H3].
Defined.

(** A shorted sensor at start-up, 25 degrees retained: mode ERROR, the
    power flag as it was, and the next good reading clears the fault. *)
Lemma sensor_fault_tick_witness :
  let s := temp_control_set_power true (temp_control_init true) in
  let s' := temp_control_task logf_at_1650mV sample_shorted s in
  sensor_fault logf_at_1650mV (s_cali_enabled s) sample_shorted = true /\
  s_sensor_ok s' = false /\ s_state s' = TEMP_STATE_ERROR /\
  s_power_on s' = true /\
  s_sensor_ok (temp_control_task logf_at_1650mV sample_25_degrees s') = true.
Proof.
  cbv zeta. split; [reflexivity|].
  pose proof (sensor_fault_tick logf_at_1650mV
                (temp_control_set_power true (temp_control_init true))
                sample_shorted ltac:(vm_compute; reflexivity)) as H.
  cbv zeta in H.
  destruct H as [H1 [_ [_ [_ [H2 [_ H3]]]]]].
  destruct (H2 ltac:(vm_compute; reflexivity)) as [H4 H5].
  split; [exact H1|]. split; [exact H4|]. split; [exact H5|].
  apply H3. reflexivity.
Defined.

(** C2 as stated fails when the retained temperature is at the limit: the
    sensor reads 96 degrees, the caller asks for power again, the sensor
    shorts.  That pass is flagged bad, yet it clears power_on and sets
    the mode to IDLE, not ERROR. *)
Lemma sensor_fault_at_limit_counterexample :
  sensor_fault logf_at_239mV true sample_shorted = true /\
  s_power_on
    (run logf_at_239mV [Tick sample_96_degrees; SetPower true]
       (temp_control_init true)) = true /\
  s_power_on
    (run logf_at_239mV
       [Tick sample_96_degrees; SetPower true; Tick sample_shorted]
       (temp_control_init true)) = false /\
  s_state
    (run logf_at_239mV
       [Tick sample_96_degrees; SetPower true; Tick sample_shorted]
       (temp_control_init true)) = TEMP_STATE_IDLE /\
  s_sensor_ok
    (run logf_at_239mV
       [Tick sample_96_degrees; SetPower true; Tick sample_shorted]
       (temp_control_init true)) = false.
Proof. repeat split; reflexivity. Qed.

(** C3 as stated fails twice over.  A conversion error at start-up leaves
    power_on false with mode ERROR, not IDLE; and switching power off
    while heating leaves power_on false with mode HEATING until the next
    pass of the loop. *)
Lemma documented_invariant_counterexample :
  (let s := run logf_at_1650mV [Tick sample_read_error]
              (temp_control_init true) in
   s_power_on s = false /\ s_state s = TEMP_STATE_ERROR /\
   documented_invariant s = false) /\
  (let s := run logf_at_1650mV
              [SetPower true; Tick sample_25_degrees; SetPower false]
              (temp_control_init true) in
   s_power_on s = false /\ s_state s = TEMP_STATE_HEATING /\
   documented_invariant s = false).
Proof. repeat split; reflexivity. Qed.

(** A good reading of 25 degrees, then a shorted sensor with power on, a
    good reading again, and finally a conversion error: the value kept and
    reported is 25 degrees, the last valid reading, not -999, and that
    last pass ends in ERROR with the power flag as it was. *)
Lemma fault_value_never_stored_witness :
  let s := temp_control_init true in
  let cs := [SetPower true; Tick sample_shorted; Tick sample_25_degrees] in
  let s1 := run logf_at_1650mV cs
              (temp_control_task logf_at_1650mV sample_25_degrees s) in
  let s2 := temp_control_task logf_at_1650mV sample_read_error s1 in
  sensor_fault logf_at_1650mV true sample_25_degrees = false /\
  readings_plausible logf_at_1650mV true (Tick sample_25_degrees :: cs)
  = true /\
  sensor_fault logf_at_1650mV true sample_read_error = true /\
  last_valid_reading logf_at_1650mV true (Tick sample_25_degrees :: cs)
  = Some (of_int 25) /\
  eqb (temp_control_get_current_temp s1) SENSOR_FAULT_TEMP = false /\
  temp_control_get_current_temp s2 = of_int 25 /\
  ge (temp_control_get_current_temp s1) (of_int CONFIG_TEMP_HARD_LIMIT)
  = false /\
  s_state s2 = TEMP_STATE_ERROR /\ s_power_on s2 = true.
Proof.
  cbv zeta.
  split; [reflexivity|]. split; [reflexivity|]. split; [reflexivity|].
  split; [reflexivity|].
  pose proof (fault_value_never_stored logf_at_1650mV
                (temp_control_init true) sample_25_degrees
                [SetPower true; Tick sample_shorted; Tick sample_25_degrees]
                sample_read_error ltac:(vm_compute; reflexivity)
                ltac:(vm_compute; reflexivity)) as H.
  cbv zeta in H. destruct H as [_ [H1 H2]].
  split; [exact H1|].
  destruct (H2 ltac:(vm_compute; reflexivity))
    as (_ & _ & H3 & _ & _ & H4).
  split; [rewrite H3; reflexivity|].
  split; [reflexivity|].
  destruct (H4 ltac:(vm_compute; reflexivity)) as (H5 & H6 & _).
  split; [exact H5|]. rewrite H6. reflexivity.
Defined.

End Samples.

End TempControlFacts.

(* ================================================================== *)
(** * Facts about the scheduler *)
(* ================================================================== *)

Module SchedulerFacts.

Import TempControl Scheduler.

Section WithPlatform.

Context {plat : Target.Platform}.

(** ** Parsing the schedule time *)

Lemma parse_schedule_time_range (time_str : string) (h m : Z) :
  parse_schedule_time time_str = Some (h, m) ->
  0 <= h <= 23 /\ 0 <= m <= 59.
Proof.
  unfold parse_schedule_time.
  destruct (CString.strlen time_str <? 5); [discriminate|].
  destruct (CString.sscanf_d_colon_d time_str) as [[a b]|]; [|discriminate].
  destruct ((0 <=? a) && (a <=? 23) && (0 <=? b) && (b <=? 59)) eqn:R;
    [|discriminate].
  intros H. injection H as <- <-.
  repeat (apply andb_prop in R; destruct R as [R ?]).
  repeat match goal with
         | H : (_ <=? _) = true |- _ => apply Z.leb_le in H
         end.
  lia.
Qed.

(** ** The conversion [%d] *)

(** A number that is an [int] is stored as it is written. *)
Lemma int_conversion_int (v : Z) :
  Target.INT_MIN <= v <= Target.INT_MAX -> CString.int_conversion v = v.
Proof.
  intros [Hlo Hhi]. unfold CString.int_conversion.
  apply Z.leb_le in Hlo. apply Z.leb_le in Hhi. now rewrite Hlo, Hhi.
Qed.

(** Whatever is written, what is stored is an [int]. *)
Lemma int_conversion_range (v : Z) :
  Target.INT_MIN <= CString.int_conversion v <= Target.INT_MAX.
Proof.
  unfold CString.int_conversion.
  destruct ((Target.INT_MIN <=? v) && (v <=? Target.INT_MAX)) eqn:E.
  - apply andb_prop in E. destruct E as [Hlo Hhi].
    apply Z.leb_le in Hlo. apply Z.leb_le in Hhi. lia.
  - apply Target.int_of_overflow_range.
Qed.

Lemma scan_int_range (s : string) (v : Z) (rest : string) :
  CString.scan_int s = Some (v, rest) ->
  Target.INT_MIN <= v <= Target.INT_MAX.
Proof.
  unfold CString.scan_int.
  destruct (CString.scan_number s) as [[n r]|]; [|discriminate].
  intros H. injection H as <- _. apply int_conversion_range.
Qed.

(** When every number converted is an [int], [sscanf] stores the time
    written. *)
Lemma sscanf_written_time (time_str : string) :
  numbers_fit_int time_str = true ->
  CString.sscanf_d_colon_d time_str = written_time time_str.
Proof.
  unfold numbers_fit_int, converted_numbers, CString.sscanf_d_colon_d,
    written_time, CString.scan_int.
  destruct (CString.scan_number time_str) as [[h r]|]; [|reflexivity].
  destruct r as [|c r]; [reflexivity|].
  destruct c as [[] [] [] [] [] [] [] []]; try reflexivity.
  destruct (CString.scan_number r) as [[m r']|]; [|reflexivity].
  cbn [forallb]. rewrite andb_true_r. intros H.
  apply andb_prop in H. destruct H as [Hh Hm].
  unfold CString.int_conversion. now rewrite Hh, Hm.
Qed.

(** The parser on a string whose numbers fit: the length check, then the
    range check on the time written. *)
Lemma parse_schedule_time_written (time_str : string) :
  numbers_fit_int time_str = true ->
  parse_schedule_time time_str
  = if CString.strlen time_str <? 5 then None
    else match written_time time_str with
         | Some (h, m) =>
             if (0 <=? h) && (h <=? 23) && (0 <=? m) && (m <=? 59)
             then Some (h, m) else None
         | None => None
         end.
Proof.
  intros H. unfold parse_schedule_time.
  now rewrite (sscanf_written_time _ H).
Qed.

Lemma parse_schedule_time_short (time_str : string) :
  CString.strlen time_str < 5 -> parse_schedule_time time_str = None.
Proof.
  intros H. unfold parse_schedule_time.
  apply Z.ltb_lt in H. now rewrite H.
Qed.

(** C9, as amended: every string that is shorter than five characters,
    or that does not parse as a valid time with 0 <= HH <= 23 and
    0 <= MM <= 59 while the numbers sscanf converts on it fit an int, is
    rejected by set_schedule_time, and the whole system, in particular
    the stored schedule_time, the active flag and the scheduler mode, is
    what it was before the call.  This holds on every platform. *)
Theorem invalid_schedule_time_rejected (time_str : string) (w : system) :
  CString.strlen time_str < 5 \/
  (parses_as_valid_time time_str = false /\
   numbers_fit_int time_str = true) ->
  parse_schedule_time time_str = None /\
  scheduler_set_schedule_time (Some time_str) w = w /\
  scheduler_get_schedule_time
    (scheduler_set_schedule_time (Some time_str) w)
  = scheduler_get_schedule_time w /\
  s_schedule_active (sched (scheduler_set_schedule_time (Some time_str) w))
  = s_schedule_active (sched w) /\
  scheduler_get_state (scheduler_set_schedule_time (Some time_str) w)
  = scheduler_get_state w.
Proof.
  intros H.
  assert (Hnone : parse_schedule_time time_str = None).
  { destruct H as [Hshort|[Hbad Hfit]].
    - now apply parse_schedule_time_short.
    - rewrite (parse_schedule_time_written _ Hfit).
      destruct (CString.strlen time_str <? 5); [reflexivity|].
      unfold parses_as_valid_time in Hbad.
      destruct (written_time time_str) as [[h m]|]; [|reflexivity].
      now rewrite Hbad. }
  assert (Hsame : scheduler_set_schedule_time (Some time_str) w = w)
    by (unfold scheduler_set_schedule_time; now rewrite Hnone).
  rewrite Hsame. now repeat split.
Qed.

(** What [set_schedule_time] stores reads back as the time it was given:
    checked on each of the 1440 times of the day. *)
Lemma stored_time_parses (h m : Z) :
  0 <= h <= 23 -> 0 <= m <= 59 ->
  parse_schedule_time (CString.fmt_02d h ++ ":" ++ CString.fmt_02d m)%string
  = Some (h, m).
Proof.
  intros Hh Hm.
  set (ok := fun h' m' =>
         match parse_schedule_time
                 (CString.fmt_02d h' ++ ":" ++ CString.fmt_02d m')%string with
         | Some (a, b) => (a =? h') && (b =? m')
         | None => false
         end).
  assert (Hall : forallb (fun h' => forallb (ok h')
                                      (map Z.of_nat (seq 0 60)))
                   (map Z.of_nat (seq 0 24)) = true)
    by (vm_compute; reflexivity).
  rewrite forallb_forall in Hall.
  assert (Hin : forall n k, 0 <= k < Z.of_nat n ->
                            In k (map Z.of_nat (seq 0 n))).
  { intros n k Hk. apply in_map_iff. exists (Z.to_nat k).
    split; [lia|]. apply in_seq. lia. }
  specialize (Hall h (Hin 24%nat h ltac:(lia))).
  rewrite forallb_forall in Hall.
  specialize (Hall m (Hin 60%nat m ltac:(lia))).
  unfold ok in Hall.
  destruct (parse_schedule_time _) as [[a b]|]; [|discriminate].
  apply andb_prop in Hall. destruct Hall as [Ha Hb].
  apply Z.eqb_eq in Ha, Hb. now subst.
Qed.

(** ** The appointment block *)

Lemma start_minutes_wraps (h m : Z) :
  0 <= h <= 23 -> 0 <= m <= 59 ->
  start_minutes h m = (h * 60 + m - CONFIG_PREHEAT_TIME_MINUTES) mod 1440 /\
  0 <= start_minutes h m < 1440.
Proof.
  intros Hh Hm. unfold start_minutes, CONFIG_PREHEAT_TIME_MINUTES.
  destruct (h * 60 + m - 5 <? 0) eqn:Neg.
  - apply Z.ltb_lt in Neg. split; [|lia].
    apply (Z.mod_unique_pos _ _ (-1)); lia.
  - apply Z.ltb_ge in Neg. split; [|lia].
    symmetry. apply Z.mod_small. lia.
Qed.

(** The block is the documented check followed by the documented
    trigger. *)
Lemma appointment_spec (now : rtc_time_t) (w : system) :
  appointment now w = if appointment_due now w then trigger w else w.
Proof.
  unfold appointment, appointment_due, armed_for.
  destruct (s_schedule_active (sched w)); simpl; [|reflexivity].
  destruct (temp_control_get_power (control w)); simpl.
  - rewrite andb_false_r. reflexivity.
  - rewrite andb_true_r.
    destruct (parse_schedule_time (s_schedule_time (sched w)))
      as [[h m]|] eqn:P; [|reflexivity].
    destruct (parse_schedule_time_range _ _ _ P) as [Hh Hm].
    destruct (start_minutes_wraps h m Hh Hm) as [-> _].
    reflexivity.
Qed.

Lemma appointment_due_inv (now : rtc_time_t) (w : system) :
  appointment_due now w = true ->
  s_schedule_active (sched w) = true /\
  temp_control_get_power (control w) = false /\
  exists h m,
    parse_schedule_time (s_schedule_time (sched w)) = Some (h, m) /\
    0 <= start_minutes h m < 1440 /\
    hour now * 60 + minute now = start_minutes h m.
Proof.
  unfold appointment_due, armed_for. intros H.
  apply andb_prop in H. destruct H as [H Hp].
  apply andb_prop in H. destruct H as [Ha Ht].
  split; [exact Ha|]. split; [now apply negb_true_iff in Hp|].
  destruct (parse_schedule_time (s_schedule_time (sched w)))
    as [[h m]|] eqn:P; [|discriminate].
  exists h, m. split; [reflexivity|].
  destruct (parse_schedule_time_range _ _ _ P) as [Hh Hm].
  destruct (start_minutes_wraps h m Hh Hm) as [E R].
  split; [exact R|]. rewrite E. now apply Z.eqb_eq.
Qed.

(** An accepted schedule time arms the check for one minute of the day. *)
Lemma set_schedule_time_arms (time_str : string) (h m : Z) (w : system)
  (now : rtc_time_t) :
  parse_schedule_time time_str = Some (h, m) ->
  armed_for now (sched (scheduler_set_schedule_time (Some time_str) w))
  = (hour now * 60 + minute now
     =? (h * 60 + m - CONFIG_PREHEAT_TIME_MINUTES) mod 1440).
Proof.
  intros P. destruct (parse_schedule_time_range _ _ _ P) as [Hh Hm].
  unfold scheduler_set_schedule_time, armed_for, with_sched. rewrite P.
  cbn [sched s_schedule_active s_schedule_time].
  now rewrite (stored_time_parses h m Hh Hm).
Qed.

Lemma countdown_schedule_active (w : system) :
  s_schedule_active (sched (countdown w)) = s_schedule_active (sched w).
Proof.
  unfold countdown.
  destruct (s_timer_running (sched w) && _); [|reflexivity].
  now destruct (_ <=? 0).
Qed.

Lemma apply_event_keeps_disarmed (logf : float32 -> float32) (e : event)
  (w : system) :
  keeps_disarmed e = true ->
  s_schedule_active (sched w) = false ->
  s_schedule_active (sched (apply_event logf e w)) = false.
Proof.
  destruct e; simpl; intros Hk Ha; try discriminate; try exact Ha;
    try reflexivity.
  - unfold scheduler_timer_callback. rewrite appointment_spec.
    assert (Hc := countdown_schedule_active w). rewrite Ha in Hc.
    unfold appointment_due, armed_for. rewrite Hc. exact Hc.
  - unfold scheduler_set_timer_duration.
    now destruct (temp_control_get_power (control w)).
Qed.

Lemma run_events_keeps_disarmed (logf : float32 -> float32)
  (es : list event) (w : system) :
  forallb keeps_disarmed es = true ->
  s_schedule_active (sched w) = false ->
  s_schedule_active (sched (run_events logf es w)) = false.
Proof.
  revert w. induction es as [|e es IH]; intros w Hk Ha; [exact Ha|].
  simpl in Hk. apply andb_prop in Hk. destruct Hk as [He Hes].
  unfold run_events in *. simpl. apply IH; [exact Hes|].
  now apply apply_event_keeps_disarmed.
Qed.

(** C8: the appointment check acts only when, after the countdown block,
    the schedule is active and the control loop's power is off; it
    compares the clock's minute of the day with scheduled_minutes -
    preheat wrapped into [0, 1440) (schedule 00:02 with the preheat of 5
    gives 1437) and triggers on equality only; the trigger requests power
    on, clears the active flag, starts the countdown with the configured
    duration and sets the state to TIMER_RUNNING; and no later tick
    triggers again until set_schedule_time arms the schedule anew. *)
Theorem appointment_check (now : rtc_time_t) (w : system) :
  let w1 := countdown w in
  let w2 := trigger w1 in
  scheduler_timer_callback now w
  = (if appointment_due now w1 then w2 else w1) /\
  (appointment_due now w1 = true ->
   s_schedule_active (sched w1) = true /\
   temp_control_get_power (control w1) = false /\
   exists h m,
     parse_schedule_time (s_schedule_time (sched w1)) = Some (h, m) /\
     0 <= start_minutes h m < 1440 /\
     hour now * 60 + minute now = start_minutes h m) /\
  (parse_schedule_time "00:02"%string = Some (0, 2) /\ start_minutes 0 2 = 1437) /\
  (temp_control_get_power (control w2) = true /\
   s_schedule_active (sched w2) = false /\
   s_timer_running (sched w2) = true /\
   s_timer_seconds (sched w2) = s_timer_duration (sched w1) * 60 /\
   s_timer_remaining (sched w2) = s_timer_duration (sched w1) /\
   s_state (sched w2) = SCHED_STATE_TIMER_RUNNING) /\
  (forall logf es now',
     forallb keeps_disarmed es = true ->
     appointment_due now' (run_events logf es w2) = false).
Proof.
  intros w1 w2.
  split; [apply appointment_spec|].
  split; [apply appointment_due_inv|].
  split; [split; reflexivity|].
  split; [repeat split; reflexivity|].
  intros logf es now' Hes.
  unfold appointment_due, armed_for.
  now rewrite (run_events_keeps_disarmed logf es w2 Hes eq_refl).
Qed.

(** The appointment of the design document's example, armed at start-up
    for 08:30: nothing happens at 08:24, the tick at 08:25 triggers, and
    the tick at 08:26 only counts down. *)
Example appointment_0830 :
  let w := scheduler_set_schedule_time (Some "08:30"%string) (startup true) in
  let w' := scheduler_timer_callback (at_time 8 25) w in
  scheduler_timer_callback (at_time 8 24) w = w /\
  temp_control_get_power (control w') = true /\
  s_state (sched w') = SCHED_STATE_TIMER_RUNNING /\
  s_schedule_active (sched w') = false /\
  s_timer_seconds (sched w') = 3600 /\
  s_timer_seconds (sched (scheduler_timer_callback (at_time 8 26) w'))
  = 3599.
Proof. repeat split; reflexivity. Qed.

(** Armed for 00:02, the trigger falls on 23:57 of the day before. *)
Example appointment_across_midnight :
  let w := scheduler_set_schedule_time (Some "00:02"%string) (startup true) in
  scheduler_timer_callback (at_time 0 2) w = w /\
  scheduler_timer_callback (at_time 23 56) w = w /\
  temp_control_get_power
    (control (scheduler_timer_callback (at_time 23 57) w)) = true.
Proof. repeat split; reflexivity. Qed.

(** [sscanf] is lenient: leading white space, a missing leading zero and
    trailing characters all convert, and the time is stored normalised. *)
Example lenient_schedule_time :
  scheduler_get_schedule_time
    (scheduler_set_schedule_time (Some " 8:5 pm"%string) (startup true))
  = "08:05"%string.
Proof. reflexivity. Qed.

(** ** The countdown block *)

(** With power on, a tick is the countdown block alone unless that block
    switches power off. *)
Lemma countdown_step (w : system) :
  s_timer_running (sched w) = true ->
  temp_control_get_power (control w) = true ->
  1 < s_timer_seconds (sched w) ->
  countdown w =
  {| control := control w;
     sched :=
       {| s_timer_duration := s_timer_duration (sched w);
          s_timer_remaining := Z.quot (s_timer_seconds (sched w) - 1 + 59) 60;
          s_timer_seconds := s_timer_seconds (sched w) - 1;
          s_timer_running := true;
          s_schedule_time := s_schedule_time (sched w);
          s_schedule_active := s_schedule_active (sched w);
          s_state := s_state (sched w);
          s_timeout_callback := s_timeout_callback (sched w) |};
     timeout_calls := timeout_calls w |}.
Proof.
  intros Hr Hp Hs. unfold countdown. rewrite Hr, Hp. simpl.
  destruct (s_timer_seconds (sched w) - 1 <=? 0) eqn:E.
  - apply Z.leb_le in E. lia.
  - reflexivity.
Qed.

Lemma countdown_expiry (w : system) :
  s_timer_running (sched w) = true ->
  temp_control_get_power (control w) = true ->
  s_timer_seconds (sched w) <= 1 ->
  countdown w =
  {| control := temp_control_set_power false (control w);
     sched :=
       {| s_timer_duration := s_timer_duration (sched w);
          s_timer_remaining := 0;
          s_timer_seconds := s_timer_seconds (sched w) - 1;
          s_timer_running := false;
          s_schedule_time := s_schedule_time (sched w);
          s_schedule_active := s_schedule_active (sched w);
          s_state := SCHED_STATE_TIMEOUT;
          s_timeout_callback := s_timeout_callback (sched w) |};
     timeout_calls :=
       if s_timeout_callback (sched w) then S (timeout_calls w)
       else timeout_calls w |}.
Proof.
  intros Hr Hp Hs. unfold countdown. rewrite Hr, Hp. simpl.
  destruct (s_timer_seconds (sched w) - 1 <=? 0) eqn:E.
  - reflexivity.
  - apply Z.leb_gt in E. lia.
Qed.

Lemma tick_power_on (now : rtc_time_t) (w : system) :
  temp_control_get_power (control (countdown w)) = true ->
  scheduler_timer_callback now w = countdown w.
Proof.
  intros Hp. unfold scheduler_timer_callback. rewrite appointment_spec.
  unfold appointment_due. rewrite Hp. now rewrite andb_false_r.
Qed.

Lemma ticks_snoc (nows : list rtc_time_t) (now : rtc_time_t) (w : system) :
  ticks (nows ++ [now]) w = scheduler_timer_callback now (ticks nows w).
Proof. unfold ticks. now rewrite fold_left_app. Qed.

Lemma ticks_count_down (nows : list rtc_time_t) (w : system) :
  s_timer_running (sched w) = true ->
  temp_control_get_power (control w) = true ->
  Z.of_nat (List.length nows) < s_timer_seconds (sched w) ->
  counted_down w (Z.of_nat (List.length nows)) (ticks nows w).
Proof.
  intros Hr Hp.
  induction nows as [|now nows IH] using rev_ind; intros Hlen.
  - simpl. unfold counted_down. rewrite Z.sub_0_r.
    repeat split; try reflexivity; try assumption. lia.
  - rewrite length_app in *. simpl in *.
    rewrite ticks_snoc.
    destruct IH as (Hc & Ht & Hd & Hs & Hrun & Hst & Hsa & Hstate & Hcb & _);
      [lia|].
    set (w' := ticks nows w) in *.
    assert (Hp' : temp_control_get_power (control w') = true)
      by now rewrite Hc.
    assert (Hstep := countdown_step w' Hrun Hp' ltac:(lia)).
    rewrite tick_power_on; rewrite Hstep; [|exact Hp'].
    unfold counted_down. simpl.
    rewrite Hs.
    replace (Z.of_nat (List.length nows + 1))
      with (Z.of_nat (List.length nows) + 1) by lia.
    repeat split; try assumption; try reflexivity; try lia.
    intros _. f_equal. lia.
Qed.

(** C6, as amended: a countdown of one minute (60 seconds, as
    set_timer_duration(1) under power or start_timer with a duration of 1
    leave it) with power on, and nothing but 60 scheduler ticks: through
    the first 59 the timer keeps running with one minute remaining and
    power on; the 60th sets timer_running to false, the remaining minutes
    and seconds to 0 and the state to TIMEOUT, switches the control loop's
    power off and calls the registered timeout callback, once.  This holds
    provided no armed appointment falls due at the clock reading of the
    60th tick; one that does fires within that same tick. *)
Theorem countdown_one_minute (w : system) (nows : list rtc_time_t)
  (last : rtc_time_t) :
  s_timer_running (sched w) = true ->
  s_timer_seconds (sched w) = 60 ->
  temp_control_get_power (control w) = true ->
  s_timeout_callback (sched w) = true ->
  List.length nows = 59%nat ->
  armed_for last (sched w) = false ->
  let w59 := ticks nows w in
  let w60 := ticks (nows ++ [last]) w in
  (s_timer_running (sched w59) = true /\
   s_timer_seconds (sched w59) = 1 /\
   s_timer_remaining (sched w59) = 1 /\
   s_state (sched w59) = s_state (sched w) /\
   temp_control_get_power (control w59) = true /\
   timeout_calls w59 = timeout_calls w) /\
  (s_timer_running (sched w60) = false /\
   s_timer_seconds (sched w60) = 0 /\
   s_timer_remaining (sched w60) = 0 /\
   s_state (sched w60) = SCHED_STATE_TIMEOUT /\
   temp_control_get_power (control w60) = false /\
   timeout_calls w60 = S (timeout_calls w)).
Proof.
  intros Hr Hs Hp Hcb Hlen Harm w59 w60.
  destruct (ticks_count_down nows w Hr Hp ltac:(lia))
    as (Hc & Ht & Hd & Hs' & Hrun & Hst & Hsa & Hstate & Hcb' & Hrem).
  fold w59 in Hc, Ht, Hd, Hs', Hrun, Hst, Hsa, Hstate, Hcb', Hrem.
  rewrite Hlen, Hs in *. simpl in Hs', Hrem.
  assert (Hp59 : temp_control_get_power (control w59) = true)
    by now rewrite Hc.
  split.
  - repeat split; try assumption. now apply Hrem.
  - subst w60. rewrite ticks_snoc. fold w59.
    unfold scheduler_timer_callback. rewrite appointment_spec.
    rewrite (countdown_expiry w59 Hrun Hp59 ltac:(lia)).
    unfold appointment_due, armed_for in *. simpl.
    rewrite Hsa, Hst, Harm. simpl.
    rewrite Hs', Hcb', Hcb, Ht. repeat split; reflexivity.
Qed.

Lemma tick_power_off (now : rtc_time_t) (w : system) :
  temp_control_get_power (control w) = false ->
  armed_for now (sched w) = false ->
  scheduler_timer_callback now w = w.
Proof.
  intros Hp Ha.
  assert (Hc : countdown w = w)
    by (unfold countdown; now rewrite Hp, andb_false_r).
  unfold scheduler_timer_callback. rewrite Hc, appointment_spec.
  unfold appointment_due. now rewrite Ha.
Qed.

(** C7, as amended: with timer_running true and the control loop's power
    off, a scheduler tick changes nothing at all (the remaining seconds
    and minutes, timer_running and the state included), and so does any
    number of consecutive such ticks, provided no armed appointment falls
    due at the clock reading of one of them; one that does restarts the
    countdown with the configured duration. *)
Theorem countdown_paused (w : system) (nows : list rtc_time_t) :
  s_timer_running (sched w) = true ->
  temp_control_get_power (control w) = false ->
  forallb (fun now => negb (armed_for now (sched w))) nows = true ->
  ticks nows w = w /\
  s_timer_seconds (sched (ticks nows w)) = s_timer_seconds (sched w) /\
  s_timer_remaining (sched (ticks nows w)) = s_timer_remaining (sched w) /\
  s_timer_running (sched (ticks nows w)) = true /\
  s_state (sched (ticks nows w)) = s_state (sched w).
Proof.
  intros Hr Hp Hnows.
  assert (H : ticks nows w = w).
  { induction nows as [|now nows IH]; [reflexivity|].
    simpl in Hnows. apply andb_prop in Hnows. destruct Hnows as [Hnow Hrest].
    apply negb_true_iff in Hnow.
    unfold ticks in *. simpl. rewrite (tick_power_off now w Hp Hnow).
    now apply IH. }
  rewrite H. repeat split; try reflexivity. exact Hr.
Qed.

(** ** The ranges of the scheduler's integers *)

Lemma countdown_in_range (w : system) :
  sched_in_range (sched w) -> sched_in_range (sched (countdown w)).
Proof.
  unfold sched_in_range, CONFIG_MAX_HEATING_TIME_MINUTES.
  intros H. unfold countdown.
  destruct (s_timer_running (sched w)
            && temp_control_get_power (control w)) eqn:C; [|exact H].
  apply andb_prop in C. destruct C as [R _].
  destruct H as (Hd & Hs & Hm & Hr). specialize (Hr R).
  destruct (s_timer_seconds (sched w) - 1 <=? 0) eqn:E; simpl.
  - apply Z.leb_le in E. repeat split; try lia; try discriminate.
  - apply Z.leb_gt in E.
    assert (0 <= Z.quot (s_timer_seconds (sched w) - 1 + 59) 60 <= 240).
    { rewrite Z.quot_div_nonneg by lia.
      split; [apply Z.div_pos; lia|].
      apply Z.lt_succ_r, Z.div_lt_upper_bound; lia. }
    repeat split; try lia.
Qed.

Lemma appointment_in_range (now : rtc_time_t) (w : system) :
  sched_in_range (sched w) -> sched_in_range (sched (appointment now w)).
Proof.
  rewrite appointment_spec.
  destruct (appointment_due now w); [|trivial].
  unfold sched_in_range, CONFIG_MAX_HEATING_TIME_MINUTES. simpl.
  intros (Hd & Hs & Hm & Hr). repeat split; lia.
Qed.

Lemma apply_event_in_range (logf : float32 -> float32) (e : event)
  (w : system) :
  sched_in_range (sched w) -> sched_in_range (sched (apply_event logf e w)).
Proof.
  destruct e; simpl; trivial.
  - intros H. now apply appointment_in_range, countdown_in_range.
  - unfold scheduler_set_timer_duration, sched_in_range,
      CONFIG_MAX_HEATING_TIME_MINUTES.
    intros (Hd & Hs & Hm & Hr).
    destruct (minutes <? 1) eqn:Lo;
      [apply Z.ltb_lt in Lo|apply Z.ltb_ge in Lo].
    + destruct (temp_control_get_power (control w)); simpl;
        repeat split; try lia; assumption.
    + destruct (240 <? minutes) eqn:Hi;
        [apply Z.ltb_lt in Hi|apply Z.ltb_ge in Hi];
        destruct (temp_control_get_power (control w)); simpl;
        repeat split; try lia; assumption.
  - unfold scheduler_set_schedule_time.
    destruct time_str as [str|]; [|trivial].
    now destruct (parse_schedule_time str) as [[h m]|].
  - unfold sched_in_range, CONFIG_MAX_HEATING_TIME_MINUTES. simpl.
    intros (Hd & Hs & Hm & Hr). repeat split; lia.
  - unfold sched_in_range, CONFIG_MAX_HEATING_TIME_MINUTES. simpl.
    intros (Hd & Hs & Hm & Hr). repeat split; try lia; try discriminate.
Qed.

Lemma reachable_in_range (logf : float32 -> float32) (es : list event)
  (cali : bool) :
  sched_in_range (sched (run_events logf es (startup cali))).
Proof.
  assert (H0 : sched_in_range (sched (startup cali))).
  { unfold sched_in_range, CONFIG_MAX_HEATING_TIME_MINUTES. simpl.
    repeat split; try lia; try discriminate. }
  revert H0. generalize (startup cali).
  induction es as [|e es IH]; intros w Hw; [exact Hw|].
  unfold run_events in *. simpl. apply IH.
  now apply apply_event_in_range.
Qed.

End WithPlatform.

Section Samples.

#[local] Existing Instance Target.saturating.

(** The two examples of bad input, 25:99 is out of range and abc is no
    number, and 8:30, a time that is too short for the length check. *)
Lemma invalid_schedule_time_rejected_witness :
  let w := scheduler_set_schedule_time (Some "08:30"%string) (startup true) in
  (parses_as_valid_time "25:99" = false /\
   numbers_fit_int "25:99" = true) /\
  (parses_as_valid_time "abc" = false /\ numbers_fit_int "abc" = true) /\
  (parses_as_valid_time "8:30" = true /\ CString.strlen "8:30" < 5) /\
  scheduler_set_schedule_time (Some "25:99"%string) w = w /\
  scheduler_set_schedule_time (Some "abc"%string) w = w /\
  scheduler_set_schedule_time (Some "8:30"%string) w = w /\
  scheduler_get_schedule_time w = "08:30"%string.
Proof.
  cbv zeta.
  split; [split; reflexivity|]. split; [split; reflexivity|].
  split; [split; reflexivity|].
  split;
    [apply (invalid_schedule_time_rejected "25:99");
     right; split; reflexivity|].
  split;
    [apply (invalid_schedule_time_rejected "abc");
     right; split; reflexivity|].
  split;
    [apply (invalid_schedule_time_rejected "8:30"); left; reflexivity|].
  reflexivity.
Defined.

(** C9 as stated fails where a number does not fit an int.  The hour
    written in 4294967296:00 is 2^32, so the string is no valid time; the
    conversion of sscanf is undefined for it, and on a platform whose
    conversion wraps modulo 2^32 the hour stored is 0: the call accepts
    the string, overwrites the schedule 08:30 with 00:00 and, called with
    no schedule set, arms one. *)
Lemma invalid_schedule_time_counterexample :
  let w0 := startup true in
  let w := scheduler_set_schedule_time (plat := Target.wrapping)
             (Some "08:30"%string) w0 in
  let w0' := scheduler_set_schedule_time (plat := Target.wrapping)
               (Some "4294967296:00"%string) w0 in
  let w' := scheduler_set_schedule_time (plat := Target.wrapping)
              (Some "4294967296:00"%string) w in
  written_time "4294967296:00" = Some (4294967296, 0) /\
  parses_as_valid_time "4294967296:00" = false /\
  parse_schedule_time (plat := Target.wrapping) "4294967296:00"
  = Some (0, 0) /\
  (scheduler_get_schedule_time w = "08:30"%string /\
   scheduler_get_schedule_time w' = "00:00"%string) /\
  (s_schedule_active (sched w0) = false /\
   scheduler_get_state w0 = SCHED_STATE_IDLE /\
   s_schedule_active (sched w0') = true /\
   scheduler_get_state w0' = SCHED_STATE_SCHEDULED).
Proof. cbv zeta. repeat split; vm_compute; reflexivity. Qed.

(** Where the conversion saturates, the hour stored is [INT_MAX] and the
    same string is rejected. *)
Example overflowing_hour_saturating :
  CString.sscanf_d_colon_d (plat := Target.saturating) "4294967296:00"
  = Some (Target.INT_MAX, 0) /\
  parse_schedule_time (plat := Target.saturating) "4294967296:00" = None.
Proof. split; vm_compute; reflexivity. Qed.

(** Power on, a duration of one minute set, sixty ticks from 08:00:00. *)
Lemma countdown_one_minute_witness :
  let w := run_events logf_at_1650mV
             [Control (SetPower true); SetTimerDuration 1] (startup true) in
  let nows := repeat (at_time 8 0) 59 in
  let w60 := ticks (nows ++ [at_time 8 1]) w in
  (s_timer_running (sched w) = true /\
   s_timer_seconds (sched w) = 60 /\
   temp_control_get_power (control w) = true /\
   s_timeout_callback (sched w) = true /\
   List.length nows = 59%nat /\
   armed_for (at_time 8 1) (sched w) = false) /\
  s_timer_running (sched w60) = false /\
  scheduler_get_timer_remaining w60 = 0 /\
  scheduler_get_state w60 = SCHED_STATE_TIMEOUT /\
  temp_control_get_power (control w60) = false /\
  timeout_calls w60 = 1%nat.
Proof.
  cbv zeta.
  split; [repeat split; reflexivity|].
  pose proof (countdown_one_minute
                (run_events logf_at_1650mV
                   [Control (SetPower true); SetTimerDuration 1]
                   (startup true))
                (repeat (at_time 8 0) 59) (at_time 8 1)
                ltac:(vm_compute; reflexivity) ltac:(vm_compute; reflexivity)
                ltac:(vm_compute; reflexivity) ltac:(vm_compute; reflexivity)
                ltac:(vm_compute; reflexivity)
                ltac:(vm_compute; reflexivity)) as H.
  cbv zeta in H.
  destruct H as [_ (H1 & _ & H2 & H3 & H4 & H5)].
  unfold scheduler_get_timer_remaining, scheduler_get_state.
  repeat split; assumption.
Defined.

(** C6 as stated fails when an appointment is armed for the minute of the
    60th tick: schedule 08:30, power on, one minute set, 59 ticks during
    08:24 and the 60th at 08:25.  The countdown expires (one callback) and
    the appointment fires in the same tick: after it the timer runs again,
    the state is TIMER_RUNNING and power is on. *)
Lemma countdown_one_minute_counterexample :
  let w := run_events logf_at_1650mV
             [Control (SetPower true); SetScheduleTime (Some "08:30"%string);
              SetTimerDuration 1] (startup true) in
  let w60 := ticks (repeat (at_time 8 24) 59 ++ [at_time 8 25]) w in
  (s_timer_running (sched w) = true /\
   s_timer_seconds (sched w) = 60 /\
   s_timer_duration (sched w) = 1 /\
   temp_control_get_power (control w) = true) /\
  temp_control_get_power
    (control (ticks (repeat (at_time 8 24) 59) w)) = true /\
  s_timer_running (sched w60) = true /\
  scheduler_get_timer_remaining w60 = 1 /\
  scheduler_get_state w60 = SCHED_STATE_TIMER_RUNNING /\
  temp_control_get_power (control w60) = true /\
  timeout_calls w60 = 1%nat.
Proof. cbv zeta. repeat split; vm_compute; reflexivity. Qed.

(** Two minutes set, three ticks under power, power off: the countdown
    rests at 117 seconds through the ticks that follow. *)
Lemma countdown_paused_witness :
  let w := run_events logf_at_1650mV
             [Control (SetPower true); SetTimerDuration 2;
              SchedulerTick (at_time 8 0); SchedulerTick (at_time 8 0);
              SchedulerTick (at_time 8 0); Control (SetPower false)]
             (startup true) in
  let nows := [at_time 8 0; at_time 8 0; at_time 8 1; at_time 8 25] in
  (s_timer_running (sched w) = true /\
   temp_control_get_power (control w) = false /\
   forallb (fun now => negb (armed_for now (sched w))) nows = true) /\
  ticks nows w = w /\
  s_timer_seconds (sched (ticks nows w)) = 117 /\
  scheduler_get_state (ticks nows w) = SCHED_STATE_TIMER_RUNNING.
Proof.
  cbv zeta.
  split; [repeat split; reflexivity|].
  pose proof (countdown_paused
                (run_events logf_at_1650mV
                   [Control (SetPower true); SetTimerDuration 2;
                    SchedulerTick (at_time 8 0); SchedulerTick (at_time 8 0);
                    SchedulerTick (at_time 8 0); Control (SetPower false)]
                   (startup true))
                [at_time 8 0; at_time 8 0; at_time 8 1; at_time 8 25]
                ltac:(vm_compute; reflexivity) ltac:(vm_compute; reflexivity)
                ltac:(vm_compute; reflexivity)) as H.
  destruct H as (H1 & H2 & _ & _ & H3).
  split; [exact H1|]. split; [rewrite H2; reflexivity|].
  unfold scheduler_get_state. rewrite H3. reflexivity.
Defined.

(** C7 as stated fails when an appointment is armed for the minute of
    the tick: schedule 08:30, two minutes set, three ticks under power,
    power off with 117 seconds left.  The tick at 08:25 finds the timer
    running and power off, and leaves 120 seconds and power on. *)
Lemma countdown_paused_counterexample :
  let w := run_events logf_at_1650mV
             [Control (SetPower true); SetScheduleTime (Some "08:30"%string);
              SetTimerDuration 2;
              SchedulerTick (at_time 8 0); SchedulerTick (at_time 8 0);
              SchedulerTick (at_time 8 0); Control (SetPower false)]
             (startup true) in
  let w' := scheduler_timer_callback (at_time 8 25) w in
  (s_timer_running (sched w) = true /\
   temp_control_get_power (control w) = false /\
   s_timer_seconds (sched w) = 117) /\
  s_timer_seconds (sched w') = 120 /\
  temp_control_get_power (control w') = true.
Proof. cbv zeta. repeat split; vm_compute; reflexivity. Qed.

End Samples.

End SchedulerFacts.

(* ================================================================== *)
(** * More facts about the control loop *)
(* ================================================================== *)

Module ControlMoreFacts.

Import F32 F32Facts Pid PidFacts TempControl TempControlFacts ControlChecks.

Section WithPlatform.

Context {plat : Target.Platform}.

(** ** The duty written by [set_heater_duty] *)

Lemma digits2_size (p : positive) : digits2_pos p = Pos.size p.
Proof. induction p; simpl; congruence. Qed.

Lemma digits2_bounds (p : positive) :
  2 ^ (Zpos (digits2_pos p) - 1) <= Zpos p < 2 ^ Zpos (digits2_pos p).
Proof.
  rewrite digits2_size. split.
  - pose proof (Pos.size_le p) as H.
    assert (H' : 2 ^ Zpos (Pos.size p) <= 2 * Zpos p).
    { rewrite <- Pos2Z.inj_pow. change (2 * Zpos p) with (Zpos p~0).
      now apply Pos2Z.pos_le_pos. }
    replace (Zpos (Pos.size p)) with (Zpos (Pos.size p) - 1 + 1) in H'
      by lia.
    rewrite Z.pow_add_r in H' by lia. lia.
  - pose proof (Pos.size_gt p) as H.
    rewrite <- Pos2Z.inj_pow. now apply Pos2Z.pos_lt_pos.
Qed.

Lemma digits2_le (p : positive) (k : Z) :
  0 <= k -> Zpos p < 2 ^ k -> Zpos (digits2_pos p) <= k.
Proof.
  intros Hk Hp. destruct (digits2_bounds p) as [Hlo _].
  destruct (Z_le_gt_dec (Zpos (digits2_pos p)) k) as [H|H]; [exact H|].
  assert (2 ^ k <= 2 ^ (Zpos (digits2_pos p) - 1))
    by (apply Z.pow_le_mono_r; lia).
  lia.
Qed.

Lemma shr_1_m (mrs : shr_record) :
  0 <= shr_m mrs -> shr_m (shr_1 mrs) = shr_m mrs / 2.
Proof.
  destruct mrs as [m r s]. simpl. intros Hm.
  destruct m as [|p|p]; [reflexivity| |lia].
  destruct p as [p|p|]; simpl.
  - apply (Z.div_unique _ _ _ 1); lia.
  - apply (Z.div_unique _ _ _ 0); lia.
  - reflexivity.
Qed.

Lemma iter_shr_1_m (p : positive) :
  forall mrs, 0 <= shr_m mrs ->
  shr_m (iter_pos shr_1 p mrs) = shr_m mrs / 2 ^ Zpos p.
Proof.
  induction p as [p IH|p IH|]; intros mrs Hm; simpl iter_pos.
  - rewrite IH by (apply iter_shr_1_nonneg, shr_1_nonneg, Hm).
    rewrite IH by (apply shr_1_nonneg, Hm).
    rewrite shr_1_m by exact Hm.
    rewrite !Z.div_div by lia.
    f_equal.
    replace (Zpos p~1) with (1 + Zpos p + Zpos p) by lia.
    rewrite !Z.pow_add_r, Z.pow_1_r by lia. ring.
  - rewrite IH by (apply iter_shr_1_nonneg, Hm).
    rewrite IH by exact Hm.
    rewrite Z.div_div by lia.
    f_equal.
    replace (Zpos p~0) with (Zpos p + Zpos p) by lia.
    rewrite Z.pow_add_r by lia. reflexivity.
  - rewrite shr_1_m by exact Hm. reflexivity.
Qed.

Lemma shr_record_of_loc_m (m : Z) (l : location) :
  shr_m (shr_record_of_loc m l) = m.
Proof. now destruct l as [|[]]. Qed.

(** What [shr_fexp] does to a non-negative mantissa: nothing, or a shift
    to the right by the number of digits in excess. *)
Lemma shr_fexp_cases (m e : Z) (l : location) :
  0 <= m ->
  let n := Z.max (Zdigits2 m + e - 24) (-149) - e in
  exists mrs e',
    shr_fexp prec emax m e l = (mrs, e') /\
    ((n <= 0 /\ mrs = shr_record_of_loc m l /\ e' = e)
     \/ (0 < n /\ shr_m mrs = m / 2 ^ n /\ e' = e + n)).
Proof.
  intros Hm n. unfold shr_fexp, shr.
  change (fexp prec emax (Zdigits2 m + e) - e) with n.
  destruct n as [|p|p] eqn:Hn.
  - eexists; eexists. split; [reflexivity|]. left. now repeat split.
  - eexists; eexists. split; [reflexivity|]. right.
    split; [lia|]. split; [|reflexivity].
    rewrite iter_shr_1_m by (rewrite shr_record_of_loc_m; exact Hm).
    now rewrite shr_record_of_loc_m.
  - eexists; eexists. split; [reflexivity|]. left.
    repeat split. lia.
Qed.

Lemma round_nearest_even_bounds (m : Z) (l : location) :
  m <= round_nearest_even m l <= m + 1.
Proof.
  destruct l as [|[]]; simpl; try lia.
  destruct (Z.even m); lia.
Qed.

Lemma Zdigits2_le (m k : Z) :
  0 <= m -> 0 <= k -> m < 2 ^ k -> Zdigits2 m <= k.
Proof.
  intros Hm Hk H. destruct m as [|p|p]; simpl; [lia| |lia].
  now apply digits2_le.
Qed.

Lemma to_uint32_below_1024 (m : positive) (e : Z) :
  below_1024 (Zpos m) e ->
  to_uint32_defined (S754_finite false m e) = true /\
  0 <= to_uint32 (S754_finite false m e) <= 1023.
Proof.
  intros (He & _ & Hm).
  assert (Hp : 0 < 2 ^ (- e)) by (apply Z.pow_pos_nonneg; lia).
  assert (Hs : 0 <= Z.shiftl (Zpos m) e <= 1023).
  { rewrite <- (Z.opp_involutive e), Z.shiftl_opp_r.
    rewrite Z.shiftr_div_pow2 by lia.
    split; [apply Z.div_pos; lia|].
    assert (Zpos m / 2 ^ (- e) < 1024); [|lia].
    apply Z.div_lt_upper_bound; [exact Hp|].
    replace (10 - e) with (- e + 10) in Hm by lia.
    rewrite Z.pow_add_r in Hm by lia. exact Hm. }
  assert (Hd : to_uint32_defined (S754_finite false m e) = true)
    by (apply Z.leb_le; unfold Target.UINT32_MAX; lia).
  split; [exact Hd|]. unfold to_uint32. rewrite Hd. exact Hs.
Qed.

(** Rounding keeps a product below 1024: a mantissa below
    [2^(47+s) - 2^(24+s)] at exponent [-37 - s] rounds to a number whose
    cast is defined and at most 1023. *)
Lemma round_below_1024 (M : positive) (s : Z) :
  0 <= s -> Zpos M < 2 ^ (47 + s) - 2 ^ (24 + s) ->
  let r := binary_round_aux prec emax false (Zpos M) (-37 - s) loc_Exact in
  to_uint32_defined r = true /\ 0 <= to_uint32 r <= 1023.
Proof.
  intros Hs HM. unfold binary_round_aux.
  assert (Hp24 : 0 < 2 ^ (24 + s)) by (apply Z.pow_pos_nonneg; lia).
  assert (HdM : Zdigits2 (Zpos M) <= 47 + s)
    by (apply Zdigits2_le; lia).
  destruct (shr_fexp_cases (Zpos M) (-37 - s) loc_Exact ltac:(lia))
    as (mrs1 & e1 & Heq1 & Hc1).
  rewrite Heq1.
  set (m1 := round_nearest_even (shr_m mrs1) (loc_of_shr_record mrs1)).
  assert (H1 : below_1024 m1 e1).
  { pose proof (round_nearest_even_bounds (shr_m mrs1)
                  (loc_of_shr_record mrs1)) as Hr. fold m1 in Hr.
    destruct Hc1 as [(Hn & -> & ->)|(Hn & Hm & ->)].
    - simpl in Hr. unfold below_1024.
      replace (10 - (-37 - s)) with (47 + s) by lia. lia.
    - set (n := Z.max (Zdigits2 (Zpos M) + (-37 - s) - 24) (-149)
                - (-37 - s)) in *.
      assert (Hn' : n <= 23 + s) by lia.
      assert (Hpn : 0 < 2 ^ n) by (apply Z.pow_pos_nonneg; lia).
      assert (Hdiv : 0 <= Zpos M / 2 ^ n) by (apply Z.div_pos; lia).
      unfold below_1024. split; [lia|]. split; [lia|].
      replace (10 - (-37 - s + n)) with (47 + s - n) by lia.
      assert (Hlt : Zpos M / 2 ^ n < 2 ^ (47 + s - n) - 1); [|lia].
      apply Z.div_lt_upper_bound; [exact Hpn|].
      rewrite Z.mul_sub_distr_l, <- Z.pow_add_r by lia.
      replace (n + (47 + s - n)) with (47 + s) by lia.
      assert (2 ^ n <= 2 ^ (24 + s)) by (apply Z.pow_le_mono_r; lia).
      lia. }
  destruct H1 as (He1 & Hm1lo & Hm1hi).
  destruct (shr_fexp_cases m1 e1 loc_Exact Hm1lo)
    as (mrs2 & e2 & Heq2 & Hc2).
  rewrite Heq2.
  assert (H2 : below_1024 (shr_m mrs2) e2).
  { destruct Hc2 as [(Hn & -> & ->)|(Hn & Hm & ->)].
    - simpl. unfold below_1024. lia.
    - set (n := Z.max (Zdigits2 m1 + e1 - 24) (-149) - e1) in *.
      assert (Hd1 : Zdigits2 m1 <= 10 - e1)
        by (apply Zdigits2_le; lia).
      assert (Hpn : 0 < 2 ^ n) by (apply Z.pow_pos_nonneg; lia).
      unfold below_1024. split; [lia|]. rewrite Hm.
      split; [apply Z.div_pos; lia|].
      apply Z.div_lt_upper_bound; [exact Hpn|].
      rewrite <- Z.pow_add_r by lia.
      replace (n + (10 - (e1 + n))) with (10 - e1) by lia. exact Hm1hi. }
  destruct (shr_m mrs2) as [|m2|m2] eqn:Hm2.
  - split; [reflexivity|]. unfold to_uint32. simpl. lia.
  - assert (He2 : (e2 <=? emax - prec) = true)
      by (apply Z.leb_le; destruct H2 as [He2 _];
          unfold emax, prec; lia).
    rewrite He2. now apply to_uint32_below_1024.
  - destruct H2 as (_ & Hneg & _). lia.
Qed.

(** A well-formed finite datum has a mantissa of at most 24 bits. *)
Lemma is_binary32_mantissa (sx : bool) (m : positive) (e : Z) :
  is_binary32 (S754_finite sx m e) = true -> Zpos m < 2 ^ 24.
Proof.
  unfold is_binary32, valid_binary, bounded, canonical_mantissa.
  intros H. apply andb_prop in H. destruct H as [H _].
  apply Z.eqb_eq in H. unfold fexp, emin, prec, emax in H.
  destruct (digits2_bounds m) as [_ Hhi].
  assert (Hd : Zpos (digits2_pos m) <= 24) by lia.
  assert (2 ^ Zpos (digits2_pos m) <= 2 ^ 24)
    by (apply Z.pow_le_mono_r; lia).
  lia.
Qed.

(** X1: the duty written to the 10-bit LEDC channel.  set_heater_duty
    casts its argument, after the two clamping tests and the product with
    10.23f, to uint32_t.  For every well-formed binary32 argument that is
    not NaN, the infinities included, that cast is defined and the duty
    is within [0, 1023]; a negative argument gives 0, and 100 or more
    gives 1022.  NaN passes both clamping tests and reaches the cast,
    which C leaves undefined for it: the duty is then whatever the
    platform's cast gives. *)
Theorem heater_duty_in_range (duty_percent : float32) :
  is_binary32 duty_percent = true ->
  set_heater_duty duty_percent = to_uint32 (heater_duty_float duty_percent)
  /\
  (is_nan duty_percent = false ->
   to_uint32_defined (heater_duty_float duty_percent) = true /\
   0 <= set_heater_duty duty_percent <= 1023) /\
  (lt duty_percent (of_int 0) = true -> set_heater_duty duty_percent = 0) /\
  (ge duty_percent (of_int 100) = true ->
   set_heater_duty duty_percent = 1022) /\
  (is_nan duty_percent = true ->
   to_uint32_defined (heater_duty_float duty_percent) = false /\
   set_heater_duty duty_percent = Target.uint32_of_undefined S754_nan).
Proof.
  intros Hv. split; [reflexivity|].
  assert (Hc : lit 1023 100 = S754_finite false 10726932 (-20))
    by reflexivity.
  assert (H100 : of_int 100 = S754_finite false 13107200 (-17))
    by reflexivity.
  destruct duty_percent as [sx|sx| |sx m e].
  - assert (H0 : set_heater_duty (S754_zero sx) = 0)
      by (destruct sx; reflexivity).
    rewrite H0.
    split; [intros _; split; [destruct sx; reflexivity|lia]|].
    split; [reflexivity|]. split; discriminate.
  - destruct sx.
    + assert (H0 : set_heater_duty (S754_infinity true) = 0)
        by reflexivity.
      rewrite H0.
      split; [intros _; split; [reflexivity|lia]|].
      split; [reflexivity|]. split; discriminate.
    + assert (H0 : set_heater_duty (S754_infinity false) = 1022)
        by reflexivity.
      rewrite H0.
      split; [intros _; split; [reflexivity|lia]|].
      split; [discriminate|]. split; [reflexivity|discriminate].
  - split; [discriminate|]. split; [discriminate|].
    split; [discriminate|]. intros _. split; reflexivity.
  - destruct sx.
    + assert (H0 : set_heater_duty (S754_finite true m e) = 0)
        by reflexivity.
      rewrite H0.
      split; [intros _; split; [reflexivity|lia]|].
      split; [reflexivity|]. split; discriminate.
    + pose proof (is_binary32_mantissa false m e Hv) as Hm.
      unfold set_heater_duty, heater_duty_float.
      change (lt (S754_finite false m e) (of_int 0)) with false.
      cbv iota zeta.
      destruct (gt (S754_finite false m e) (of_int 100)) eqn:G.
      * assert (H0 : to_uint32 (mul (of_int 100) (lit 1023 100)) = 1022)
          by reflexivity.
        rewrite H0.
        split; [intros _; split; [reflexivity|lia]|].
        split; [discriminate|]. split; [reflexivity|discriminate].
      * assert (Hle : e <= -17 /\ (e = -17 -> Zpos m <= 13107200)).
        { assert (Hk : ~ key_lt (key (of_int 100))
                         (key (S754_finite false m e))).
          { intros Hk.
            apply (lt_key (of_int 100) (S754_finite false m e)) in Hk;
              [|reflexivity..].
            unfold gt in G. unfold lt in Hk. congruence. }
          rewrite H100 in Hk. simpl in Hk. lia. }
        destruct Hle as [He Hm17].
        assert (Hr : to_uint32_defined
                       (mul (S754_finite false m e) (lit 1023 100)) = true
                     /\ 0 <= to_uint32
                               (mul (S754_finite false m e) (lit 1023 100))
                        <= 1023).
        { rewrite Hc. unfold mul, SFmul. cbn [xorb].
          replace (e + -20) with (-37 - (-17 - e)) by lia.
          apply round_below_1024; [lia|].
          rewrite Pos2Z.inj_mul.
          replace (47 + (-17 - e)) with (-17 - e + 47) by lia.
          replace (24 + (-17 - e)) with (-17 - e + 24) by lia.
          rewrite !Z.pow_add_r by lia.
          assert (Hp : 0 < 2 ^ (-17 - e))
            by (apply Z.pow_pos_nonneg; lia).
          destruct (Z.eq_dec e (-17)) as [->|Hne].
          - specialize (Hm17 eq_refl). simpl. lia.
          - assert (Hp2 : 2 ^ 1 <= 2 ^ (-17 - e))
              by (apply Z.pow_le_mono_r; lia).
            change (2 ^ 1) with 2 in Hp2.
            change (2 ^ 47) with 140737488355328.
            change (2 ^ 24) with 16777216 in *. lia. }
        split; [intros _; exact Hr|]. split; [discriminate|].
        split; [|discriminate].
        intros Hge.
        apply (le_key (of_int 100) (S754_finite false m e)) in Hge;
          [|reflexivity..].
        rewrite H100 in Hge. simpl in Hge.
        assert (He17 : e = -17) by lia. subst e.
        assert (Hm' : m = 13107200%positive) by lia. subst m.
        reflexivity.
Qed.

(** ** The sensor reading *)

(** Every voltage of the accepted band gives a finite ratio between 1/32
    and 32. *)
Lemma ntc_ratio_band (v : Z) :
  100 <= v <= 3200 ->
  is_finite (ntc_ratio v) = true /\
  within (lit 1 32) (of_int 32) (ntc_ratio v) = true.
Proof.
  intros Hv.
  set (ok := fun v' => is_finite (ntc_ratio v')
                       && within (lit 1 32) (of_int 32) (ntc_ratio v')).
  assert (Hall : forallb ok (map (fun k => 100 + Z.of_nat k)
                               (seq 0 3101)) = true)
    by (vm_compute; reflexivity).
  rewrite forallb_forall in Hall.
  assert (Hin : In v (map (fun k => 100 + Z.of_nat k) (seq 0 3101))).
  { apply in_map_iff. exists (Z.to_nat (v - 100)). split; [lia|].
    apply in_seq. lia. }
  specialize (Hall v Hin). unfold ok in Hall.
  now apply andb_prop in Hall.
Qed.

Section Libm.

Variable logf : float32 -> float32.

(** X2: a good sensor reading.  read_ntc_temperature flags a
    reading good only when the ADC read succeeded and the voltage is in
    the band from 100 to 3200 mV, which without calibration means a raw
    count from 125 to 3972.  The divisor 3300 - v is then at least 100,
    and the resistance ratio handed to logf is a finite number between
    1/32 and 32: logf is never called on zero, a negative number, an
    infinity or NaN.  The temperature returned is computed from that
    logarithm alone. *)
Theorem good_reading_in_logf_domain (cali : bool) (hw : adc_sample) :
  fst (read_ntc_temperature logf cali hw) = true ->
  let v := voltage_mv cali hw in
  adc_read_ok hw = true /\
  100 <= v <= 3200 /\
  (cali = false -> 125 <= adc_raw hw <= 3972) /\
  is_finite (ntc_ratio v) = true /\
  within (lit 1 32) (of_int 32) (ntc_ratio v) = true /\
  snd (read_ntc_temperature logf cali hw)
  = ntc_celsius (logf (ntc_ratio v)).
Proof.
  unfold read_ntc_temperature, voltage_mv.
  destruct (adc_read_ok hw); [|discriminate]. cbn [negb].
  set (v := if cali then cali_voltage_mv hw
            else Z.quot (adc_raw hw * 3300) 4095).
  destruct ((v <? 100) || (3200 <? v)) eqn:B; [discriminate|].
  intros _. cbv zeta.
  apply orb_false_elim in B. destruct B as [Lo Hi].
  apply Z.ltb_ge in Lo. apply Z.ltb_ge in Hi.
  destruct (ntc_ratio_band v ltac:(lia)) as [Hf Hw].
  split; [reflexivity|]. split; [lia|]. split.
  - intros ->. subst v. cbv iota in Lo, Hi.
    Z.quot_rem_to_equations. lia.
  - split; [exact Hf|]. split; [exact Hw|]. reflexivity.
Qed.


(** An invariant of every call holds after every run. *)
Lemma run_invariant (P : temp_control -> Prop) :
  (forall c s, P s -> P (step logf c s)) ->
  forall cs s, P s -> P (run logf cs s).
Proof.
  intros Hstep cs. induction cs as [|c cs IH]; intros s Hs; [exact Hs|].
  unfold run in *. simpl. apply IH, Hstep, Hs.
Qed.

Lemma step_heater_interlocked (c : call) (s : temp_control) :
  heater_interlocked s = true -> heater_interlocked (step logf c s) = true.
Proof.
  destruct c as [hw|on|t]; simpl.
  - intros _. unfold heater_interlocked, at_hard_limit, temp_control_task.
    destruct (read_ntc_temperature logf (s_cali_enabled s) hw) as [ok temp].
    destruct (ge (if ok then temp else s_current_temp s)
                 (of_int CONFIG_TEMP_HARD_LIMIT)) eqn:L; [reflexivity|].
    destruct ok; [|reflexivity].
    destruct (s_power_on s) eqn:Hp; [|reflexivity].
    destruct (pid_compute _ _) as [pid2 output].
    cbn [ledc_duty s_power_on s_sensor_ok s_current_temp negb] in *.
    rewrite L. simpl. apply orb_true_r.
  - unfold heater_interlocked, at_hard_limit. destruct on; simpl.
    + intros H. apply orb_prop in H. destruct H as [H|H].
      * now rewrite H.
      * apply andb_prop in H. destruct H as [H1 H2].
        apply andb_prop in H1. destruct H1 as [_ H1].
        rewrite H1, H2. apply orb_true_r.
    + reflexivity.
  - trivial.
Qed.

(** X3: in every state the control loop can reach from
    start-up, through any passes and setter calls, the heater's LEDC duty
    is zero unless power is on, the sensor is good and the stored
    temperature is below the hard limit. *)
Theorem heater_driven_only_when_safe (cali : bool) (cs : list call) :
  let s := run logf cs (temp_control_init cali) in
  heater_interlocked s = true /\
  (s_power_on s = false -> ledc_duty s = 0) /\
  (s_sensor_ok s = false -> ledc_duty s = 0) /\
  (at_hard_limit s = true -> ledc_duty s = 0).
Proof.
  intros s.
  assert (H : heater_interlocked s = true).
  { subst s. apply (run_invariant (fun s => heater_interlocked s = true)).
    - apply step_heater_interlocked.
    - reflexivity. }
  split; [exact H|].
  unfold heater_interlocked in H.
  repeat split; intros Hx; rewrite Hx in H;
    rewrite ?andb_false_r in H; simpl in H;
    rewrite ?orb_false_r in H; now apply Z.eqb_eq in H.
Qed.

Lemma step_mode_consistent (c : call) (s : temp_control) :
  mode_consistent s = true -> mode_consistent (step logf c s) = true.
Proof.
  destruct c as [hw|on|t]; simpl; [intros _|trivial..].
  unfold mode_consistent, at_hard_limit, temp_control_task.
  destruct (read_ntc_temperature logf (s_cali_enabled s) hw) as [ok temp].
  destruct (ge (if ok then temp else s_current_temp s)
               (of_int CONFIG_TEMP_HARD_LIMIT)) eqn:L; [reflexivity|].
  destruct ok; [|simpl; now rewrite L].
  destruct (s_power_on s); [|reflexivity].
  destruct (pid_compute _ _) as [pid2 output].
  cbn [s_state s_is_heating s_sensor_ok s_current_temp negb] in *.
  destruct (gt output (of_int 5)); simpl; now rewrite L.
Qed.

(** X4: in every reachable state of the control loop the mode
    agrees with the flags: HEATING exactly when is_heating is set, and
    then the sensor is good and the temperature below the hard limit;
    KEEPING only with a good sensor below the limit; ERROR only with a bad
    sensor; IDLE, KEEPING and ERROR never with is_heating set. *)
Theorem mode_agrees_with_flags (cali : bool) (cs : list call) :
  let s := run logf cs (temp_control_init cali) in
  mode_consistent s = true /\
  (temp_control_is_heating s = true <->
   temp_control_get_state s = TEMP_STATE_HEATING) /\
  (temp_control_get_state s = TEMP_STATE_ERROR ->
   temp_control_is_sensor_ok s = false) /\
  (temp_control_get_state s = TEMP_STATE_KEEPING ->
   temp_control_is_sensor_ok s = true).
Proof.
  intros s.
  assert (H : mode_consistent s = true).
  { subst s. apply (run_invariant (fun s => mode_consistent s = true)).
    - apply step_mode_consistent.
    - reflexivity. }
  split; [exact H|].
  unfold mode_consistent, temp_control_is_heating, temp_control_get_state,
    temp_control_is_sensor_ok in *.
  destruct (s_state s), (s_is_heating s), (s_sensor_ok s);
    simpl in H; try discriminate;
    repeat split; intros; try discriminate; try reflexivity.
Qed.

Lemma step_target_range (c : call) (s : temp_control) :
  CONFIG_TEMP_MIN <= s_target_temp s <= CONFIG_TEMP_MAX ->
  CONFIG_TEMP_MIN <= s_target_temp (step logf c s) <= CONFIG_TEMP_MAX.
Proof.
  destruct c as [hw|on|t]; simpl; [|trivial|].
  - intros H. unfold temp_control_task.
    destruct (read_ntc_temperature logf (s_cali_enabled s) hw) as [ok temp].
    destruct (ge _ _); [exact H|].
    destruct ok; [|exact H].
    destruct (s_power_on s); [|exact H].
    now destruct (pid_compute _ _).
  - intros _. unfold CONFIG_TEMP_MIN, CONFIG_TEMP_MAX.
    destruct (t <? 30) eqn:Lo;
      [apply Z.ltb_lt in Lo|apply Z.ltb_ge in Lo].
    + simpl. lia.
    + destruct (90 <? t) eqn:Hi;
        [apply Z.ltb_lt in Hi|apply Z.ltb_ge in Hi]; lia.
Qed.

(** X5: the target temperature never leaves [30, 90]: whatever
    integer a caller passes, set_target_temp stores the nearest value of
    that range, and every reachable state holds a target within it. *)
Theorem target_temp_stays_in_range (cali : bool) (cs : list call)
  (temp : Z) (s : temp_control) :
  temp_control_get_target_temp (temp_control_set_target_temp temp s)
  = Z.max CONFIG_TEMP_MIN (Z.min CONFIG_TEMP_MAX temp) /\
  CONFIG_TEMP_MIN
  <= temp_control_get_target_temp (run logf cs (temp_control_init cali))
  <= CONFIG_TEMP_MAX.
Proof.
  split.
  - unfold temp_control_get_target_temp, temp_control_set_target_temp,
      CONFIG_TEMP_MIN, CONFIG_TEMP_MAX.
    cbn [s_target_temp].
    destruct (temp <? 30) eqn:Lo;
      [apply Z.ltb_lt in Lo|apply Z.ltb_ge in Lo].
    + simpl. lia.
    + destruct (90 <? temp) eqn:Hi;
        [apply Z.ltb_lt in Hi|apply Z.ltb_ge in Hi]; lia.
  - unfold temp_control_get_target_temp.
    apply (run_invariant
             (fun s => CONFIG_TEMP_MIN <= s_target_temp s
                       <= CONFIG_TEMP_MAX)).
    + apply step_target_range.
    + unfold CONFIG_TEMP_MIN, CONFIG_TEMP_MAX. simpl. lia.
Qed.

Lemma of_int_target_finite (t : Z) :
  CONFIG_TEMP_MIN <= t <= CONFIG_TEMP_MAX -> is_finite (of_int t) = true.
Proof.
  unfold CONFIG_TEMP_MIN, CONFIG_TEMP_MAX. intros Ht.
  assert (Hall : forallb (fun k => is_finite (of_int (30 + Z.of_nat k)))
                   (seq 0 61) = true) by (vm_compute; reflexivity).
  rewrite forallb_forall in Hall.
  specialize (Hall (Z.to_nat (t - 30))).
  replace (30 + Z.of_nat (Z.to_nat (t - 30))) with t in Hall by lia.
  apply Hall, in_seq. lia.
Qed.

Lemma readings_numeric_cons (cali : bool) (c : call) (cs : list call) :
  readings_numeric logf cali (c :: cs)
  = readings_numeric logf cali [c] && readings_numeric logf cali cs.
Proof. unfold readings_numeric. simpl. now rewrite andb_true_r. Qed.

Lemma step_pid_configured (cali : bool) (c : call) (s : temp_control) :
  s_cali_enabled s = cali ->
  readings_numeric logf cali [c] = true ->
  CONFIG_TEMP_MIN <= s_target_temp s <= CONFIG_TEMP_MAX ->
  pid_configured (s_pid s) ->
  pid_configured (s_pid (step logf c s)).
Proof.
  intros Hc Hnum Ht Hp. destruct c as [hw|on|t]; simpl.
  - unfold temp_control_task. rewrite Hc.
    unfold readings_numeric in Hnum. simpl in Hnum.
    rewrite andb_true_r in Hnum.
    destruct (read_ntc_temperature logf cali hw) as [ok temp].
    destruct (ge _ _); [exact Hp|].
    destruct ok; [|exact Hp].
    simpl in Hnum. apply negb_true_iff in Hnum.
    destruct Hp as (Hkp & Hki & Hkd & Hlo & Hhi & Hmax & Hfs & Hfi & Hin).
    destruct (s_power_on s).
    + set (pid1 := pid_set_setpoint (s_pid s) (of_int (s_target_temp s))).
      assert (H := pid_compute_integral_finite pid1 temp).
      subst pid1. cbn [integral_max integral setpoint pid_set_setpoint] in H.
      rewrite Hmax in H.
      specialize (H eq_refl eq_refl Hfi (of_int_target_finite _ Ht) Hnum).
      destruct H as [Hw Hf].
      unfold pid_configured.
      destruct (pid_compute _ _) as [pid2 output] eqn:E.
      cbn [s_pid].
      assert (E2 : pid2 = fst (pid_compute
                                 (pid_set_setpoint (s_pid s)
                                    (of_int (s_target_temp s))) temp))
        by now rewrite E.
      rewrite E2 in *. rewrite E in Hw, Hf. rewrite E.
      rewrite pid_compute_law. cbn [fst kp ki kd output_min output_max
                                    integral_max setpoint integral
                                    pid_set_setpoint].
      rewrite pid_compute_law in Hw, Hf. cbn [fst integral] in Hw, Hf.
      repeat split; try assumption.
      now apply of_int_target_finite.
    + unfold pid_configured. cbn [s_pid pid_reset kp ki kd output_min
                                   output_max integral_max setpoint
                                   integral].
      repeat split; try assumption; reflexivity.
  - destruct Hp as (Hkp & Hki & Hkd & Hlo & Hhi & Hmax & Hfs & Hfi & Hin).
    destruct on; unfold pid_configured;
      cbn [s_pid pid_reset kp ki kd output_min output_max integral_max
           setpoint integral];
      repeat split; try assumption; reflexivity.
  - exact Hp.
Qed.

(** X6: the controller inside the control loop.  As long as no
    good sensor reading is NaN, every reachable state keeps the gains,
    the output limits 0 and 100 and the anti-windup bound 50 that
    temp_control_init set, a finite setpoint, and an accumulator that is
    a finite number within [-50, 50]. *)
Theorem firmware_pid_stays_configured (cali : bool) (cs : list call) :
  readings_numeric logf cali cs = true ->
  pid_configured (s_pid (run logf cs (temp_control_init cali))).
Proof.
  assert (H0 : s_cali_enabled (temp_control_init cali) = cali /\
               CONFIG_TEMP_MIN <= s_target_temp (temp_control_init cali)
               <= CONFIG_TEMP_MAX /\
               pid_configured (s_pid (temp_control_init cali))).
  { split; [reflexivity|]. split; [simpl; unfold CONFIG_TEMP_MIN,
                                     CONFIG_TEMP_MAX; lia|].
    unfold pid_configured. repeat split; reflexivity. }
  revert H0. generalize (temp_control_init cali).
  induction cs as [|c cs IH]; intros s (Hc & Ht & Hp) Hnum; [exact Hp|].
  rewrite readings_numeric_cons in Hnum.
  apply andb_prop in Hnum. destruct Hnum as [Hn1 Hn2].
  unfold run in *. simpl. apply IH; [|exact Hn2].
  split; [now rewrite step_cali_enabled|].
  split; [now apply step_target_range|].
  now apply (step_pid_configured cali).
Qed.

End Libm.

End WithPlatform.

Section Samples.

#[local] Existing Instance Target.saturating.

(** 50.5 percent is a duty of 516 (516.6 cut off). *)
Lemma heater_duty_in_range_witness :
  is_binary32 (lit 505 10) = true /\
  is_nan (lit 505 10) = false /\
  set_heater_duty (lit 505 10) = 516 /\
  0 <= set_heater_duty (lit 505 10) <= 1023.
Proof.
  split; [reflexivity|]. split; [reflexivity|]. split; [reflexivity|].
  destruct (heater_duty_in_range (lit 505 10)
              ltac:(vm_compute; reflexivity)) as (_ & H & _).
  apply (H ltac:(reflexivity)).
Defined.

(** Heating from 25 degrees, a shorted sensor, a power cycle: the
    accumulator is 30 after the first pass and 0 after the power cycle. *)
Lemma firmware_pid_stays_configured_witness :
  let cs := [SetPower true; Tick sample_25_degrees; Tick sample_shorted;
             SetPower false; SetPower true] in
  readings_numeric logf_at_1650mV true cs = true /\
  integral (s_pid (run logf_at_1650mV [SetPower true; Tick sample_25_degrees]
                     (temp_control_init true))) = of_int 30 /\
  within (of_int (-50)) (of_int 50)
    (integral (s_pid (run logf_at_1650mV cs (temp_control_init true))))
  = true.
Proof.
  cbv zeta. split; [reflexivity|]. split; [reflexivity|].
  apply (firmware_pid_stays_configured logf_at_1650mV true
           [SetPower true; Tick sample_25_degrees; Tick sample_shorted;
            SetPower false; SetPower true] ltac:(vm_compute; reflexivity)).
Defined.

(** The sample of 1650 mV, the middle of the divider: ratio one, whose
    logarithm is zero, 25 degrees. *)
Lemma good_reading_in_logf_domain_witness :
  fst (read_ntc_temperature logf_at_1650mV true sample_25_degrees) = true /\
  ntc_ratio (voltage_mv true sample_25_degrees) = of_int 1 /\
  snd (read_ntc_temperature logf_at_1650mV true sample_25_degrees)
  = ntc_celsius zero.
Proof.
  split; [reflexivity|].
  destruct (good_reading_in_logf_domain logf_at_1650mV true
              sample_25_degrees
              ltac:(vm_compute; reflexivity)) as (_ & _ & _ & _ & _ & H).
  split; [reflexivity|]. rewrite H. reflexivity.
Defined.

End Samples.

End ControlMoreFacts.

(* ================================================================== *)
(** * More facts about the scheduler *)
(* ================================================================== *)

Module SchedulerMoreFacts.

Import TempControl Scheduler SchedulerFacts SchedulerChecks.

Section WithPlatform.

Context {plat : Target.Platform}.

(** An invariant of every event holds after every run. *)
Lemma run_events_invariant (logf : float32 -> float32)
  (P : system -> Prop) :
  (forall e w, P w -> P (apply_event logf e w)) ->
  forall es w, P w -> P (run_events logf es w).
Proof.
  intros Hstep es. induction es as [|e es IH]; intros w Hw; [exact Hw|].
  unfold run_events in *. simpl. apply IH, Hstep, Hw.
Qed.

Lemma quot_ceiling (s : Z) :
  0 <= s ->
  60 * (Z.quot (s + 59) 60 - 1) < s /\ s <= 60 * Z.quot (s + 59) 60.
Proof.
  intros Hs. rewrite Z.quot_div_nonneg by lia.
  pose proof (Z.div_mod (s + 59) 60 ltac:(lia)).
  pose proof (Z.mod_pos_bound (s + 59) 60 ltac:(lia)). lia.
Qed.

Lemma countdown_timer_invariant (w : system) :
  timer_invariant w -> timer_invariant (countdown w).
Proof.
  intros [Hr Hc]. split; [now apply countdown_in_range|].
  unfold countdown.
  destruct (s_timer_running (sched w)
            && temp_control_get_power (control w)) eqn:C; [|exact Hc].
  apply andb_prop in C. destruct C as [R _].
  destruct Hr as (_ & Hs & _ & Hrun). specialize (Hrun R).
  unfold remaining_is_ceiling.
  destruct (s_timer_seconds (sched w) - 1 <=? 0) eqn:E; simpl.
  - apply Z.leb_le in E. lia.
  - apply Z.leb_gt in E. apply quot_ceiling. lia.
Qed.

Lemma apply_event_timer_invariant (logf : float32 -> float32) (e : event)
  (w : system) :
  timer_invariant w -> timer_invariant (apply_event logf e w).
Proof.
  intros H. split; [apply apply_event_in_range, H|].
  destruct e; simpl; try apply H.
  - unfold scheduler_timer_callback. rewrite appointment_spec.
    apply countdown_timer_invariant in H. destruct H as [Hr Hc].
    destruct (appointment_due now (countdown w)); [|exact Hc].
    unfold remaining_is_ceiling, trigger.
    cbn [sched s_timer_remaining s_timer_seconds]. lia.
  - destruct H as [_ Hc]. unfold scheduler_set_timer_duration, with_sched.
    destruct (temp_control_get_power (control w)); [|exact Hc].
    unfold remaining_is_ceiling.
    cbn [sched s_timer_remaining s_timer_seconds]. lia.
  - destruct H as [_ Hc]. unfold scheduler_set_schedule_time.
    destruct time_str as [str|]; [|exact Hc].
    now destruct (parse_schedule_time str) as [[h m]|].
  - unfold remaining_is_ceiling, scheduler_start_timer, with_sched.
    cbn [sched s_timer_remaining s_timer_seconds]. lia.
  - unfold remaining_is_ceiling, scheduler_stop_timer, with_sched.
    cbn [sched s_timer_remaining s_timer_seconds]. lia.
Qed.

(** X7: the timer's integers in every state the system
    can reach from start-up.  The duration is within [1, 240] minutes
    whatever set_timer_duration was given, the seconds left within
    [0, 14400], a running timer has at least one second left, and the
    remaining minutes reported are the seconds left divided by 60 and
    rounded up. *)
Theorem timer_integers_consistent (logf : float32 -> float32)
  (es : list event) (cali : bool) :
  let sc := sched (run_events logf es (startup cali)) in
  1 <= s_timer_duration sc <= CONFIG_MAX_HEATING_TIME_MINUTES /\
  0 <= s_timer_seconds sc <= CONFIG_MAX_HEATING_TIME_MINUTES * 60 /\
  (s_timer_running sc = true -> 1 <= s_timer_seconds sc) /\
  60 * (s_timer_remaining sc - 1) < s_timer_seconds sc
  <= 60 * s_timer_remaining sc.
Proof.
  intros sc.
  assert (H : timer_invariant (run_events logf es (startup cali))).
  { apply run_events_invariant.
    - apply apply_event_timer_invariant.
    - split.
      + unfold sched_in_range, CONFIG_MAX_HEATING_TIME_MINUTES. simpl.
        repeat split; try lia; discriminate.
      + unfold remaining_is_ceiling. simpl. lia. }
  destruct H as [(Hd & Hs & _ & Hr) Hc]. fold sc in Hd, Hs, Hr, Hc.
  unfold remaining_is_ceiling in Hc. tauto.
Qed.

End WithPlatform.

(** Close the four parts of [sched_consistent] for an updated state,
    with [H2] what the old state knew about TIMEOUT. *)
Ltac close_states H2 :=
  unfold sched_consistent;
  cbn [sched s_state s_timer_running s_timer_seconds s_schedule_active
       s_schedule_time];
  repeat split; try discriminate; try reflexivity; try assumption;
  try lia; auto;
  try match goal with
      | Hs : _ = SCHED_STATE_TIMEOUT |- _ =>
          destruct (H2 Hs); first [congruence | lia | assumption]
      end.

Section WithPlatform.

Context {plat : Target.Platform}.

Lemma countdown_state_invariant (w : system) :
  state_invariant w -> state_invariant (countdown w).
Proof.
  intros [Hr Hc]. split; [now apply countdown_in_range|].
  unfold countdown.
  destruct (s_timer_running (sched w)
            && temp_control_get_power (control w)) eqn:C; [|exact Hc].
  apply andb_prop in C. destruct C as [R _].
  destruct Hr as (_ & Hs & _ & Hrun). specialize (Hrun R).
  destruct Hc as (H1 & H2 & H3 & H4).
  destruct (s_timer_seconds (sched w) - 1 <=? 0) eqn:E;
    [apply Z.leb_le in E|apply Z.leb_gt in E]; close_states H2.
Qed.

Lemma apply_event_state_invariant (logf : float32 -> float32) (e : event)
  (w : system) :
  state_invariant w -> state_invariant (apply_event logf e w).
Proof.
  intros H. split; [apply apply_event_in_range, H|].
  destruct e as [now|c|minutes|time_str| | | |registered];
    cbn [apply_event]; try apply H.
  - unfold scheduler_timer_callback. rewrite appointment_spec.
    apply countdown_state_invariant in H.
    destruct H as [_ Hc]. pose proof Hc as (H1 & H2 & H3 & H4).
    destruct (appointment_due now (countdown w));
      [unfold trigger; close_states H2|exact Hc].
  - destruct H as [_ Hc]. pose proof Hc as (H1 & H2 & H3 & H4).
    unfold scheduler_set_timer_duration, with_sched.
    destruct (temp_control_get_power (control w)); close_states H2.
  - destruct H as [_ Hc]. pose proof Hc as (H1 & H2 & H3 & H4).
    unfold scheduler_set_schedule_time.
    destruct time_str as [str|]; [|exact Hc].
    destruct (parse_schedule_time str) as [[h m]|] eqn:P;
      [|exact Hc].
    destruct (parse_schedule_time_range _ _ _ P) as [Hh Hm].
    unfold with_sched. close_states H2.
    exists h, m. repeat split; try lia. now apply stored_time_parses.
  - destruct H as [_ Hc]. pose proof Hc as (H1 & H2 & H3 & H4).
    unfold scheduler_cancel_schedule, with_sched.
    destruct (s_state (sched w)) eqn:St; close_states H2.
  - destruct H as [_ Hc]. pose proof Hc as (H1 & H2 & H3 & H4).
    unfold scheduler_start_timer, with_sched. close_states H2.
  - destruct H as [_ Hc]. pose proof Hc as (H1 & H2 & H3 & H4).
    unfold scheduler_stop_timer, with_sched.
    destruct (s_state (sched w)) eqn:St; close_states H2.
Qed.

(** X8: the scheduler's state machine in every reachable
    state.  TIMER_RUNNING is only shown while the timer runs, TIMEOUT only
    with the timer stopped at zero seconds, SCHEDULED only with an active
    schedule; and an active schedule always holds a time in the form
    HH:MM that the tick's parser reads back, so that an armed appointment
    cannot fail to parse. *)
Theorem scheduler_states_consistent (logf : float32 -> float32)
  (es : list event) (cali : bool) :
  sched_consistent (sched (run_events logf es (startup cali))).
Proof.
  assert (H : state_invariant (run_events logf es (startup cali))).
  { apply run_events_invariant.
    - apply apply_event_state_invariant.
    - split.
      + unfold sched_in_range, CONFIG_MAX_HEATING_TIME_MINUTES. simpl.
        repeat split; try lia; discriminate.
      + unfold sched_consistent. simpl.
        repeat split; discriminate. }
  apply H.
Qed.

(** ** The countdown for any duration *)

Lemma set_timer_duration_clamps (minutes : Z) (w : system) :
  s_timer_duration (sched (scheduler_set_timer_duration minutes w))
  = Z.min CONFIG_MAX_HEATING_TIME_MINUTES (Z.max 1 minutes).
Proof.
  unfold scheduler_set_timer_duration, with_sched,
    CONFIG_MAX_HEATING_TIME_MINUTES.
  destruct (minutes <? 1) eqn:Lo;
    [apply Z.ltb_lt in Lo|apply Z.ltb_ge in Lo].
  - destruct (temp_control_get_power (control w)); simpl; lia.
  - destruct (240 <? minutes) eqn:Hi;
      [apply Z.ltb_lt in Hi|apply Z.ltb_ge in Hi];
      destruct (temp_control_get_power (control w));
      cbn [sched s_timer_duration]; lia.
Qed.

Lemma set_timer_duration_starts (minutes : Z) (w : system) :
  temp_control_get_power (control w) = true ->
  let w' := scheduler_set_timer_duration minutes w in
  control w' = control w /\ timeout_calls w' = timeout_calls w /\
  s_timer_running (sched w') = true /\
  s_timer_seconds (sched w') = s_timer_duration (sched w') * 60 /\
  s_schedule_time (sched w') = s_schedule_time (sched w) /\
  s_schedule_active (sched w') = s_schedule_active (sched w) /\
  s_timeout_callback (sched w') = s_timeout_callback (sched w).
Proof.
  intros Hp. unfold scheduler_set_timer_duration, with_sched.
  rewrite Hp. repeat split.
Qed.

(** A running countdown under power runs out: the tick that takes the
    last second stops the timer, switches power off and calls the
    callback, unless an armed appointment is due at that tick. *)
Lemma ticks_expire (w : system) (nows : list rtc_time_t)
  (last : rtc_time_t) :
  s_timer_running (sched w) = true ->
  temp_control_get_power (control w) = true ->
  Z.of_nat (List.length nows) = s_timer_seconds (sched w) - 1 ->
  armed_for last (sched w) = false ->
  let w' := ticks (nows ++ [last]) w in
  s_timer_running (sched w') = false /\
  s_timer_seconds (sched w') = 0 /\
  scheduler_get_timer_remaining w' = 0 /\
  scheduler_get_state w' = SCHED_STATE_TIMEOUT /\
  temp_control_get_power (control w') = false /\
  ledc_duty (control w') = 0 /\
  timeout_calls w'
  = if s_timeout_callback (sched w) then S (timeout_calls w)
    else timeout_calls w.
Proof.
  intros Hr Hp Hlen Harm w'. subst w'. rewrite ticks_snoc.
  destruct (ticks_count_down nows w Hr Hp ltac:(lia))
    as (Hc1 & Ht1 & _ & Hs1 & Hr1 & Hst1 & Hsa1 & _ & Hcb1 & _).
  set (w1 := ticks nows w) in *.
  assert (Hp1 : temp_control_get_power (control w1) = true)
    by now rewrite Hc1.
  unfold scheduler_timer_callback. rewrite appointment_spec.
  rewrite (countdown_expiry w1 Hr1 Hp1 ltac:(lia)).
  unfold appointment_due, armed_for in *.
  cbn [sched control s_schedule_active s_schedule_time].
  rewrite Hsa1, Hst1, Harm.
  cbn [andb sched control timeout_calls s_timer_running s_timer_seconds
       s_timer_remaining s_state scheduler_get_timer_remaining
       scheduler_get_state].
  unfold scheduler_get_timer_remaining, scheduler_get_state.
  cbn [sched s_timer_remaining s_state].
  rewrite Hcb1, Ht1.
  repeat split; try reflexivity. lia.
Qed.

(** X9: a countdown of any length.  When
    set_timer_duration(minutes) is called with power on, the duration d
    is minutes limited to [1, 240] and the timer starts at 60*d seconds.
    If nothing but scheduler ticks follow: after any k < 60*d of them the
    timer still runs with 60*d - k seconds left and power on; and the
    tick number 60*d stops the timer at zero, sets the state to TIMEOUT,
    switches the control loop's power off with the heater duty at zero,
    and calls the timeout callback once if one is registered, provided no
    armed appointment falls due at the clock reading of that tick. *)
Theorem countdown_expires_on_time (minutes : Z) (w0 : system)
  (nows : list rtc_time_t) (last : rtc_time_t) :
  temp_control_get_power (control w0) = true ->
  let w := scheduler_set_timer_duration minutes w0 in
  let d := Z.min CONFIG_MAX_HEATING_TIME_MINUTES (Z.max 1 minutes) in
  Z.of_nat (List.length nows) < 60 * d ->
  let w1 := ticks nows w in
  let w2 := scheduler_timer_callback last w1 in
  (s_timer_running (sched w1) = true /\
   s_timer_seconds (sched w1) = 60 * d - Z.of_nat (List.length nows) /\
   temp_control_get_power (control w1) = true /\
   timeout_calls w1 = timeout_calls w0) /\
  (Z.of_nat (List.length nows) = 60 * d - 1 ->
   armed_for last (sched w0) = false ->
   s_timer_running (sched w2) = false /\
   s_timer_seconds (sched w2) = 0 /\
   scheduler_get_timer_remaining w2 = 0 /\
   scheduler_get_state w2 = SCHED_STATE_TIMEOUT /\
   temp_control_get_power (control w2) = false /\
   ledc_duty (control w2) = 0 /\
   timeout_calls w2
   = if s_timeout_callback (sched w0) then S (timeout_calls w0)
     else timeout_calls w0).
Proof.
  intros Hp w d Hlen w1 w2.
  destruct (set_timer_duration_starts minutes w0 Hp)
    as (Hc & Ht & Hr & Hs & Hst & Hsa & Hcb).
  fold w in Hc, Ht, Hr, Hs, Hst, Hsa, Hcb.
  assert (Hd : s_timer_duration (sched w) = d)
    by apply set_timer_duration_clamps.
  rewrite Hd in Hs.
  assert (Hpw : temp_control_get_power (control w) = true)
    by now rewrite Hc.
  destruct (ticks_count_down nows w Hr Hpw ltac:(lia))
    as (Hc1 & Ht1 & _ & Hs1 & Hr1 & Hst1 & Hsa1 & _ & Hcb1 & _).
  fold w1 in Hc1, Ht1, Hs1, Hr1, Hst1, Hsa1, Hcb1.
  assert (Hp1 : temp_control_get_power (control w1) = true)
    by now rewrite Hc1.
  split.
  - repeat split; try assumption; try lia; congruence.
  - intros Hlast Harm.
    assert (Harm' : armed_for last (sched w) = false)
      by (unfold armed_for in *; now rewrite Hsa, Hst).
    destruct (ticks_expire w nows last Hr Hpw ltac:(lia) Harm')
      as (H1 & H2 & H3 & H4 & H5 & H6 & H7).
    rewrite ticks_snoc in H1, H2, H3, H4, H5, H6, H7.
    fold w1 in H1, H2, H3, H4, H5, H6, H7.
    fold w2 in H1, H2, H3, H4, H5, H6, H7.
    rewrite Hcb, Ht in H7. now repeat split.
Qed.

(** X10: no heating without end.  In every state the
    system can reach from start-up in which the timer runs with power on,
    however the countdown was started (set_timer_duration, start_timer or
    a firing appointment), between 1 and 14400 seconds are left, and if
    nothing but scheduler ticks follow, the tick that takes the last
    second stops the timer, sets state TIMEOUT and switches the control
    loop's power off with the heater duty at zero, provided no armed
    appointment falls due at that tick: left alone, the heater is off
    after four hours at the latest. *)
Theorem running_timer_switches_off (logf : float32 -> float32)
  (es : list event) (cali : bool) (nows : list rtc_time_t)
  (last : rtc_time_t) :
  let w := run_events logf es (startup cali) in
  s_timer_running (sched w) = true ->
  temp_control_get_power (control w) = true ->
  Z.of_nat (List.length nows) = s_timer_seconds (sched w) - 1 ->
  armed_for last (sched w) = false ->
  let w' := ticks (nows ++ [last]) w in
  1 <= s_timer_seconds (sched w)
    <= CONFIG_MAX_HEATING_TIME_MINUTES * 60 /\
  s_timer_running (sched w') = false /\
  scheduler_get_state w' = SCHED_STATE_TIMEOUT /\
  temp_control_get_power (control w') = false /\
  ledc_duty (control w') = 0.
Proof.
  intros w Hr Hp Hlen Harm w'.
  destruct (reachable_in_range logf es cali) as (_ & Hs & _ & Hrun).
  fold w in Hs, Hrun. specialize (Hrun Hr).
  destruct (ticks_expire w nows last Hr Hp Hlen Harm)
    as (H1 & _ & _ & H4 & H5 & H6 & _).
  fold w' in H1, H4, H5, H6.
  split; [lia|]. now repeat split.
Qed.

(** ** What the scheduler leaves alone *)

(** X11: with power on and no timer running the scheduler
    leaves everything as it is, tick after tick: it does not start a
    countdown by itself, so the heater is never switched off by the
    scheduler, and an armed appointment does not fire while power is
    on. *)
Theorem scheduler_inert_under_power (w : system) (nows : list rtc_time_t) :
  temp_control_get_power (control w) = true ->
  s_timer_running (sched w) = false ->
  ticks nows w = w.
Proof.
  intros Hp Hr.
  assert (Hc : countdown w = w) by (unfold countdown; now rewrite Hr).
  assert (Ht : forall now, scheduler_timer_callback now w = w).
  { intros now. unfold scheduler_timer_callback.
    rewrite Hc, appointment_spec.
    unfold appointment_due. now rewrite Hp, andb_false_r. }
  induction nows as [|now nows IH]; [reflexivity|].
  change (ticks (now :: nows) w)
    with (ticks nows (scheduler_timer_callback now w)).
  now rewrite Ht.
Qed.

Lemma task_keeps_power_off (logf : float32 -> float32) (hw : adc_sample)
  (s : temp_control) :
  s_power_on s = false -> s_power_on (temp_control_task logf hw s) = false.
Proof.
  intros Hp. unfold temp_control_task.
  destruct (read_ntc_temperature logf (s_cali_enabled s) hw) as [ok temp].
  destruct (F32.ge _ _); [reflexivity|].
  destruct ok; [rewrite Hp; reflexivity|exact Hp].
Qed.

Lemma apply_event_keeps_off (logf : float32 -> float32) (e : event)
  (w : system) :
  no_power_request e = true ->
  temp_control_get_power (control w) = false /\
  s_schedule_active (sched w) = false ->
  temp_control_get_power (control (apply_event logf e w)) = false /\
  s_schedule_active (sched (apply_event logf e w)) = false.
Proof.
  intros He [Hp Ha].
  destruct e as [now|c|minutes|time_str| | | |registered];
    cbn [apply_event]; try discriminate; try (split; assumption).
  - unfold scheduler_timer_callback.
    assert (Hc : countdown w = w)
      by (unfold countdown; now rewrite Hp, andb_false_r).
    rewrite Hc, appointment_spec.
    unfold appointment_due, armed_for. rewrite Ha. now split.
  - cbn [control sched]. split; [|exact Ha].
    destruct c as [hw|on|t]; cbn [step].
    + now apply task_keeps_power_off.
    + destruct on; [discriminate|reflexivity].
    + exact Hp.
  - unfold scheduler_set_timer_duration, with_sched.
    unfold temp_control_get_power in *. rewrite Hp. now split.
  - split; [exact Hp|reflexivity].
Qed.

(** X12: nothing but a request switches the heater on.
    From a state with power off and no active schedule, whatever ticks of
    the scheduler, passes of the control loop and other calls follow,
    power stays off as long as none of them is set_power(true) or
    set_schedule_time. *)
Theorem power_on_needs_request (logf : float32 -> float32)
  (es : list event) (w : system) :
  temp_control_get_power (control w) = false ->
  s_schedule_active (sched w) = false ->
  forallb no_power_request es = true ->
  temp_control_get_power (control (run_events logf es w)) = false /\
  s_schedule_active (sched (run_events logf es w)) = false.
Proof.
  intros Hp Ha. revert w Hp Ha.
  induction es as [|e es IH]; intros w Hp Ha Hes; [now split|].
  simpl in Hes. apply andb_prop in Hes. destruct Hes as [He Hes].
  destruct (apply_event_keeps_off logf e w He (conj Hp Ha)) as [Hp' Ha'].
  unfold run_events in *. simpl. now apply IH.
Qed.

(** ** The stored schedule time *)

Lemma stored_time_length (h m : Z) :
  0 <= h <= 23 -> 0 <= m <= 59 ->
  CString.strlen (CString.fmt_02d h ++ ":" ++ CString.fmt_02d m)%string = 5.
Proof.
  intros Hh Hm.
  set (ok := fun h' m' =>
         CString.strlen
           (CString.fmt_02d h' ++ ":" ++ CString.fmt_02d m')%string =? 5).
  assert (Hall : forallb (fun h' => forallb (ok h')
                                      (map Z.of_nat (seq 0 60)))
                   (map Z.of_nat (seq 0 24)) = true)
    by (vm_compute; reflexivity).
  rewrite forallb_forall in Hall.
  assert (Hin : In h (map Z.of_nat (seq 0 24))).
  { apply in_map_iff. exists (Z.to_nat h). split; [lia|].
    apply in_seq. lia. }
  specialize (Hall h Hin). rewrite forallb_forall in Hall.
  assert (Hin' : In m (map Z.of_nat (seq 0 60))).
  { apply in_map_iff. exists (Z.to_nat m). split; [lia|].
    apply in_seq. lia. }
  specialize (Hall m Hin'). unfold ok in Hall.
  now apply Z.eqb_eq in Hall.
Qed.

(** X13: the schedule time is stored in normal form.  For
    every string that set_schedule_time accepts as hour h and minute m,
    the string it stores (and get_schedule_time returns) is the
    five-character "HH:MM" print of h and m, which fits the six-byte
    buffer; the stored string parses back to the same h and m; and
    storing the stored string again changes nothing. *)
Theorem schedule_time_round_trip (time_str : string) (h m : Z)
  (w : system) :
  parse_schedule_time time_str = Some (h, m) ->
  let w' := scheduler_set_schedule_time (Some time_str) w in
  let stored := scheduler_get_schedule_time w' in
  stored = (CString.fmt_02d h ++ ":" ++ CString.fmt_02d m)%string /\
  CString.strlen stored = 5 /\
  parse_schedule_time stored = Some (h, m) /\
  scheduler_set_schedule_time (Some stored) w' = w'.
Proof.
  intros P w' stored.
  destruct (parse_schedule_time_range _ _ _ P) as [Hh Hm].
  assert (Hst : stored
                = (CString.fmt_02d h ++ ":" ++ CString.fmt_02d m)%string).
  { subst stored w'.
    unfold scheduler_get_schedule_time, scheduler_set_schedule_time,
      with_sched.
    rewrite P. reflexivity. }
  assert (Hp : parse_schedule_time stored = Some (h, m))
    by (rewrite Hst; now apply stored_time_parses).
  split; [exact Hst|].
  split; [rewrite Hst; now apply stored_time_length|].
  split; [exact Hp|].
  unfold scheduler_set_schedule_time at 1. rewrite Hp, <- Hst.
  subst stored w'.
  unfold scheduler_get_schedule_time, scheduler_set_schedule_time,
    with_sched.
  rewrite P. reflexivity.
Qed.

End WithPlatform.

Section Samples.

#[local] Existing Instance Target.saturating.

(** Power on, two minutes asked for: 119 ticks later one second is left,
    the next tick switches the heater off. *)
Lemma countdown_expires_on_time_witness :
  let w0 := run_events logf_at_1650mV [Control (SetPower true)]
              (startup true) in
  let w := scheduler_set_timer_duration 2 w0 in
  let nows := repeat (at_time 8 0) 119 in
  temp_control_get_power (control w0) = true /\
  Z.of_nat (List.length nows) = 60 * 2 - 1 /\
  armed_for (at_time 8 1) (sched w0) = false /\
  s_timer_seconds (sched (ticks nows w)) = 1 /\
  scheduler_get_state (ticks (nows ++ [at_time 8 1]) w)
  = SCHED_STATE_TIMEOUT /\
  temp_control_get_power (control (ticks (nows ++ [at_time 8 1]) w))
  = false /\
  timeout_calls (ticks (nows ++ [at_time 8 1]) w) = 1%nat.
Proof.
  cbv zeta.
  split; [reflexivity|]. split; [reflexivity|]. split; [reflexivity|].
  pose proof (countdown_expires_on_time 2
                (run_events logf_at_1650mV [Control (SetPower true)]
                   (startup true))
                (repeat (at_time 8 0) 119) (at_time 8 1)
                ltac:(vm_compute; reflexivity)
                ltac:(vm_compute; reflexivity)) as H.
  cbv zeta in H. destruct H as [(_ & H1 & _) H2].
  specialize (H2 ltac:(vm_compute; reflexivity) ltac:(vm_compute; reflexivity)).
  destruct H2 as (_ & _ & _ & H3 & H4 & _ & H5).
  rewrite ticks_snoc.
  split; [rewrite H1; reflexivity|].
  split; [exact H3|]. split; [exact H4|]. rewrite H5. reflexivity.
Defined.

(** A one-minute heating started by the appointment of 08:30 at 08:25 is
    over sixty ticks later. *)
Lemma running_timer_switches_off_witness :
  let es := [SetTimerDuration 1; SetScheduleTime (Some "08:30"%string);
             SchedulerTick (at_time 8 25)] in
  let w := run_events logf_at_1650mV es (startup true) in
  let nows := repeat (at_time 8 25) 59 in
  s_timer_running (sched w) = true /\
  temp_control_get_power (control w) = true /\
  Z.of_nat (List.length nows) = s_timer_seconds (sched w) - 1 /\
  armed_for (at_time 8 26) (sched w) = false /\
  temp_control_get_power
    (control (ticks (nows ++ [at_time 8 26]) w)) = false.
Proof.
  cbv zeta.
  split; [reflexivity|]. split; [reflexivity|]. split; [reflexivity|].
  split; [reflexivity|].
  apply (running_timer_switches_off logf_at_1650mV
           [SetTimerDuration 1; SetScheduleTime (Some "08:30"%string);
            SchedulerTick (at_time 8 25)] true
           (repeat (at_time 8 25) 59) (at_time 8 26)
           ltac:(vm_compute; reflexivity) ltac:(vm_compute; reflexivity)
           ltac:(vm_compute; reflexivity) ltac:(vm_compute; reflexivity)).
Defined.

(** Power switched on by a request, a schedule armed for 08:30: an hour
    of ticks across 08:25 changes nothing. *)
Lemma scheduler_inert_under_power_witness :
  let w := run_events logf_at_1650mV
             [SetScheduleTime (Some "08:30"%string);
              Control (SetPower true)] (startup true) in
  let nows := repeat (at_time 8 25) 60 ++ repeat (at_time 9 0) 3540 in
  temp_control_get_power (control w) = true /\
  s_timer_running (sched w) = false /\
  ticks nows w = w /\
  s_schedule_active (sched w) = true.
Proof.
  cbv zeta.
  split; [reflexivity|]. split; [reflexivity|].
  split; [|reflexivity].
  apply (scheduler_inert_under_power
           (run_events logf_at_1650mV
              [SetScheduleTime (Some "08:30"%string);
               Control (SetPower true)] (startup true))
           (repeat (at_time 8 25) 60 ++ repeat (at_time 9 0) 3540));
    reflexivity.
Defined.

(** A cancelled schedule: ticks at its time, a timer started and a good
    sensor reading do not switch power on. *)
Lemma power_on_needs_request_witness :
  let w := run_events logf_at_1650mV
             [SetScheduleTime (Some "08:30"%string); CancelSchedule]
             (startup true) in
  let es := [SchedulerTick (at_time 8 25); StartTimer;
             Control (Tick sample_25_degrees); SetTimerDuration 10;
             SchedulerTick (at_time 8 25); Control (SetPower false)] in
  temp_control_get_power (control w) = false /\
  s_schedule_active (sched w) = false /\
  forallb no_power_request es = true /\
  temp_control_get_power (control (run_events logf_at_1650mV es w))
  = false.
Proof.
  cbv zeta.
  split; [reflexivity|]. split; [reflexivity|]. split; [reflexivity|].
  apply (power_on_needs_request logf_at_1650mV
           [SchedulerTick (at_time 8 25); StartTimer;
            Control (Tick sample_25_degrees); SetTimerDuration 10;
            SchedulerTick (at_time 8 25); Control (SetPower false)]
           (run_events logf_at_1650mV
              [SetScheduleTime (Some "08:30"%string); CancelSchedule]
              (startup true))); reflexivity.
Defined.

(** A time written loosely, with a blank, one-digit fields and trailing
    text, is stored as 07:05. *)
Lemma schedule_time_round_trip_witness :
  let w := scheduler_set_schedule_time (Some " 7:5 am"%string)
             (startup true) in
  parse_schedule_time " 7:5 am"%string = Some (7, 5) /\
  scheduler_get_schedule_time w = "07:05"%string /\
  scheduler_set_schedule_time (Some "07:05"%string) w = w.
Proof.
  cbv zeta.
  split; [reflexivity|].
  destruct (schedule_time_round_trip " 7:5 am"%string 7 5 (startup true)
              ltac:(vm_compute; reflexivity)) as (H1 & _ & _ & H4).
  split; [exact H1|exact H4].
Defined.

End Samples.

End SchedulerMoreFacts.

(* ================================================================== *)
(** * Facts about the control loop under the scheduler *)
(* ================================================================== *)

Module SystemFacts.

Import TempControl Scheduler SchedulerFacts ControlChecks.
Import ControlMoreFacts SchedulerMoreFacts.

Section WithPlatform.

Context {plat : Target.Platform}.

Lemma run_app (logf : float32 -> float32) (cs1 cs2 : list call)
  (s : temp_control) :
  run logf (cs1 ++ cs2) s = run logf cs2 (run logf cs1 s).
Proof. unfold run. apply fold_left_app. Qed.

(** What an event does to the control loop is a list of calls of the
    control loop's own functions: the event's call if it is one of the
    control loop, else nothing but set_power. *)
Lemma apply_event_calls (logf : float32 -> float32) (e : event)
  (w : system) :
  exists cs,
    control (apply_event logf e w) = run logf cs (control w) /\
    Forall (fun c => (exists on, c = SetPower on) \/ e = Control c) cs.
Proof.
  destruct e as [now|c|minutes|time_str| | | |registered];
    cbn [apply_event].
  - unfold scheduler_timer_callback. rewrite appointment_spec.
    assert (Hc : exists cs1,
               control (countdown w) = run logf cs1 (control w) /\
               Forall (fun c => (exists on, c = SetPower on)
                                \/ SchedulerTick now = Control c) cs1).
    { unfold countdown.
      destruct (s_timer_running (sched w)
                && temp_control_get_power (control w));
        [|exists []; now split].
      destruct (s_timer_seconds (sched w) - 1 <=? 0).
      - exists [SetPower false]. split; [reflexivity|].
        constructor; [left; now exists false|constructor].
      - exists []. now split. }
    destruct Hc as (cs1 & Hc1 & Hf1).
    destruct (appointment_due now (countdown w)).
    + exists (cs1 ++ [SetPower true]). split.
      * rewrite run_app, <- Hc1. reflexivity.
      * apply Forall_app. split; [exact Hf1|].
        constructor; [left; now exists true|constructor].
    + exists cs1. now split.
  - exists [c]. split; [reflexivity|].
    constructor; [now right|constructor].
  - exists []. split; [|constructor].
    unfold scheduler_set_timer_duration, with_sched.
    now destruct (temp_control_get_power (control w)).
  - exists []. split; [|constructor].
    unfold scheduler_set_schedule_time.
    destruct time_str as [str|]; [|reflexivity].
    now destruct (parse_schedule_time str) as [[h m]|].
  - exists []. now split.
  - exists []. now split.
  - exists []. now split.
  - exists []. now split.
Qed.

Lemma run_events_snoc (logf : float32 -> float32) (es : list event)
  (e : event) (w : system) :
  run_events logf (es ++ [e]) w
  = apply_event logf e (run_events logf es w).
Proof. unfold run_events. now rewrite fold_left_app. Qed.

Lemma run_events_calls (logf : float32 -> float32) (es : list event)
  (w : system) :
  exists cs,
    control (run_events logf es w) = run logf cs (control w) /\
    Forall (fun c => (exists on, c = SetPower on) \/ In (Control c) es) cs.
Proof.
  induction es as [|e es IH] using rev_ind.
  - exists []. now split.
  - destruct IH as (cs & Hc & Hf).
    destruct (apply_event_calls logf e (run_events logf es w))
      as (cs' & Hc' & Hf').
    exists (cs ++ cs'). split.
    + rewrite run_events_snoc, Hc', Hc, run_app. reflexivity.
    + apply Forall_app. split.
      * eapply Forall_impl; [|exact Hf].
        intros c [H|H]; [now left|right].
        apply in_or_app. now left.
      * eapply Forall_impl; [|exact Hf'].
        intros c [H|H]; [now left|right].
        apply in_or_app. right. subst e. now left.
Qed.

(** X14: the scheduler reaches the heater only through the
    control loop's set_power.  After any sequence of scheduler ticks,
    control-loop passes and calls of either component from start-up, the
    control loop is in the state that a sequence of its own calls leaves:
    the passes and calls of the sequence itself, and calls of set_power
    (by an expiring countdown or a firing appointment).  So what holds in
    every reachable state of the control loop holds under the scheduler:
    the heater's duty is zero unless power is on, the sensor good and the
    temperature below the hard limit; the mode agrees with the flags; and
    the target temperature is within [30, 90]. *)
Theorem scheduler_acts_through_set_power (logf : float32 -> float32)
  (cali : bool) (es : list event) :
  let w := run_events logf es (startup cali) in
  (exists cs,
     control w = run logf cs (temp_control_init cali) /\
     Forall (fun c => (exists on, c = SetPower on) \/ In (Control c) es)
       cs) /\
  heater_interlocked (control w) = true /\
  mode_consistent (control w) = true /\
  CONFIG_TEMP_MIN <= temp_control_get_target_temp (control w)
  <= CONFIG_TEMP_MAX.
Proof.
  intros w.
  destruct (run_events_calls logf es (startup cali)) as (cs & Hc & Hf).
  fold w in Hc. change (control (startup cali))
    with (temp_control_init cali) in Hc.
  split; [exists cs; now split|].
  rewrite Hc. split; [|split].
  - apply (run_invariant logf (fun s => heater_interlocked s = true));
      [apply step_heater_interlocked|reflexivity].
  - apply (run_invariant logf (fun s => mode_consistent s = true));
      [apply step_mode_consistent|reflexivity].
  - apply (run_invariant logf
             (fun s => CONFIG_TEMP_MIN <= s_target_temp s
                       <= CONFIG_TEMP_MAX));
      [apply step_target_range|].
    unfold CONFIG_TEMP_MIN, CONFIG_TEMP_MAX. simpl. lia.
Qed.

End WithPlatform.

End SystemFacts.

(* ================================================================== *)
(** * Facts about the software clock *)
(* ================================================================== *)

Module SoftRtcFacts.

Import SoftRtc.

Lemma days_in_month_range (y m : Z) :
  1 <= m <= 12 ->
  exists len, days_in_month y m = Some len /\ 28 <= len <= 31.
Proof.
  intros Hm. unfold days_in_month.
  assert (Hc : m = 1 \/ m = 2 \/ m = 3 \/ m = 4 \/ m = 5 \/ m = 6 \/ m = 7
               \/ m = 8 \/ m = 9 \/ m = 10 \/ m = 11 \/ m = 12) by lia.
  destruct (is_leap_year y);
    repeat (destruct Hc as [->|Hc]; [simpl; eexists; split;
                                      [reflexivity|lia]|]);
    subst; simpl; eexists; split; try reflexivity; lia.
Qed.

(** Unfold [valid_time] into its inequalities. *)
Lemma valid_time_inv (t : rtc_time_t) :
  valid_time t = true ->
  0 <= second t < 60 /\ 0 <= minute t < 60 /\ 0 <= hour t < 24 /\
  1 <= month t <= 12 /\ 1 <= weekday t <= 7 /\
  exists len, days_in_month (year t) (month t) = Some len /\
              1 <= day t <= len /\ 28 <= len <= 31.
Proof.
  unfold valid_time. intros H.
  repeat (apply andb_prop in H; destruct H as [H ?]).
  repeat match goal with
         | H : (_ <=? _) = true |- _ => apply Z.leb_le in H
         | H : (_ <? _) = true |- _ => apply Z.ltb_lt in H
         end.
  repeat split; try lia.
  destruct (days_in_month_range (year t) (month t) ltac:(lia))
    as (len & Hlen & Hr).
  rewrite Hlen in *. exists len.
  match goal with
  | H : (_ <=? _) = true |- _ => apply Z.leb_le in H
  end.
  repeat split; try reflexivity; lia.
Qed.

Lemma valid_time_intro (t : rtc_time_t) (len : Z) :
  0 <= second t < 60 -> 0 <= minute t < 60 -> 0 <= hour t < 24 ->
  1 <= month t <= 12 -> 1 <= weekday t <= 7 ->
  days_in_month (year t) (month t) = Some len -> 1 <= day t <= len ->
  valid_time t = true.
Proof.
  intros Hs Hm Hh Hmo Hw Hlen Hd. unfold valid_time. rewrite Hlen.
  repeat (apply andb_true_intro; split);
    try (apply Z.leb_le; lia); try (apply Z.ltb_lt; lia).
Qed.

(** Decide the integer comparisons a goal branches on, keeping each
    outcome as an inequality. *)
Ltac split_tests :=
  repeat match goal with
         | |- context [?a <=? ?b] =>
             let E := fresh "E" in
             destruct (a <=? b) eqn:E;
             [apply Z.leb_le in E|apply Z.leb_gt in E]
         | |- context [?a <? ?b] =>
             let E := fresh "E" in
             destruct (a <? b) eqn:E;
             [apply Z.ltb_lt in E|apply Z.ltb_ge in E]
         | |- context [?a =? ?b] =>
             let E := fresh "E" in
             destruct (a =? b) eqn:E;
             [apply Z.eqb_eq in E|apply Z.eqb_neq in E]
         end.

Lemma incr_small (x : Z) : x < INT_MAX -> incr x = Some (x + 1).
Proof.
  intros H. unfold incr.
  destruct (x <? INT_MAX) eqn:E; [reflexivity|].
  apply Z.ltb_ge in E. lia.
Qed.

(** One second on a time of the calendar: what the callback computes, as
    a case table on the seconds of the day and the day of the month. *)
Lemma callback_cases (t : rtc_time_t) :
  valid_time t = true -> year t < INT_MAX ->
  exists t' len,
    rtc_timer_callback t = Some t' /\
    days_in_month (year t) (month t) = Some len /\
    ((second_of_day t < 86399 /\
      second_of_day t' = second_of_day t + 1 /\
      year t' = year t /\ month t' = month t /\ day t' = day t /\
      weekday t' = weekday t /\
      0 <= second t' < 60 /\ 0 <= minute t' < 60 /\ 0 <= hour t' < 24)
     \/
     (second_of_day t = 86399 /\
      hour t' = 0 /\ minute t' = 0 /\ second t' = 0 /\
      weekday t' = (if weekday t =? 7 then 1 else weekday t + 1) /\
      ((day t < len /\ year t' = year t /\ month t' = month t /\
        day t' = day t + 1)
       \/ (day t = len /\ month t < 12 /\ year t' = year t /\
           month t' = month t + 1 /\ day t' = 1)
       \/ (day t = len /\ month t = 12 /\ year t' = year t + 1 /\
           month t' = 1 /\ day t' = 1)))).
Proof.
  intros Hv Hy.
  destruct (valid_time_inv t Hv)
    as (Hs & Hm & Hh & Hmo & Hw & len & Hlen & Hd & Hr).
  unfold rtc_timer_callback, second_of_day.
  assert (Hmax : INT_MAX = 2147483647) by reflexivity.
  rewrite (incr_small (second t)), (incr_small (minute t)),
    (incr_small (hour t)), (incr_small (day t)),
    (incr_small (weekday t)), (incr_small (month t)),
    (incr_small (year t)), Hlen by lia.
  destruct (60 <=? second t + 1) eqn:E1;
    [apply Z.leb_le in E1|apply Z.leb_gt in E1];
    [destruct (60 <=? minute t + 1) eqn:E2;
     [apply Z.leb_le in E2|apply Z.leb_gt in E2];
     [destruct (24 <=? hour t + 1) eqn:E3;
      [apply Z.leb_le in E3|apply Z.leb_gt in E3];
      [destruct (len <? day t + 1) eqn:E4;
       [apply Z.ltb_lt in E4|apply Z.ltb_ge in E4];
       [destruct (12 <? month t + 1) eqn:E5;
        [apply Z.ltb_lt in E5|apply Z.ltb_ge in E5]| ]| ]| ]| ];
    eexists; exists len; (split; [reflexivity|]); (split; [reflexivity|]);
    cbn [year month day hour minute second weekday].
  - right. split; [lia|]. repeat (split; [reflexivity|]).
    split; [split_tests; lia|]. right. right. repeat split; lia.
  - right. split; [lia|]. repeat (split; [reflexivity|]).
    split; [split_tests; lia|]. right. left. repeat split; lia.
  - right. split; [lia|]. repeat (split; [reflexivity|]).
    split; [split_tests; lia|]. left. repeat split; lia.
  - left. repeat split; lia.
  - left. repeat split; lia.
  - left. repeat split; lia.
Qed.

(** The callback keeps the clock on the calendar: from a valid time it
    reads inside the table of month lengths and leaves a valid time. *)
Lemma callback_valid (t : rtc_time_t) :
  valid_time t = true -> year t < INT_MAX ->
  exists t', rtc_timer_callback t = Some t' /\ valid_time t' = true /\
             year t' <= year t + 1.
Proof.
  intros Hv Hy.
  destruct (valid_time_inv t Hv)
    as (Hs & Hm & Hh & Hmo & Hw & len0 & Hlen0 & Hd & Hr).
  destruct (callback_cases t Hv Hy) as (t' & len & Ht & Hlen & Hc).
  rewrite Hlen in Hlen0. injection Hlen0 as <-.
  exists t'. split; [exact Ht|].
  destruct Hc as [(_ & _ & Hy' & Hmon & Hday & Hwd & Hs' & Hm' & Hh')
                 |(_ & Hh' & Hm' & Hs' & Hwd & Hdate)].
  - split; [|lia].
    apply (valid_time_intro t' len); try lia.
    now rewrite Hy', Hmon.
  - assert (Hw' : 1 <= weekday t' <= 7)
      by (rewrite Hwd; destruct (weekday t =? 7) eqn:E; lia).
    destruct Hdate as [(Hlt & Hy' & Hmon & Hday)
                      |[(Heq & Hlt & Hy' & Hmon & Hday)
                       |(Heq & Hdec & Hy' & Hmon & Hday)]];
      (split; [|lia]).
    + apply (valid_time_intro t' len); try lia. now rewrite Hy', Hmon.
    + destruct (days_in_month_range (year t') (month t') ltac:(lia))
        as (len' & Hlen' & Hr').
      apply (valid_time_intro t' len'); try lia. exact Hlen'.
    + destruct (days_in_month_range (year t') (month t') ltac:(lia))
        as (len' & Hlen' & Hr').
      apply (valid_time_intro t' len'); try lia. exact Hlen'.
Qed.

Lemma callback_date_rank (t t' : rtc_time_t) (len : Z) :
  days_in_month (year t) (month t) = Some len ->
  1 <= day t <= len -> 28 <= len <= 31 -> 1 <= month t <= 12 ->
  (day t < len /\ year t' = year t /\ month t' = month t /\
   day t' = day t + 1)
  \/ (day t = len /\ month t < 12 /\ year t' = year t /\
      month t' = month t + 1 /\ day t' = 1)
  \/ (day t = len /\ month t = 12 /\ year t' = year t + 1 /\
      month t' = 1 /\ day t' = 1) ->
  date_rank t < date_rank t'.
Proof.
  intros _ Hd Hr Hm H. unfold date_rank.
  destruct H as [(? & -> & -> & ->)|[(? & ? & -> & -> & ->)
                                   |(? & ? & -> & -> & ->)]]; lia.
Qed.

(** The clock after [n] callbacks from a valid time: no callback fails,
    the time stays valid, and the time of day is the old one plus [n]
    seconds modulo a day. *)
Lemma rtc_run_valid (n : nat) (t : rtc_time_t) :
  valid_time t = true ->
  year t + Z.of_nat n <= INT_MAX ->
  exists t',
    rtc_run n t = Some t' /\ valid_time t' = true /\
    second_of_day t' = (second_of_day t + Z.of_nat n) mod 86400.
Proof.
  revert t. induction n as [|n IH]; intros t Hv Hy.
  - destruct (valid_time_inv t Hv) as (Hs & Hm & Hh & _).
    exists t. simpl. rewrite Z.add_0_r.
    rewrite Z.mod_small by (unfold second_of_day; lia). now repeat split.
  - rewrite Nat2Z.inj_succ in Hy. unfold Z.succ in Hy.
    assert (Hy0 : year t < INT_MAX) by lia.
    destruct (callback_valid t Hv Hy0) as (t1 & Ht1 & Hv1 & Hy1).
    destruct (callback_cases t Hv Hy0) as (t1' & len & Ht1' & _ & Hc).
    rewrite Ht1 in Ht1'. injection Ht1' as <-.
    destruct (IH t1 Hv1 ltac:(lia)) as (t' & Hrun & Hv' & Hsod).
    exists t'. cbn [rtc_run]. rewrite Ht1.
    split; [exact Hrun|]. split; [exact Hv'|].
    rewrite Hsod, Nat2Z.inj_succ. unfold Z.succ.
    destruct Hc as [(_ & Hs1 & _)|(Heq & Hh0 & Hm0 & Hs0 & _)].
    + rewrite Hs1. f_equal. lia.
    + assert (Hs1 : second_of_day t1 = 0)
        by (unfold second_of_day; rewrite Hh0, Hm0, Hs0; reflexivity).
      rewrite Hs1, Heq.
      replace (86399 + (Z.of_nat n + 1)) with (Z.of_nat n + 1 * 86400)
        by lia.
      now rewrite Z.mod_add by lia.
Qed.

(** X15: the clock after [n] callbacks from a valid time,
    as long as the year stays an [int].  No callback overflows or reads
    outside the table of month lengths, and the time stays valid; the
    time of day is the old one plus [n] seconds modulo a day; the weekday
    has moved on by the number of midnights passed, cyclically from 7 to
    1; and the time, read as date and time of day, has grown by at least
    [n] seconds, so the clock never runs backwards. *)
Theorem clock_after_seconds (n : nat) (t : rtc_time_t) :
  valid_time t = true ->
  year t + Z.of_nat n <= INT_MAX ->
  exists t',
    rtc_run n t = Some t' /\ valid_time t' = true /\
    second_of_day t' = (second_of_day t + Z.of_nat n) mod 86400 /\
    weekday t'
    = (weekday t - 1 + (second_of_day t + Z.of_nat n) / 86400) mod 7 + 1 /\
    date_rank t * 86400 + second_of_day t + Z.of_nat n
    <= date_rank t' * 86400 + second_of_day t'.
Proof.
  revert t. induction n as [|n IH]; intros t Hv Hy.
  - destruct (valid_time_inv t Hv)
      as (Hs & Hm & Hh & Hmo & Hw & len & Hlen & Hd & Hr).
    exists t. simpl. rewrite Z.add_0_r.
    assert (Hsod : 0 <= second_of_day t < 86400)
      by (unfold second_of_day; lia).
    rewrite (Z.mod_small _ _ Hsod), (Z.div_small _ _ Hsod), Z.add_0_r.
    rewrite (Z.mod_small (weekday t - 1) 7) by lia.
    repeat split; try reflexivity; try assumption; lia.
  - rewrite Nat2Z.inj_succ in Hy. unfold Z.succ in Hy.
    assert (Hy0 : year t < INT_MAX) by lia.
    destruct (valid_time_inv t Hv)
      as (Hs & Hm & Hh & Hmo & Hw & len0 & Hlen0 & Hd & Hr).
    destruct (callback_valid t Hv Hy0) as (t1 & Ht1 & Hv1 & Hy1).
    destruct (callback_cases t Hv Hy0) as (t1' & len & Ht1' & Hlen & Hc).
    rewrite Ht1 in Ht1'. injection Ht1' as <-.
    rewrite Hlen in Hlen0. injection Hlen0 as <-.
    destruct (IH t1 Hv1 ltac:(lia)) as (t' & Hrun & Hv' & Hsod & Hwd & Hrank).
    exists t'. cbn [rtc_run]. rewrite Ht1.
    split; [exact Hrun|]. split; [exact Hv'|].
    rewrite Nat2Z.inj_succ. unfold Z.succ.
    destruct Hc as [(Hlt & Hs1 & Hy' & Hmon & Hday & Hwd1 & _)
                   |(Heq & Hh0 & Hm0 & Hs0 & Hwd1 & Hdate)].
    + assert (Hdr : date_rank t1 = date_rank t)
        by (unfold date_rank; now rewrite Hy', Hmon, Hday).
      rewrite Hs1, Hwd1 in *. rewrite Hdr in Hrank.
      replace (second_of_day t + (Z.of_nat n + 1))
        with (second_of_day t + 1 + Z.of_nat n) by lia.
      repeat split; try assumption. lia.
    + assert (Hdr := callback_date_rank t t1 len Hlen Hd Hr Hmo Hdate).
      assert (Hs1 : second_of_day t1 = 0)
        by (unfold second_of_day; rewrite Hh0, Hm0, Hs0; reflexivity).
      rewrite Hs1 in *. rewrite Heq.
      replace (86399 + (Z.of_nat n + 1)) with (Z.of_nat n + 1 * 86400)
        by lia.
      rewrite Z.mod_add, Z.div_add by lia.
      simpl in Hsod, Hwd.
      split; [exact Hsod|]. split.
      * rewrite Hwd, Hwd1.
        destruct (weekday t =? 7) eqn:E7;
          [apply Z.eqb_eq in E7|apply Z.eqb_neq in E7].
        -- rewrite E7.
           replace (7 - 1 + (Z.of_nat n / 86400 + 1))
             with (1 - 1 + Z.of_nat n / 86400 + 1 * 7) by lia.
           now rewrite Z.mod_add by lia.
        -- f_equal. f_equal. lia.
      * simpl in Hrank. lia.
Qed.

(** A minute across the midnight before a leap day: from Wednesday
    2024-02-28 23:59:30 to Thursday 2024-02-29 00:00:30. *)
Lemma clock_after_seconds_witness :
  let t := {| year := 2024; month := 2; day := 28;
              hour := 23; minute := 59; second := 30; weekday := 3 |} in
  valid_time t = true /\
  year t + Z.of_nat 60 <= INT_MAX /\
  rtc_run 60 t
  = Some {| year := 2024; month := 2; day := 29;
            hour := 0; minute := 0; second := 30; weekday := 4 |}.
Proof.
  cbv zeta. split; [reflexivity|]. split; [discriminate|].
  destruct (clock_after_seconds 60
              {| year := 2024; month := 2; day := 28;
                 hour := 23; minute := 59; second := 30; weekday := 3 |}
              eq_refl ltac:(discriminate)) as (t' & _).
  reflexivity.
Defined.

(** ** Times that are no times of the calendar *)

(** Before the last second of a day the callback only advances the time
    of day; the date is not looked at. *)
Lemma callback_same_day (t : rtc_time_t) :
  0 <= second t < 60 -> 0 <= minute t < 60 -> 0 <= hour t < 24 ->
  second_of_day t < 86399 ->
  exists t',
    rtc_timer_callback t = Some t' /\
    second_of_day t' = second_of_day t + 1 /\
    0 <= second t' < 60 /\ 0 <= minute t' < 60 /\ 0 <= hour t' < 24 /\
    year t' = year t /\ month t' = month t /\ day t' = day t /\
    weekday t' = weekday t.
Proof.
  intros Hs Hm Hh Hsod. unfold rtc_timer_callback, second_of_day in *.
  assert (Hmax : INT_MAX = 2147483647) by reflexivity.
  rewrite (incr_small (second t)), (incr_small (minute t)),
    (incr_small (hour t)) by lia.
  destruct (60 <=? second t + 1) eqn:E1;
    [apply Z.leb_le in E1|apply Z.leb_gt in E1];
    [destruct (60 <=? minute t + 1) eqn:E2;
     [apply Z.leb_le in E2|apply Z.leb_gt in E2];
     [destruct (24 <=? hour t + 1) eqn:E3;
      [apply Z.leb_le in E3; lia|apply Z.leb_gt in E3]| ]| ];
    eexists; (split; [reflexivity|]);
    cbn [year month day hour minute second weekday];
    repeat split; lia.
Qed.

Lemma run_to_last_second (k : nat) :
  forall t,
  0 <= second t < 60 -> 0 <= minute t < 60 -> 0 <= hour t < 24 ->
  second_of_day t + Z.of_nat k = 86399 ->
  exists t',
    rtc_run k t = Some t' /\
    hour t' = 23 /\ minute t' = 59 /\ second t' = 59 /\
    year t' = year t /\ month t' = month t /\ day t' = day t /\
    weekday t' = weekday t.
Proof.
  induction k as [|k IH]; intros t Hs Hm Hh Hk.
  - exists t. simpl. unfold second_of_day in Hk.
    repeat split; try reflexivity; lia.
  - rewrite Nat2Z.inj_succ in Hk. unfold Z.succ in Hk.
    destruct (callback_same_day t Hs Hm Hh ltac:(lia))
      as (t1 & Ht1 & Hsod & Hs1 & Hm1 & Hh1 & Hy & Hmo & Hd & Hw).
    destruct (IH t1 Hs1 Hm1 Hh1 ltac:(lia))
      as (t' & Hrun & H1 & H2 & H3 & H4 & H5 & H6 & H7).
    exists t'. cbn [rtc_run]. rewrite Ht1.
    repeat split; try assumption; congruence.
Qed.

(** At the last second of a day the callback looks up the length of the
    month: outside the table when the month is not between 0 and 12. *)
Lemma callback_outside_table (t : rtc_time_t) :
  hour t = 23 -> minute t = 59 -> second t = 59 ->
  month t < 0 \/ 12 < month t ->
  rtc_timer_callback t = None.
Proof.
  intros Hh Hm Hs Hmo. unfold rtc_timer_callback.
  rewrite Hh, Hm, Hs. cbn [incr Z.ltb Z.compare Pos.compare
                            Pos.compare_cont Z.add Pos.add Pos.succ
                            Z.leb].
  destruct (incr (day t)) as [day1|]; [|reflexivity].
  destruct (incr (weekday t)) as [weekday1|]; [|reflexivity].
  unfold days_in_month.
  assert (E2 : (month t =? 2) = false) by (apply Z.eqb_neq; lia).
  rewrite E2. cbn [andb].
  destruct (0 <=? month t) eqn:E0;
    [apply Z.leb_le in E0|reflexivity].
  destruct (month t <=? 12) eqn:E12;
    [apply Z.leb_le in E12; lia|reflexivity].
Qed.

End SoftRtcFacts.

(* ================================================================== *)
(** * Facts about the clock and the scheduler together *)
(* ================================================================== *)

Module ClockedFacts.

Import TempControl Scheduler SchedulerFacts SoftRtcFacts Clocked.

Section WithPlatform.

Context {plat : Target.Platform}.

(** The first index from 1 at which a test holds, if it holds at all up
    to a bound. *)
Lemma first_true (f : nat -> bool) (b : nat) :
  (forall k, (1 <= k <= b)%nat -> f k = false)
  \/ exists n, (1 <= n <= b)%nat /\ f n = true /\
               forall k, (1 <= k < n)%nat -> f k = false.
Proof.
  induction b as [|b [IH|(n & Hn & Hf & Hlt)]].
  - left. intros k Hk. lia.
  - destruct (f (S b)) eqn:E.
    + right. exists (S b). split; [lia|]. split; [exact E|].
      intros k Hk. apply IH. lia.
    + left. intros k Hk.
      destruct (Nat.eq_dec k (S b)) as [->|Hne]; [exact E|].
      apply IH. lia.
  - right. exists n. split; [lia|]. now split.
Qed.

Lemma rtc_run_step (k : nat) (t t1 : SoftRtc.rtc_time_t) :
  SoftRtc.rtc_timer_callback t = Some t1 ->
  SoftRtc.rtc_run (S k) t = SoftRtc.rtc_run k t1.
Proof. intros H. cbn [SoftRtc.rtc_run]. now rewrite H. Qed.

(** While no appointment is due and power is off, the scheduler's state
    stands still under the running clock. *)
Lemma seconds_idle (n : nat) :
  forall (t tn : SoftRtc.rtc_time_t) (w : system),
  temp_control_get_power (control w) = false ->
  (forall k, (1 <= k <= n)%nat -> due_after t w k = false) ->
  SoftRtc.rtc_run n t = Some tn ->
  seconds n (t, w) = Some (tn, w).
Proof.
  induction n as [|n IH]; intros t tn w Hp Hdue Hrun.
  - simpl in *. now injection Hrun as ->.
  - cbn [SoftRtc.rtc_run] in Hrun. cbn [seconds]. unfold second_pass.
    cbn [fst snd].
    destruct (SoftRtc.rtc_timer_callback t) as [t1|] eqn:Ht1;
      [|discriminate].
    assert (H1 : due_after t w 1 = false) by (apply Hdue; lia).
    unfold due_after in H1. cbn [SoftRtc.rtc_run] in H1.
    rewrite Ht1 in H1.
    assert (Htick : scheduler_timer_callback (clock_reading t1) w = w).
    { apply tick_power_off; [exact Hp|].
      unfold appointment_due in H1. rewrite Hp in H1.
      now rewrite andb_true_r in H1. }
    rewrite Htick. apply IH; [exact Hp| |exact Hrun].
    intros k Hk. specialize (Hdue (S k) ltac:(lia)).
    unfold due_after in *. now rewrite (rtc_run_step k t t1 Ht1) in Hdue.
Qed.

Lemma seconds_app (n m : nat) :
  forall st st1,
  seconds n st = Some st1 -> seconds (n + m) st = seconds m st1.
Proof.
  induction n as [|n IH]; intros st st1 H.
  - simpl in *. now injection H as ->.
  - cbn [seconds Nat.add] in *.
    destruct (second_pass st) as [st'|]; [|discriminate].
    now apply IH.
Qed.

Lemma rtc_run_app (n m : nat) :
  forall t t1,
  SoftRtc.rtc_run n t = Some t1 ->
  SoftRtc.rtc_run (n + m) t = SoftRtc.rtc_run m t1.
Proof.
  induction n as [|n IH]; intros t t1 H.
  - simpl in *. now injection H as ->.
  - cbn [SoftRtc.rtc_run Nat.add] in *.
    destruct (SoftRtc.rtc_timer_callback t) as [t'|]; [|discriminate].
    now apply IH.
Qed.

(** The minute of the day of a valid time is its second of the day over
    sixty. *)
Lemma minute_of_day (t : SoftRtc.rtc_time_t) :
  SoftRtc.valid_time t = true ->
  SoftRtc.hour t * 60 + SoftRtc.minute t = SoftRtc.second_of_day t / 60.
Proof.
  intros Hv.
  destruct (valid_time_inv t Hv) as (Hs & Hm & Hh & _).
  unfold SoftRtc.second_of_day.
  replace (SoftRtc.hour t * 3600 + SoftRtc.minute t * 60 + SoftRtc.second t)
    with (SoftRtc.second t + (SoftRtc.hour t * 60 + SoftRtc.minute t) * 60)
    by lia.
  rewrite Z.div_add by lia. rewrite Z.div_small by lia. lia.
Qed.

(** X16: an armed appointment fires within a day.  Let the
    clock hold a valid time and tick every second, the scheduler's tick
    following the clock's, with power off, a schedule active whose stored
    time reads h:m, and nothing else happening.  Then there is a second
    n, at most 86400 seconds away, at which the scheduler switches power
    on, starts the countdown with the configured duration and disarms the
    schedule; the clock then reads the minute h:m less the preheat lead
    (modulo a day); and up to that second the scheduler and the control
    loop are left as they were. *)
Theorem appointment_fires_within_a_day (t : SoftRtc.rtc_time_t)
  (w : system) (h m : Z) :
  SoftRtc.valid_time t = true ->
  SoftRtc.year t + 86400 <= SoftRtc.INT_MAX ->
  temp_control_get_power (control w) = false ->
  s_schedule_active (sched w) = true ->
  parse_schedule_time (s_schedule_time (sched w)) = Some (h, m) ->
  exists (n : nat) (t' : SoftRtc.rtc_time_t),
    1 <= Z.of_nat n <= 86400 /\
    seconds n (t, w) = Some (t', trigger w) /\
    SoftRtc.rtc_run n t = Some t' /\
    SoftRtc.hour t' * 60 + SoftRtc.minute t'
    = (h * 60 + m - CONFIG_PREHEAT_TIME_MINUTES) mod 1440 /\
    forall k, (k < n)%nat ->
      exists tk, seconds k (t, w) = Some (tk, w).
Proof.
  intros Hv Hy Hp Ha P.
  set (S0 := (h * 60 + m - CONFIG_PREHEAT_TIME_MINUTES) mod 1440).
  assert (HS0 : 0 <= S0 < 1440) by (apply Z.mod_pos_bound; lia).
  assert (Hdue : forall k tk,
             SoftRtc.rtc_run k t = Some tk ->
             appointment_due (clock_reading tk) w
             = (SoftRtc.hour tk * 60 + SoftRtc.minute tk =? S0)).
  { intros k tk _. unfold appointment_due, armed_for, clock_reading.
    rewrite Ha, P, Hp. cbn [hour minute SoftRtc.soft_rtc_get_time andb negb].
    now rewrite andb_true_r. }
  destruct (valid_time_inv t Hv) as (Hs & Hm & Hh & _).
  assert (Hsod : 0 <= SoftRtc.second_of_day t < 86400)
    by (unfold SoftRtc.second_of_day; lia).
  (* a second at which the appointment is due *)
  set (d := (S0 * 60 - SoftRtc.second_of_day t) mod 86400).
  assert (Hd : 0 <= d < 86400) by (apply Z.mod_pos_bound; lia).
  set (k0 := if d =? 0 then 86400 else d).
  assert (Hk0 : 1 <= k0 <= 86400)
    by (unfold k0; destruct (d =? 0) eqn:E;
        [lia|apply Z.eqb_neq in E; lia]).
  assert (Hmod : (SoftRtc.second_of_day t + k0) mod 86400 = S0 * 60).
  { assert (Hd' : (SoftRtc.second_of_day t + d) mod 86400 = S0 * 60).
    { unfold d. rewrite Zplus_mod_idemp_r.
      replace (SoftRtc.second_of_day t
               + (S0 * 60 - SoftRtc.second_of_day t)) with (S0 * 60) by lia.
      apply Z.mod_small. lia. }
    unfold k0. destruct (d =? 0) eqn:E; [|exact Hd'].
    apply Z.eqb_eq in E. rewrite E, Z.add_0_r in Hd'.
    replace (SoftRtc.second_of_day t + 86400)
      with (SoftRtc.second_of_day t + 1 * 86400) by lia.
    now rewrite Z.mod_add by lia. }
  assert (Hf0 : due_after t w (Z.to_nat k0) = true).
  { unfold due_after.
    destruct (rtc_run_valid (Z.to_nat k0) t Hv ltac:(lia))
      as (tk & Hrun & Hvk & Hsk).
    rewrite Hrun, (Hdue _ _ Hrun), (minute_of_day tk Hvk), Hsk.
    rewrite Z2Nat.id by lia. rewrite Hmod, Z.div_mul by lia.
    apply Z.eqb_refl. }
  destruct (first_true (due_after t w) (Z.to_nat k0))
    as [Hnone|(n & Hn & Hfn & Hbefore)].
  { rewrite Hnone in Hf0 by lia. discriminate. }
  assert (Hpos : exists n', n = S n') by (exists (pred n); lia).
  destruct Hpos as [n' ->].
  destruct (rtc_run_valid n' t Hv ltac:(lia))
    as (tn' & Hrun' & Hvn').
  assert (Hidle : seconds n' (t, w) = Some (tn', w)).
  { apply seconds_idle; [exact Hp| |exact Hrun'].
    intros k Hk. apply Hbefore. lia. }
  destruct (rtc_run_valid (S n') t Hv ltac:(lia))
    as (t' & Hrun & Hvn).
  assert (Hstep : SoftRtc.rtc_timer_callback tn' = Some t').
  { replace (S n') with (n' + 1)%nat in Hrun by lia.
    rewrite (rtc_run_app n' 1 t tn' Hrun') in Hrun.
    cbn [SoftRtc.rtc_run] in Hrun.
    destruct (SoftRtc.rtc_timer_callback tn'); [exact Hrun|discriminate]. }
  unfold due_after in Hfn. rewrite Hrun in Hfn.
  exists (S n'), t'. split; [lia|]. split.
  - replace (S n') with (n' + 1)%nat by lia.
    rewrite (seconds_app n' 1 _ _ Hidle).
    cbn [seconds]. unfold second_pass. cbn [fst snd]. rewrite Hstep.
    unfold scheduler_timer_callback.
    assert (Hc : countdown w = w)
      by (unfold countdown; now rewrite Hp, andb_false_r).
    now rewrite Hc, appointment_spec, Hfn.
  - split; [exact Hrun|]. split.
    + rewrite (Hdue _ _ Hrun) in Hfn. now apply Z.eqb_eq in Hfn.
    + intros k Hk.
      destruct (rtc_run_valid k t Hv ltac:(lia))
        as (tk & Hrunk & _).
      exists tk. apply seconds_idle; [exact Hp| |exact Hrunk].
      intros j Hj. apply Hbefore. lia.
Qed.

End WithPlatform.

Section Samples.

#[local] Existing Instance Target.saturating.

(** The clock as it starts, 2025-01-01 00:00:00, and a schedule for
    00:02: the heater is switched on at 23:57 of that day. *)
Lemma appointment_fires_within_a_day_witness :
  let w := scheduler_set_schedule_time (Some "00:02"%string)
             (startup true) in
  SoftRtc.valid_time SoftRtc.s_current_time_init = true /\
  temp_control_get_power (control w) = false /\
  s_schedule_active (sched w) = true /\
  parse_schedule_time (s_schedule_time (sched w)) = Some (0, 2) /\
  exists (n : nat) (t' : SoftRtc.rtc_time_t),
    1 <= Z.of_nat n <= 86400 /\
    seconds n (SoftRtc.s_current_time_init, w) = Some (t', trigger w) /\
    SoftRtc.hour t' * 60 + SoftRtc.minute t' = 23 * 60 + 57.
Proof.
  cbv zeta.
  split; [reflexivity|]. split; [reflexivity|]. split; [reflexivity|].
  split; [reflexivity|].
  destruct (appointment_fires_within_a_day SoftRtc.s_current_time_init
              (scheduler_set_schedule_time (Some "00:02"%string)
                 (startup true)) 0 2
              ltac:(vm_compute; reflexivity) ltac:(discriminate)
              ltac:(vm_compute; reflexivity) ltac:(vm_compute; reflexivity)
              ltac:(vm_compute; reflexivity))
    as (n & t' & Hn & Hs & _ & Hm & _).
  exists n, t'. split; [exact Hn|]. split; [exact Hs|exact Hm].
Defined.

End Samples.

End ClockedFacts.

(* ================================================================== *)
(** * Facts about the HTTP handlers *)
(* ================================================================== *)

Module HttpServerFacts.

Import TempControl Scheduler SchedulerFacts SchedulerMoreFacts.
Import CString CStdio HttpServer SoftRtcFacts.

Section WithPlatform.

Context {plat : Target.Platform}.

(** ** Scanning what the prints produce *)

Lemma digit_cases (d : Z) :
  0 <= d <= 9 ->
  d = 0 \/ d = 1 \/ d = 2 \/ d = 3 \/ d = 4 \/ d = 5 \/ d = 6 \/ d = 7
  \/ d = 8 \/ d = 9.
Proof. lia. Qed.

End WithPlatform.

(** Replace a digit by each of its ten values. *)
Ltac each_digit d Hd :=
  destruct (digit_cases d Hd)
    as [->|[->|[->|[->|[->|[->|[->|[->|[->| ->]]]]]]]]].

Section WithPlatform.

Context {plat : Target.Platform}.

Lemma scan_digits_digit (acc d : Z) (s : string) :
  0 <= d <= 9 ->
  scan_digits acc (String (digit_char d) s) = scan_digits (acc * 10 + d) s.
Proof.
  intros Hd.
  each_digit d Hd; reflexivity.
Qed.

Lemma scan_digits_stop (acc : Z) (s : string) :
  no_digit_ahead s -> scan_digits acc s = (acc, s).
Proof.
  destruct s as [|c s]; simpl; [reflexivity|]. now intros ->.
Qed.

Lemma scan_number_digit (d : Z) (s : string) :
  0 <= d <= 9 ->
  scan_number (String (digit_char d) s)
  = let '(v, rest) := scan_digits d s in Some (v, rest).
Proof.
  intros Hd.
  each_digit d Hd; reflexivity.
Qed.

Lemma skip_spaces_digit (d : Z) (s : string) :
  0 <= d <= 9 ->
  skip_spaces (String (digit_char d) s) = String (digit_char d) s.
Proof.
  intros Hd.
  each_digit d Hd; reflexivity.
Qed.

Lemma scan_fmt_02d (n : Z) (rest : string) :
  0 <= n <= 99 -> no_digit_ahead rest ->
  scan_int (fmt_02d n ++ rest) = Some (n, rest).
Proof.
  intros Hn Hrest. unfold fmt_02d. cbn [append].
  rewrite Z.quot_div_nonneg, Z.rem_mod_nonneg by lia.
  assert (Hq : 0 <= n / 10 <= 9) by (Z.div_mod_to_equations; lia).
  assert (Hr : 0 <= n mod 10 <= 9) by (Z.div_mod_to_equations; lia).
  unfold scan_int.
  rewrite (scan_number_digit _ _ Hq), (scan_digits_digit _ _ _ Hr),
    (scan_digits_stop _ _ Hrest).
  rewrite int_conversion_int
    by (unfold Target.INT_MIN, Target.INT_MAX;
        Z.div_mod_to_equations; lia).
  f_equal. f_equal. Z.div_mod_to_equations. lia.
Qed.

Lemma scan_fmt_04d (n : Z) (rest : string) :
  0 <= n <= 9999 -> no_digit_ahead rest ->
  scan_int (fmt_04d n ++ rest) = Some (n, rest).
Proof.
  intros Hn Hrest. unfold fmt_04d. cbn [append].
  rewrite !Z.quot_div_nonneg, !Z.rem_mod_nonneg
    by (try lia; Z.div_mod_to_equations; lia).
  assert (H1 : 0 <= n / 1000 <= 9) by (Z.div_mod_to_equations; lia).
  assert (H2 : 0 <= (n / 100) mod 10 <= 9)
    by (Z.div_mod_to_equations; lia).
  assert (H3 : 0 <= (n / 10) mod 10 <= 9)
    by (Z.div_mod_to_equations; lia).
  assert (H4 : 0 <= n mod 10 <= 9) by (Z.div_mod_to_equations; lia).
  unfold scan_int.
  rewrite (scan_number_digit _ _ H1), (scan_digits_digit _ _ _ H2),
    (scan_digits_digit _ _ _ H3), (scan_digits_digit _ _ _ H4),
    (scan_digits_stop _ _ Hrest).
  rewrite int_conversion_int
    by (unfold Target.INT_MIN, Target.INT_MAX;
        Z.div_mod_to_equations; lia).
  f_equal. f_equal. Z.div_mod_to_equations. lia.
Qed.

Lemma substring_whole (s : string) (n : nat) :
  (String.length s <= n)%nat -> substring 0 n s = s.
Proof.
  revert n. induction s as [|c s IH]; intros n Hn.
  - now destruct n.
  - destruct n as [|n]; simpl in *; [lia|].
    f_equal. apply IH. lia.
Qed.

(** The scan of a printed date and time gives back the six numbers. *)
Lemma sscanf_date_time_print (y mo d h mi s : Z) :
  0 <= y <= 9999 -> 0 <= mo <= 99 -> 0 <= d <= 99 ->
  0 <= h <= 99 -> 0 <= mi <= 99 -> 0 <= s <= 99 ->
  sscanf_date_time
    (fmt_04d y ++ String "-"
       (fmt_02d mo ++ String "-"
          (fmt_02d d ++ String " "
             (fmt_02d h ++ String ":"
                (fmt_02d mi ++ String ":"
                   (fmt_02d s ++ EmptyString))))))%string
  = Some (y, mo, d, h, mi, s).
Proof.
  intros Hy Hmo Hd Hh Hmi Hs. unfold sscanf_date_time.
  rewrite (scan_fmt_04d y _ Hy) by reflexivity.
  rewrite (scan_fmt_02d mo _ Hmo) by reflexivity.
  rewrite (scan_fmt_02d d _ Hd) by reflexivity.
  assert (Hsp : forall r, skip_spaces (String " " (fmt_02d h ++ r)%string)
                          = (fmt_02d h ++ r)%string).
  { intros r. change (skip_spaces (String " " (fmt_02d h ++ r)%string))
      with (skip_spaces (fmt_02d h ++ r)%string).
    unfold fmt_02d. cbn [append].
    apply skip_spaces_digit.
    rewrite Z.quot_div_nonneg by lia. Z.div_mod_to_equations. lia. }
  rewrite Hsp.
  rewrite (scan_fmt_02d h _ Hh) by reflexivity.
  rewrite (scan_fmt_02d mi _ Hmi) by reflexivity.
  rewrite (scan_fmt_02d s _ Hs) by exact I.
  reflexivity.
Qed.

Lemma printable_inv (t : SoftRtc.rtc_time_t) :
  printable t = true ->
  0 <= SoftRtc.year t <= 9999 /\ 0 <= SoftRtc.month t <= 99 /\
  0 <= SoftRtc.day t <= 99 /\ 0 <= SoftRtc.hour t <= 99 /\
  0 <= SoftRtc.minute t <= 99 /\ 0 <= SoftRtc.second t <= 99.
Proof.
  unfold printable. intros H.
  repeat (apply andb_prop in H; destruct H as [H ?]).
  repeat match goal with
         | H : (_ <=? _) = true |- _ => apply Z.leb_le in H
         end.
  lia.
Qed.

(** X17: the clock's print is read back by /sync_time.
    For a time whose fields are in the printed ranges (a year of at most
    four digits, the others of at most two), the string that
    soft_rtc_get_time_string writes in format 2 into a buffer of at least
    20 bytes has 19 characters, and a /sync_time request with that string
    and the time's weekday is answered ok and sets the clock as
    soft_rtc_set_time does with that very time: all six numbers are
    stored as printed, valid or not, and only a weekday outside [1, 7] is
    replaced, by 1.  Without the weekday item the weekday stored is 1. *)
Theorem time_string_round_trip (t cur : SoftRtc.rtc_time_t)
  (buf_size : Z) :
  printable t = true ->
  20 <= buf_size ->
  exists str,
    SoftRtc.soft_rtc_get_time_string buf_size 2 t = Some str /\
    String.length str = 19%nat /\
    sync_time_post_handler
      (Some {| time_item := Some str;
               weekday_item := Some (SoftRtc.weekday t) |}) cur
    = (SoftRtc.soft_rtc_set_time (Some t) cur, true) /\
    sync_time_post_handler
      (Some {| time_item := Some str; weekday_item := None |}) cur
    = (SoftRtc.mk_time (SoftRtc.year t) (SoftRtc.month t) (SoftRtc.day t)
         (SoftRtc.hour t) (SoftRtc.minute t) (SoftRtc.second t) 1,
       true).
Proof.
  intros Hp Hb.
  destruct (printable_inv t Hp) as (Hy & Hmo & Hd & Hh & Hmi & Hs).
  set (str := (fmt_04d (SoftRtc.year t) ++ String "-"
                 (fmt_02d (SoftRtc.month t) ++ String "-"
                    (fmt_02d (SoftRtc.day t) ++ String " "
                       (fmt_02d (SoftRtc.hour t) ++ String ":"
                          (fmt_02d (SoftRtc.minute t) ++ String ":"
                             (fmt_02d (SoftRtc.second t)
                              ++ EmptyString))))))%string).
  assert (Hlen : String.length str = 19%nat) by reflexivity.
  assert (Hscan : sscanf_date_time str
                  = Some (SoftRtc.year t, SoftRtc.month t, SoftRtc.day t,
                          SoftRtc.hour t, SoftRtc.minute t,
                          SoftRtc.second t))
    by now apply sscanf_date_time_print.
  exists str. split; [|split; [exact Hlen|split]].
  - unfold SoftRtc.soft_rtc_get_time_string.
    destruct (buf_size <? 6) eqn:E; [apply Z.ltb_lt in E; lia|].
    cbn [Z.eqb Pos.eqb]. unfold snprintf. f_equal.
    change (SoftRtc.soft_rtc_get_time t) with t.
    transitivity (substring 0 (Z.to_nat (buf_size - 1)) str);
      [reflexivity|].
    apply substring_whole. rewrite Hlen. lia.
  - unfold sync_time_post_handler. cbn [time_item weekday_item].
    rewrite Hscan. f_equal.
    unfold SoftRtc.soft_rtc_set_time.
    cbn [SoftRtc.weekday SoftRtc.year SoftRtc.month SoftRtc.day
         SoftRtc.hour SoftRtc.minute SoftRtc.second].
    destruct ((SoftRtc.weekday t <? 1) || (7 <? SoftRtc.weekday t)) eqn:W.
    + reflexivity.
    + rewrite W. now destruct t.
  - unfold sync_time_post_handler. cbn [time_item weekday_item].
    rewrite Hscan. reflexivity.
Qed.

(** Each of the six numbers [sscanf] stores is an [int]. *)
Lemma sscanf_date_time_range (time_str : string) (y mo d h mi s : Z) :
  sscanf_date_time time_str = Some (y, mo, d, h, mi, s) ->
  Forall (fun v => Target.INT_MIN <= v <= Target.INT_MAX)
    [y; mo; d; h; mi; s].
Proof.
  unfold sscanf_date_time.
  destruct (scan_int time_str) as [[v1 r1]|] eqn:E1; [|discriminate].
  destruct r1 as [|c r1]; [discriminate|].
  destruct c as [[] [] [] [] [] [] [] []]; try discriminate.
  destruct (scan_int r1) as [[v2 r2]|] eqn:E2; [|discriminate].
  destruct r2 as [|c r2]; [discriminate|].
  destruct c as [[] [] [] [] [] [] [] []]; try discriminate.
  destruct (scan_int r2) as [[v3 r3]|] eqn:E3; [|discriminate].
  destruct (scan_int (skip_spaces r3)) as [[v4 r4]|] eqn:E4; [|discriminate].
  destruct r4 as [|c r4]; [discriminate|].
  destruct c as [[] [] [] [] [] [] [] []]; try discriminate.
  destruct (scan_int r4) as [[v5 r5]|] eqn:E5; [|discriminate].
  destruct r5 as [|c r5]; [discriminate|].
  destruct c as [[] [] [] [] [] [] [] []]; try discriminate.
  destruct (scan_int r5) as [[v6 r6]|] eqn:E6; [|discriminate].
  intros H. injection H as <- <- <- <- <- <-.
  apply scan_int_range in E1, E2, E3, E4, E5, E6.
  repeat (apply Forall_cons; [assumption|]). apply Forall_nil.
Qed.

(** X18: /sync_time checks no range.  Whatever string the request
    carries, if sscanf reads six numbers from it the handler answers ok
    and stores them as they are, six values of type int, with a weekday
    within [1, 7]; whatever string it does not read six numbers from
    leaves the clock alone and is answered with an error.  When the
    month stored is not between 0 and 12, while hour, minute and second
    are a time of day, the clock runs on to 23:59:59 of the stored day
    with the date untouched, and the callback of the next second looks up
    the length of the month outside the table of month lengths. *)
Theorem sync_time_stores_unchecked (time_str : string)
  (weekday : option Z) (cur : SoftRtc.rtc_time_t) :
  let res := sync_time_post_handler
               (Some {| time_item := Some time_str;
                        weekday_item := weekday |}) cur in
  let clock := fst res in
  match sscanf_date_time time_str with
  | None => res = (cur, false)
  | Some (y, mo, d, h, mi, s) =>
      snd res = true /\
      SoftRtc.year clock = y /\ SoftRtc.month clock = mo /\
      SoftRtc.day clock = d /\ SoftRtc.hour clock = h /\
      SoftRtc.minute clock = mi /\ SoftRtc.second clock = s /\
      Forall (fun v => Target.INT_MIN <= v <= Target.INT_MAX)
        [y; mo; d; h; mi; s] /\
      1 <= SoftRtc.weekday clock <= 7 /\
      (mo < 0 \/ 12 < mo ->
       0 <= h < 24 -> 0 <= mi < 60 -> 0 <= s < 60 ->
       let n := Z.to_nat (86399 - (h * 3600 + mi * 60 + s)) in
       SoftRtc.valid_time clock = false /\
       (exists t',
          SoftRtc.rtc_run n clock = Some t' /\
          SoftRtc.hour t' = 23 /\ SoftRtc.minute t' = 59 /\
          SoftRtc.second t' = 59 /\ SoftRtc.month t' = mo /\
          SoftRtc.day t' = d) /\
       SoftRtc.rtc_run (S n) clock = None)
  end.
Proof.
  intros res clock.
  destruct (sscanf_date_time time_str) as [[[[[[y mo] d] h] mi] s]|]
    eqn:Hscan.
  2:{ subst res. unfold sync_time_post_handler.
      cbn [time_item weekday_item]. now rewrite Hscan. }
  assert (Hres : res
                 = (SoftRtc.soft_rtc_set_time
                      (Some (SoftRtc.mk_time y mo d h mi s
                               match weekday with
                               | Some v => if (v <? 1) || (7 <? v)
                                           then 1 else v
                               | None => 1
                               end)) cur, true)).
  { subst res. unfold sync_time_post_handler.
    cbn [time_item weekday_item]. now rewrite Hscan. }
  set (wd := match weekday with
             | Some v => if (v <? 1) || (7 <? v) then 1 else v
             | None => 1
             end) in Hres.
  assert (Hwd : 1 <= wd <= 7).
  { subst wd. destruct weekday as [v|]; [|lia].
    destruct ((v <? 1) || (7 <? v)) eqn:E; [lia|].
    apply orb_false_elim in E. destruct E as [E1 E2].
    apply Z.ltb_ge in E1. apply Z.ltb_ge in E2. lia. }
  assert (Hclock : clock = SoftRtc.mk_time y mo d h mi s wd).
  { subst clock. rewrite Hres. cbn [fst].
    unfold SoftRtc.soft_rtc_set_time. cbn [SoftRtc.weekday].
    destruct ((wd <? 1) || (7 <? wd)) eqn:E; [|reflexivity].
    apply orb_prop in E.
    destruct E as [E|E]; apply Z.ltb_lt in E; lia. }
  split; [now rewrite Hres|].
  rewrite Hclock.
  cbn [SoftRtc.year SoftRtc.month SoftRtc.day SoftRtc.hour SoftRtc.minute
       SoftRtc.second SoftRtc.weekday].
  repeat (split; [reflexivity|]).
  split; [exact (sscanf_date_time_range _ _ _ _ _ _ _ Hscan)|].
  split; [exact Hwd|].
  intros Hmo Hh Hmi Hs. cbv zeta.
  set (n := Z.to_nat (86399 - (h * 3600 + mi * 60 + s))). split.
  - unfold SoftRtc.valid_time.
    cbn [SoftRtc.year SoftRtc.month SoftRtc.day SoftRtc.hour
         SoftRtc.minute SoftRtc.second SoftRtc.weekday].
    destruct Hmo as [Hlo|Hhi].
    + assert (E : (1 <=? mo) = false) by (apply Z.leb_gt; lia).
      rewrite E. now rewrite !andb_false_r.
    + assert (E : (mo <=? 12) = false) by (apply Z.leb_gt; lia).
      rewrite E. now rewrite !andb_false_r.
  - destruct (run_to_last_second n (SoftRtc.mk_time y mo d h mi s wd))
      as (t' & Hrun & H1 & H2 & H3 & _ & H5 & H6 & _);
      cbn [SoftRtc.hour SoftRtc.minute SoftRtc.second]; try lia.
    { unfold SoftRtc.second_of_day.
      cbn [SoftRtc.hour SoftRtc.minute SoftRtc.second]. subst n. lia. }
    cbn [SoftRtc.month SoftRtc.day] in H5, H6.
    split; [exists t'; now repeat split|].
    replace (S n) with (n + 1)%nat by lia.
    rewrite (ClockedFacts.rtc_run_app n 1 _ _ Hrun).
    cbn [SoftRtc.rtc_run].
    rewrite (callback_outside_table t' H1 H2 H3) by (rewrite H5; exact Hmo).
    reflexivity.
Qed.

(** ** The /control request *)

Lemma control_post_handler_events (logf : float32 -> float32)
  (r : control_request) (w : system) :
  control_post_handler (Some r) w
  = (run_events logf (request_events r) w, true).
Proof.
  unfold control_post_handler, request_events.
  destruct (power_item r), (temp_item r), (timer_item r),
    (schedule_item r); reflexivity.
Qed.

Lemma set_schedule_time_keeps_timer (time_str : option string)
  (w : system) :
  let w' := scheduler_set_schedule_time time_str w in
  control w' = control w /\
  s_timer_duration (sched w') = s_timer_duration (sched w) /\
  s_timer_remaining (sched w') = s_timer_remaining (sched w) /\
  s_timer_seconds (sched w') = s_timer_seconds (sched w) /\
  s_timer_running (sched w') = s_timer_running (sched w).
Proof.
  unfold scheduler_set_schedule_time.
  destruct time_str as [str|]; [|now repeat split].
  destruct (parse_schedule_time str) as [[h m]|]; now repeat split.
Qed.

Lemma set_timer_duration_paused (minutes : Z) (w : system) :
  temp_control_get_power (control w) = false ->
  let w' := scheduler_set_timer_duration minutes w in
  control w' = control w /\
  s_timer_running (sched w') = s_timer_running (sched w) /\
  s_timer_seconds (sched w') = s_timer_seconds (sched w) /\
  s_timer_remaining (sched w') = s_timer_remaining (sched w).
Proof.
  intros Hp. unfold scheduler_set_timer_duration, with_sched.
  rewrite Hp. now repeat split.
Qed.

(** X19: one /control request.  A body that is no JSON
    changes nothing.  Otherwise the handler is the four calls
    set_power, set_target_temp, set_timer_duration and set_schedule_time,
    in this order, for the items present.  Hence power is switched before
    the timer is set: with a timer_duration item m, the duration becomes
    m limited to [1, 240], and the countdown starts at 60 seconds per
    minute exactly when power is on after the power item (as the request
    says, or as it was before when the request has no power item);
    otherwise the timer's seconds and running flag stay as they were. *)
Theorem control_request_power_first (logf : float32 -> float32)
  (r : control_request) (w : system) :
  let w' := fst (control_post_handler (Some r) w) in
  let on := match power_item r with
            | Some v => negb (v =? 0)
            | None => temp_control_get_power (control w)
            end in
  control_post_handler None w = (w, false) /\
  control_post_handler (Some r) w
  = (run_events logf (request_events r) w, true) /\
  temp_control_get_power (control w') = on /\
  forall m, timer_item r = Some m ->
    let d := Z.min CONFIG_MAX_HEATING_TIME_MINUTES (Z.max 1 m) in
    s_timer_duration (sched w') = d /\
    (on = true ->
     s_timer_running (sched w') = true /\
     s_timer_seconds (sched w') = d * 60 /\
     scheduler_get_timer_remaining w' = d) /\
    (on = false ->
     s_timer_running (sched w') = s_timer_running (sched w) /\
     s_timer_seconds (sched w') = s_timer_seconds (sched w) /\
     scheduler_get_timer_remaining w' = scheduler_get_timer_remaining w).
Proof.
  intros w' on.
  split; [reflexivity|]. split; [apply control_post_handler_events|].
  subst w'. unfold control_post_handler. cbn [fst].
  set (w1 := match power_item r with
             | Some v =>
                 with_control w
                   (temp_control_set_power (negb (v =? 0)) (control w))
             | None => w
             end).
  set (w2 := match temp_item r with
             | Some set_temp =>
                 with_control w1
                   (temp_control_set_target_temp set_temp (control w1))
             | None => w1
             end).
  set (w3 := match timer_item r with
             | Some duration => scheduler_set_timer_duration duration w2
             | None => w2
             end).
  set (w4 := match schedule_item r with
             | Some str => scheduler_set_schedule_time (Some str) w3
             | None => w3
             end).
  assert (H1 : temp_control_get_power (control w1) = on /\
               sched w1 = sched w)
    by (subst w1 on; destruct (power_item r); now split).
  assert (H2 : temp_control_get_power (control w2) = on /\
               sched w2 = sched w).
  { subst w2. destruct (temp_item r) as [t|]; [|exact H1].
    destruct H1 as [H1 H1']. split; [|exact H1'].
    rewrite <- H1. reflexivity. }
  destruct H2 as [Hp2 Hs2].
  assert (H4 : control w4 = control w3 /\
               s_timer_duration (sched w4) = s_timer_duration (sched w3) /\
               s_timer_remaining (sched w4)
               = s_timer_remaining (sched w3) /\
               s_timer_seconds (sched w4) = s_timer_seconds (sched w3) /\
               s_timer_running (sched w4) = s_timer_running (sched w3)).
  { subst w4. destruct (schedule_item r) as [str|]; [|now repeat split].
    apply set_schedule_time_keeps_timer. }
  destruct H4 as (Hc4 & Hd4 & Hrem4 & Hsec4 & Hrun4).
  assert (Hc3 : control w3 = control w2).
  { subst w3. destruct (timer_item r) as [m|]; [|reflexivity].
    unfold scheduler_set_timer_duration, with_sched.
    now destruct (temp_control_get_power (control w2)). }
  split; [now rewrite Hc4, Hc3|].
  intros m Hm.
  set (d := Z.min CONFIG_MAX_HEATING_TIME_MINUTES (Z.max 1 m)).
  subst w3. rewrite Hm in *.
  unfold scheduler_get_timer_remaining.
  rewrite Hd4, Hrem4, Hsec4, Hrun4.
  split; [apply set_timer_duration_clamps|].
  split; intros Hon; rewrite Hon in Hp2.
  - destruct (set_timer_duration_starts m w2 Hp2)
      as (_ & _ & Hr & Hs & _).
    cbv zeta in Hr, Hs.
    rewrite Hr, Hs, set_timer_duration_clamps. fold d.
    split; [reflexivity|]. split; [reflexivity|].
    unfold scheduler_set_timer_duration, with_sched. rewrite Hp2.
    cbn [sched s_timer_remaining].
    pose proof (set_timer_duration_clamps m w2) as Hd.
    unfold scheduler_set_timer_duration, with_sched in Hd.
    rewrite Hp2 in Hd. exact Hd.
  - destruct (set_timer_duration_paused m w2 Hp2)
      as (_ & Hr & Hs & Hrem).
    cbv zeta in Hr, Hs, Hrem.
    now rewrite Hr, Hs, Hrem, Hs2.
Qed.

End WithPlatform.

Section Samples.

#[local] Existing Instance Target.saturating.

(** A date that is no date of the calendar, the 45th of month 13 at
    25:61:61 on weekday 9, is printed, read back and stored, with the
    weekday replaced by 1. *)
Lemma time_string_round_trip_witness :
  let t := SoftRtc.mk_time 2025 13 45 25 61 61 9 in
  printable t = true /\
  SoftRtc.soft_rtc_get_time_string 20 2 t
  = Some "2025-13-45 25:61:61"%string /\
  sync_time_post_handler
    (Some {| time_item := Some "2025-13-45 25:61:61"%string;
             weekday_item := Some 9 |}) SoftRtc.s_current_time_init
  = (SoftRtc.mk_time 2025 13 45 25 61 61 1, true) /\
  SoftRtc.valid_time (SoftRtc.mk_time 2025 13 45 25 61 61 1) = false.
Proof.
  cbv zeta. split; [reflexivity|].
  destruct (time_string_round_trip (SoftRtc.mk_time 2025 13 45 25 61 61 9)
              SoftRtc.s_current_time_init 20 ltac:(vm_compute; reflexivity)
              ltac:(discriminate))
    as (str & Hstr & _ & Hsync & _).
  split; [reflexivity|]. split; reflexivity.
Defined.

(** Month 13, a minute before midnight: stored as it is, and the clock
    stops making sense sixty seconds later.  A string with five numbers
    only is answered with an error. *)
Lemma sync_time_stores_unchecked_witness :
  let time_str := "2025-13-01 23:59:00"%string in
  let res := sync_time_post_handler
               (Some {| time_item := Some time_str; weekday_item := None |})
               SoftRtc.s_current_time_init in
  sscanf_date_time time_str = Some (2025, 13, 1, 23, 59, 0) /\
  snd res = true /\
  SoftRtc.month (fst res) = 13 /\
  SoftRtc.rtc_run 60 (fst res) = None /\
  sync_time_post_handler
    (Some {| time_item := Some "2025-13-01 23:59"%string;
             weekday_item := None |}) SoftRtc.s_current_time_init
  = (SoftRtc.s_current_time_init, false).
Proof.
  cbv zeta. split; [reflexivity|].
  pose proof (sync_time_stores_unchecked "2025-13-01 23:59:00"%string None
                SoftRtc.s_current_time_init) as H.
  cbv zeta in H.
  change (sscanf_date_time "2025-13-01 23:59:00")
    with (Some (2025, 13, 1, 23, 59, 0)) in H.
  cbv iota beta in H.
  destruct H as (H1 & _ & H2 & _ & _ & _ & _ & _ & _ & H3).
  split; [exact H1|]. split; [exact H2|].
  assert (Hmo : 13 < 0 \/ 12 < 13) by (right; reflexivity).
  destruct (H3 Hmo ltac:(lia) ltac:(lia) ltac:(lia)) as (_ & _ & H4).
  split; [exact H4|].
  exact (sync_time_stores_unchecked "2025-13-01 23:59"%string None
           SoftRtc.s_current_time_init).
Defined.

End Samples.

End HttpServerFacts.
